(** * FINS general ledger: journal entries, chart of accounts, receivable aging

    A shallow embedding of the general-ledger and accounts-receivable services
    of the FINS ERP prototype, and the properties of its specification that
    can be settled on it.

    Sources embedded here:
    - general-ledger/src/models/journal_entries.py
    - general-ledger/src/models/chart_of_accounts.py
    - general-ledger/src/services/journal_service.py  (class JournalService)
    - general-ledger/src/services/gl_service.py       (class GeneralLedgerService)
    - accounts-receivable/src/services/ar_service.py  (generate_aging_report)

    Conventions of the embedding.
    - A [Decimal] amount of a [Numeric(15, 2)] column is an integer number of
      hundredths, so that [Decimal("150.00")] is [15000].
    - A [date] is its proleptic Gregorian ordinal ([date.toordinal()]), so that
      [(a - b).days] is the difference of two ordinals.
    - A [datetime] is the record of its calendar fields.
    - [datetime.utcnow()] is an input of every service call: the argument
      [now] is the reading of the clock during that call.  The column defaults
      [created_at] / [updated_at] take the same reading.
    - The SQLAlchemy session is an explicit database value [Db]; a call
      either commits a new database or raises, in which case the session is
      rolled back and the database is the one the call started from.
    - Every exception raised by the services is a [ValueError]; the
      constructors of [ValueError] below are the distinct messages.
    - The inputs of a call are values that passed the pydantic models, and the
      tables hold what the services wrote: column constraints and request
      validation are outside the embedding.  Columns no service reads or
      writes ([created_by], [updated_by], the keys and timestamps of the
      lines) are left out of the rows. *)

From Stdlib Require Import ZArith List String Ascii Bool Lia Sorted Permutation.
From Stdlib Require Import Decimal DecimalString DecimalNat.
Import ListNotations.

Local Open Scope Z_scope.
Local Open Scope string_scope.
Local Open Scope list_scope.

(* ================================================================== *)
(** ** Basic data *)

Definition Decimal : Type := Z.
Definition date : Type := Z.

Record datetime : Type := mk_datetime {
  year : nat;
  month : nat;
  day : nat;
  hour : nat;
  minute : nat;
  second : nat;
  microsecond : nat
}.

(** [status = Column(String(20), default="Draft")  # Draft, Posted, Void] *)
Inductive Status : Type := Draft | Posted | Void.

(** [entry_type: str = Field(..., regex="^(Manual|System|Recurring)$")] *)
Inductive EntryType : Type := Manual | System | Recurring.

(** [account_type], regex [^(Asset|Liability|Equity|Revenue|Expense)$] *)
Inductive AccountType : Type := Asset | Liability | Equity | Revenue | Expense.

(** [normal_balance], regex [^(Debit|Credit)$]; the spec's [Debit] and
    [Credit], renamed because [Decimal] is taken. *)
Inductive NormalBalance : Type := DebitNormal | CreditNormal.

Definition Status_eqb (a b : Status) : bool :=
  match a, b with
  | Draft, Draft | Posted, Posted | Void, Void => true
  | _, _ => false
  end.

(** The strings the [status] and [account_type] columns hold. *)
Definition status_name (s : Status) : string :=
  match s with
  | Draft => "Draft"
  | Posted => "Posted"
  | Void => "Void"
  end.

Definition account_type_name (t : AccountType) : string :=
  match t with
  | Asset => "Asset"
  | Liability => "Liability"
  | Equity => "Equity"
  | Revenue => "Revenue"
  | Expense => "Expense"
  end.

(** The messages of the [ValueError]s the services raise. *)
Inductive ValueError : Type :=
  (* "Journal entry is not balanced. Debits: {d}, Credits: {c}" *)
  | Unbalanced (total_debits total_credits : Decimal)
  (* "Account {account_id} not found or inactive" *)
  | InvalidAccount (account_id : Z)
  (* "Cannot update posted journal entry" *)
  | ImmutablePosted
  (* "Journal entry {entry_id} not found" *)
  | NotFound (entry_id : Z)
  (* "Journal entry {entry_id} is already posted" *)
  | AlreadyPosted (entry_id : Z)
  (* "Cannot post voided journal entry {entry_id}" *)
  | CannotPostVoid (entry_id : Z)
  (* "Cannot post unbalanced journal entry {entry_id}" *)
  | UnbalancedEntry (entry_id : Z)
  (* "Cannot void posted journal entry {entry_id}. Create reversing entry instead." *)
  | CannotVoidPosted (entry_id : Z)
  (* "Journal entry {entry_id} is already voided" *)
  | AlreadyVoid (entry_id : Z)
  (* "Cannot reverse non-posted journal entry {entry_id}" *)
  | NotPosted (entry_id : Z)
  (* "Account code {account_code} already exists" *)
  | DuplicateCode (account_code : string)
  (* "Parent account {parent_account_id} not found" *)
  | ParentNotFound (parent_account_id : Z)
  (* "Cannot delete account with {n} active child accounts" *)
  | HasActiveChildren (child_accounts : nat)
  (* "Account {account_id} not found" *)
  | AccountNotFound (account_id : Z).

(** Outcome of a call: a value, or a raised [ValueError]. *)
Inductive result (A : Type) : Type :=
  | Ok (a : A)
  | Raise (e : ValueError).
Arguments Ok {A} a.
Arguments Raise {A} e.

Definition bind {A B : Type} (r : result A) (k : A -> result B) : result B :=
  match r with
  | Ok a => k a
  | Raise e => Raise e
  end.

Notation "x <- r ;; k" := (bind r (fun x => k))
  (at level 61, r at next level, right associativity).

(** [if cond: raise err] *)
Definition raise_if (cond : bool) (err : ValueError) : result unit :=
  if cond then Raise err else Ok tt.

(* ================================================================== *)
(** ** models/chart_of_accounts.py *)

Module ChartOfAccounts.
Record t : Type := mk {
  id : Z;
  account_code : string;
  account_name : string;
  account_type : AccountType;
  account_category : string;
  parent_account_id : option Z;
  description : option string;
  is_active : bool;
  is_system_account : bool;
  normal_balance : NormalBalance;
  created_at : datetime;
  updated_at : datetime
}.

(** [setattr(db_account, field, value)], one function per column the services
    assign. *)
Definition set_account_name (v : string) (a : t) : t :=
  mk (id a) (account_code a) v (account_type a) (account_category a)
     (parent_account_id a) (description a) (is_active a)
     (is_system_account a) (normal_balance a) (created_at a) (updated_at a).

Definition set_account_type (v : AccountType) (a : t) : t :=
  mk (id a) (account_code a) (account_name a) v (account_category a)
     (parent_account_id a) (description a) (is_active a)
     (is_system_account a) (normal_balance a) (created_at a) (updated_at a).

Definition set_account_category (v : string) (a : t) : t :=
  mk (id a) (account_code a) (account_name a) (account_type a) v
     (parent_account_id a) (description a) (is_active a)
     (is_system_account a) (normal_balance a) (created_at a) (updated_at a).

Definition set_parent_account_id (v : option Z) (a : t) : t :=
  mk (id a) (account_code a) (account_name a) (account_type a)
     (account_category a) v (description a) (is_active a)
     (is_system_account a) (normal_balance a) (created_at a) (updated_at a).

Definition set_description (v : option string) (a : t) : t :=
  mk (id a) (account_code a) (account_name a) (account_type a)
     (account_category a) (parent_account_id a) v (is_active a)
     (is_system_account a) (normal_balance a) (created_at a) (updated_at a).

Definition set_is_active (v : bool) (a : t) : t :=
  mk (id a) (account_code a) (account_name a) (account_type a)
     (account_category a) (parent_account_id a) (description a) v
     (is_system_account a) (normal_balance a) (created_at a) (updated_at a).

Definition set_normal_balance (v : NormalBalance) (a : t) : t :=
  mk (id a) (account_code a) (account_name a) (account_type a)
     (account_category a) (parent_account_id a) (description a)
     (is_active a) (is_system_account a) v (created_at a) (updated_at a) .
Definition set_updated_at (v : datetime) (a : t) : t :=
  mk (id a) (account_code a) (account_name a) (account_type a)
     (account_category a) (parent_account_id a) (description a)
     (is_active a) (is_system_account a) (normal_balance a) (created_at a)
     v.
End ChartOfAccounts.

Module ChartOfAccountsCreate.
Record t : Type := mk {
  account_code : string;
  account_name : string;
  account_type : AccountType;
  account_category : string;
  parent_account_id : option Z;
  description : option string;
  is_active : bool;
  is_system_account : bool;
  normal_balance : NormalBalance
}.
End ChartOfAccountsCreate.

(** Every field is optional; [None] is a field the caller did not set
    ([dict(exclude_unset=True)] leaves it out).  The two nullable columns can
    also be set to null, which is [Some None]. *)
Module ChartOfAccountsUpdate.
Record t : Type := mk {
  account_name : option string;
  account_type : option AccountType;
  account_category : option string;
  parent_account_id : option (option Z);
  description : option (option string);
  is_active : option bool;
  normal_balance : option NormalBalance
}.
End ChartOfAccountsUpdate.

(* ================================================================== *)
(** ** models/journal_entries.py *)

Module JournalLineCreate.
Record t : Type := mk {
  account_id : Z;
  line_number : Z;
  description : option string;
  debit_amount : Decimal;
  credit_amount : Decimal
}.
End JournalLineCreate.

(** A row of [journal_lines]. *)
Module JournalLine.
Record t : Type := mk {
  journal_entry_id : Z;
  account_id : Z;
  line_number : Z;
  description : option string;
  debit_amount : Decimal;
  credit_amount : Decimal
}.
End JournalLine.

Module JournalEntryCreate.
Record t : Type := mk {
  entry_date : date;
  reference : option string;
  description : string;
  entry_type : EntryType;
  journal_lines : list JournalLineCreate.t
}.
End JournalEntryCreate.

(** [None] is a field the caller did not set; [reference] is the one nullable
    scalar column, [Some None] sets it to null. *)
Module JournalEntryUpdate.
Record t : Type := mk {
  entry_date : option date;
  reference : option (option string);
  description : option string;
  entry_type : option EntryType;
  journal_lines : option (list JournalLineCreate.t)
}.
End JournalEntryUpdate.

(** A row of [journal_entries] together with the rows of [journal_lines] its
    [journal_lines] relationship loads. *)
Module JournalEntry.
Record t : Type := mk {
  id : Z;
  entry_number : string;
  entry_date : date;
  reference : option string;
  description : string;
  status : Status;
  entry_type : EntryType;
  total_debits : Decimal;
  total_credits : Decimal;
  is_balanced : bool;
  posted_at : option datetime;
  posted_by : option Z;
  created_at : datetime;
  updated_at : datetime;
  journal_lines : list JournalLine.t
}.

(** [setattr(db_entry, field, value)], one function per column the services
    assign. *)
Definition set_entry_date (v : date) (e : t) : t :=
  mk (id e) (entry_number e) v (reference e) (description e) (status e)
     (entry_type e) (total_debits e) (total_credits e) (is_balanced e)
     (posted_at e) (posted_by e) (created_at e) (updated_at e)
     (journal_lines e) .
Definition set_reference (v : option string) (e : t) : t :=
  mk (id e) (entry_number e) (entry_date e) v (description e) (status e)
     (entry_type e) (total_debits e) (total_credits e) (is_balanced e)
     (posted_at e) (posted_by e) (created_at e) (updated_at e)
     (journal_lines e) .
Definition set_description (v : string) (e : t) : t :=
  mk (id e) (entry_number e) (entry_date e) (reference e) v (status e)
     (entry_type e) (total_debits e) (total_credits e) (is_balanced e)
     (posted_at e) (posted_by e) (created_at e) (updated_at e)
     (journal_lines e) .
Definition set_entry_type (v : EntryType) (e : t) : t :=
  mk (id e) (entry_number e) (entry_date e) (reference e) (description e)
     (status e) v (total_debits e) (total_credits e) (is_balanced e)
     (posted_at e) (posted_by e) (created_at e) (updated_at e)
     (journal_lines e) .
Definition set_status (v : Status) (e : t) : t :=
  mk (id e) (entry_number e) (entry_date e) (reference e) (description e) v
     (entry_type e) (total_debits e) (total_credits e) (is_balanced e)
     (posted_at e) (posted_by e) (created_at e) (updated_at e)
     (journal_lines e) .
Definition set_total_debits (v : Decimal) (e : t) : t :=
  mk (id e) (entry_number e) (entry_date e) (reference e) (description e)
     (status e) (entry_type e) v (total_credits e) (is_balanced e)
     (posted_at e) (posted_by e) (created_at e) (updated_at e)
     (journal_lines e) .
Definition set_total_credits (v : Decimal) (e : t) : t :=
  mk (id e) (entry_number e) (entry_date e) (reference e) (description e)
     (status e) (entry_type e) (total_debits e) v (is_balanced e)
     (posted_at e) (posted_by e) (created_at e) (updated_at e)
     (journal_lines e) .
Definition set_is_balanced (v : bool) (e : t) : t :=
  mk (id e) (entry_number e) (entry_date e) (reference e) (description e)
     (status e) (entry_type e) (total_debits e) (total_credits e) v
     (posted_at e) (posted_by e) (created_at e) (updated_at e)
     (journal_lines e) .
Definition set_posted_at (v : option datetime) (e : t) : t :=
  mk (id e) (entry_number e) (entry_date e) (reference e) (description e)
     (status e) (entry_type e) (total_debits e) (total_credits e)
     (is_balanced e) v (posted_by e) (created_at e) (updated_at e)
     (journal_lines e) .
Definition set_updated_at (v : datetime) (e : t) : t :=
  mk (id e) (entry_number e) (entry_date e) (reference e) (description e)
     (status e) (entry_type e) (total_debits e) (total_credits e)
     (is_balanced e) (posted_at e) (posted_by e) (created_at e) v
     (journal_lines e) .
Definition set_journal_lines (v : list JournalLine.t) (e : t) : t :=
  mk (id e) (entry_number e) (entry_date e) (reference e) (description e)
     (status e) (entry_type e) (total_debits e) (total_credits e)
     (is_balanced e) (posted_at e) (posted_by e) (created_at e)
     (updated_at e) v.
End JournalEntry.

(* ================================================================== *)
(** ** The database session *)

(** The two tables, each in insertion order. *)
Record Db : Type := mk_Db {
  chart_of_accounts : list ChartOfAccounts.t;
  journal_entries : list JournalEntry.t
}.

Definition empty_db : Db := mk_Db [] [].

(** A call run in a session: the committed database and the returned value,
    or the exception (and the session is rolled back). *)
Definition session (A : Type) : Type := Db -> result (A * Db).

(** The database after a call. *)
Definition committed {A : Type} (r : result (A * Db)) (db : Db) : Db :=
  match r with
  | Ok (_, db') => db'
  | Raise _ => db
  end.

(** Autoincrement primary key: one more than the largest key in the table. *)
Definition next_id (ids : list Z) : Z := 1 + fold_right Z.max 0 ids.

Section Table.

Context {R : Type} (key : R -> Z).

(** [db.query(Row).filter(Row.id == k).first()] *)
Definition lookup (k : Z) (rows : list R) : option R :=
  find (fun r => (key r =? k)%Z) rows.

(** The commit of a row that was loaded from the table and assigned to: it
    takes the place of the stored row with its key. *)
Definition put (r' : R) (rows : list R) : list R :=
  map (fun r => if (key r =? key r')%Z then r' else r) rows.

End Table.

(** Python's [sum]: a left fold from [0]. *)
Definition sum (l : list Decimal) : Decimal := fold_left Z.add l 0.

(** [setattr] for a field the caller may have left unset. *)
Definition set_if_set {V R : Type} (set : V -> R -> R) (v : option V) (r : R) : R :=
  match v with
  | Some x => set x r
  | None => r
  end.

(** Truth value of an [Optional[int]] in a condition such as
    [if account.parent_account_id:], which is false for [None] and for [0]:
    the value when the branch is taken. *)
Definition truthy (v : option Z) : option Z :=
  match v with
  | Some p => if (p =? 0)%Z then None else Some p
  | None => None
  end.

(** Truth value of an [Optional[str]] in a condition such as [if status:],
    which is false for [None] and for the empty string. *)
Definition truthy_str (v : option string) : option string :=
  match v with
  | Some s => if String.eqb s "" then None else Some s
  | None => None
  end.

(** [query.offset(skip).limit(limit)] *)
Definition page {A : Type} (skip limit : nat) (rows : list A) : list A :=
  firstn limit (skipn skip rows).

(* ================================================================== *)
(** ** services/journal_service.py *)

Module JournalService.

(** [f"{n}"] of a non-negative [int]. *)
Definition format_d (n : nat) : string :=
  NilEmpty.string_of_uint (Nat.to_uint n).

Fixpoint zeros (k : nat) : string :=
  match k with
  | O => EmptyString
  | S k' => String "0" (zeros k')
  end.

(** [f"{n:05d}"]: zero-padded to a width of at least five. *)
Definition format_05d (n : nat) : string :=
  let s := format_d n in
  (zeros (5 - String.length s) ++ s)%string.

(** [func.extract('year', JournalEntry.created_at) == current_year] *)
Definition created_in (current_year : nat) (e : JournalEntry.t) : bool :=
  Nat.eqb (year (JournalEntry.created_at e)) current_year.

Definition _generate_entry_number (db : Db) (now : datetime) : string :=
  let current_year := year now in
  let count := List.length (filter (created_in current_year) (journal_entries db)) in
  ("JE-" ++ format_d current_year ++ "-" ++ format_05d (count + 1))%string.

(** The query for an account that exists and is active. *)
Definition active_account (db : Db) (account_id : Z) : option ChartOfAccounts.t :=
  find (fun a => (ChartOfAccounts.id a =? account_id)%Z && ChartOfAccounts.is_active a)
       (chart_of_accounts db).

Definition db_line (entry_id : Z) (line_data : JournalLineCreate.t) : JournalLine.t :=
  JournalLine.mk entry_id
    (JournalLineCreate.account_id line_data)
    (JournalLineCreate.line_number line_data)
    (JournalLineCreate.description line_data)
    (JournalLineCreate.debit_amount line_data)
    (JournalLineCreate.credit_amount line_data).

(** The loop of [create_journal_entry] over [entry.journal_lines]: every line's
    account is validated, in order, and the line is added to the session. *)
Fixpoint create_lines (db : Db) (entry_id : Z) (lines : list JournalLineCreate.t)
  : result (list JournalLine.t) :=
  match lines with
  | [] => Ok []
  | line_data :: rest =>
      match active_account db (JournalLineCreate.account_id line_data) with
      | None => Raise (InvalidAccount (JournalLineCreate.account_id line_data))
      | Some _ =>
          db_lines <- create_lines db entry_id rest ;;
          Ok (db_line entry_id line_data :: db_lines)
      end
  end.

Definition get_journal_entry (db : Db) (entry_id : Z) : option JournalEntry.t :=
  lookup JournalEntry.id entry_id (journal_entries db).

(** [db.add(db_entry)] of a new row. *)
Definition add_entry (db_entry : JournalEntry.t) (db : Db) : Db :=
  mk_Db (chart_of_accounts db) (journal_entries db ++ [db_entry]).

(** The commit of a row loaded from the session and assigned to. *)
Definition save_entry (db_entry : JournalEntry.t) (db : Db) : Db :=
  mk_Db (chart_of_accounts db) (put JournalEntry.id db_entry (journal_entries db)).

Definition create_journal_entry (now : datetime) (entry : JournalEntryCreate.t)
  : session JournalEntry.t := fun db =>
  let entry_number := _generate_entry_number db now in
  let lines := JournalEntryCreate.journal_lines entry in
  let total_debits := sum (map JournalLineCreate.debit_amount lines) in
  let total_credits := sum (map JournalLineCreate.credit_amount lines) in
  let is_balanced := (total_debits =? total_credits)%Z in
  _ <- raise_if (negb is_balanced) (Unbalanced total_debits total_credits) ;;
  let entry_id := next_id (map JournalEntry.id (journal_entries db)) in
  db_lines <- create_lines db entry_id lines ;;
  let db_entry :=
    JournalEntry.mk entry_id entry_number
      (JournalEntryCreate.entry_date entry)
      (JournalEntryCreate.reference entry)
      (JournalEntryCreate.description entry)
      Draft
      (JournalEntryCreate.entry_type entry)
      total_debits total_credits is_balanced
      None None now now db_lines in
  Ok (db_entry, add_entry db_entry db).

(** The loop of [update_journal_entry] over the new lines: validation and the
    running totals [total_debits += ...], [total_credits += ...]. *)
Fixpoint update_lines (db : Db) (entry_id : Z) (lines : list JournalLineCreate.t)
  (total_debits total_credits : Decimal)
  : result (list JournalLine.t * Decimal * Decimal) :=
  match lines with
  | [] => Ok ([], total_debits, total_credits)
  | line_data :: rest =>
      match active_account db (JournalLineCreate.account_id line_data) with
      | None => Raise (InvalidAccount (JournalLineCreate.account_id line_data))
      | Some _ =>
          r <- update_lines db entry_id rest
                 (total_debits + JournalLineCreate.debit_amount line_data)
                 (total_credits + JournalLineCreate.credit_amount line_data) ;;
          let '(db_lines, d, c) := r in
          Ok (db_line entry_id line_data :: db_lines, d, c)
      end
  end.

(** The [setattr] loop over the scalar fields of [update_data]. *)
Definition update_basic_fields (entry_update : JournalEntryUpdate.t)
  (db_entry : JournalEntry.t) : JournalEntry.t :=
  set_if_set JournalEntry.set_entry_type (JournalEntryUpdate.entry_type entry_update)
  (set_if_set JournalEntry.set_description (JournalEntryUpdate.description entry_update)
  (set_if_set JournalEntry.set_reference (JournalEntryUpdate.reference entry_update)
  (set_if_set JournalEntry.set_entry_date (JournalEntryUpdate.entry_date entry_update)
     db_entry))).

Definition update_journal_entry (now : datetime) (entry_id : Z)
  (entry_update : JournalEntryUpdate.t) : session (option JournalEntry.t) := fun db =>
  match get_journal_entry db entry_id with
  | None => Ok (None, db)
  | Some db_entry =>
      _ <- raise_if (Status_eqb (JournalEntry.status db_entry) Posted) ImmutablePosted ;;
      let db_entry := update_basic_fields entry_update db_entry in
      db_entry <-
        match JournalEntryUpdate.journal_lines entry_update with
        | None => Ok db_entry
        | Some lines =>
            r <- update_lines db entry_id lines 0 0 ;;
            let '(db_lines, total_debits, total_credits) := r in
            let db_entry :=
              JournalEntry.set_is_balanced (total_debits =? total_credits)%Z
              (JournalEntry.set_total_credits total_credits
              (JournalEntry.set_total_debits total_debits
              (JournalEntry.set_journal_lines db_lines db_entry))) in
            _ <- raise_if (negb (JournalEntry.is_balanced db_entry))
                   (Unbalanced total_debits total_credits) ;;
            Ok db_entry
        end ;;
      let db_entry := JournalEntry.set_updated_at now db_entry in
      Ok (Some db_entry, save_entry db_entry db)
  end.

Definition post_journal_entry (now : datetime) (entry_id : Z) : session bool := fun db =>
  match get_journal_entry db entry_id with
  | None => Raise (NotFound entry_id)
  | Some db_entry =>
      _ <- raise_if (Status_eqb (JournalEntry.status db_entry) Posted)
             (AlreadyPosted entry_id) ;;
      _ <- raise_if (Status_eqb (JournalEntry.status db_entry) Void)
             (CannotPostVoid entry_id) ;;
      _ <- raise_if (negb (JournalEntry.is_balanced db_entry))
             (UnbalancedEntry entry_id) ;;
      let db_entry :=
        JournalEntry.set_updated_at now
        (JournalEntry.set_posted_at (Some now)
        (JournalEntry.set_status Posted db_entry)) in
      Ok (true, save_entry db_entry db)
  end.

(** [reason] is a parameter of the method; its body never reads it
    ([# TODO: Add void reason field]). *)
Definition void_journal_entry (now : datetime) (entry_id : Z) (reason : string)
  : session bool := fun db =>
  match get_journal_entry db entry_id with
  | None => Raise (NotFound entry_id)
  | Some db_entry =>
      _ <- raise_if (Status_eqb (JournalEntry.status db_entry) Posted)
             (CannotVoidPosted entry_id) ;;
      _ <- raise_if (Status_eqb (JournalEntry.status db_entry) Void)
             (AlreadyVoid entry_id) ;;
      let db_entry :=
        JournalEntry.set_updated_at now
        (JournalEntry.set_status Void db_entry) in
      Ok (true, save_entry db_entry db)
  end.

Definition reversing_line (entry_number : string) (line : JournalLine.t)
  : JournalLineCreate.t :=
  JournalLineCreate.mk
    (JournalLine.account_id line)
    (JournalLine.line_number line)
    (Some ("Reversal of " ++ entry_number)%string)
    (JournalLine.credit_amount line)
    (JournalLine.debit_amount line).

Definition create_reversing_entry (now : datetime) (entry_id : Z) (reverse_date : date)
  : session JournalEntry.t := fun db =>
  match get_journal_entry db entry_id with
  | None => Raise (NotFound entry_id)
  | Some original_entry =>
      _ <- raise_if (negb (Status_eqb (JournalEntry.status original_entry) Posted))
             (NotPosted entry_id) ;;
      let reversing_lines :=
        map (reversing_line (JournalEntry.entry_number original_entry))
            (JournalEntry.journal_lines original_entry) in
      let reversing_entry :=
        JournalEntryCreate.mk reverse_date
          (Some ("REV-" ++ JournalEntry.entry_number original_entry)%string)
          ("Reversing entry for " ++ JournalEntry.entry_number original_entry)%string
          System
          reversing_lines in
      create_journal_entry now reversing_entry db
  end.

(** [ORDER BY entry_date DESC, id DESC]: [e1] is not after [e2]. *)
Definition newest_first (e1 e2 : JournalEntry.t) : bool :=
  (JournalEntry.entry_date e2 <? JournalEntry.entry_date e1)%Z
  || ((JournalEntry.entry_date e2 =? JournalEntry.entry_date e1)%Z
      && (JournalEntry.id e2 <=? JournalEntry.id e1)%Z).

Fixpoint insert_newest_first (e : JournalEntry.t) (sorted : list JournalEntry.t)
  : list JournalEntry.t :=
  match sorted with
  | [] => [e]
  | x :: rest =>
      if newest_first e x then e :: x :: rest
      else x :: insert_newest_first e rest
  end.

Definition order_by_newest (rows : list JournalEntry.t) : list JournalEntry.t :=
  fold_right insert_newest_first [] rows.

(** [query.join(JournalLine).filter(JournalLine.account_id == account_id)]:
    one row of the entry for each of its lines on the account. *)
Definition join_lines_on (account_id : Z) (rows : list JournalEntry.t)
  : list JournalEntry.t :=
  flat_map
    (fun e => map (fun _ => e)
                  (filter (fun l => (JournalLine.account_id l =? account_id)%Z)
                          (JournalEntry.journal_lines e)))
    rows.

(** [Query.all()] of a query for the one entity [JournalEntry]: the rows
    fetched are turned into objects, one per primary key, in the order of
    first appearance. *)
Fixpoint unique_entities (seen : list Z) (rows : list JournalEntry.t)
  : list JournalEntry.t :=
  match rows with
  | [] => []
  | e :: rest =>
      if existsb (Z.eqb (JournalEntry.id e)) seen
      then unique_entities seen rest
      else e :: unique_entities (JournalEntry.id e :: seen) rest
  end.

(** The filters of [get_journal_entries], before ordering and pagination.
    A date is always true in [if start_date:]; [status] and [account_id]
    filter unless they are [None], empty or [0]. *)
Definition filtered_entries (db : Db) (start_date end_date : option date)
  (account_id : option Z) (status : option string) : list JournalEntry.t :=
  let query := journal_entries db in
  let query :=
    match start_date with
    | Some d => filter (fun e => (d <=? JournalEntry.entry_date e)%Z) query
    | None => query
    end in
  let query :=
    match end_date with
    | Some d => filter (fun e => (JournalEntry.entry_date e <=? d)%Z) query
    | None => query
    end in
  let query :=
    match truthy_str status with
    | Some s => filter (fun e => String.eqb (status_name (JournalEntry.status e)) s)
                       query
    | None => query
    end in
  match truthy account_id with
  | Some a => join_lines_on a query
  | None => query
  end.

Definition get_journal_entries (db : Db) (skip limit : nat)
  (start_date end_date : option date) (account_id : option Z)
  (status : option string) : list JournalEntry.t :=
  let query := filtered_entries db start_date end_date account_id status in
  let query := order_by_newest query in
  unique_entities [] (page skip limit query).

End JournalService.

(* ================================================================== *)
(** ** services/gl_service.py *)

Module GeneralLedgerService.

Definition get_account (db : Db) (account_id : Z) : option ChartOfAccounts.t :=
  lookup ChartOfAccounts.id account_id (chart_of_accounts db).

Definition add_account (db_account : ChartOfAccounts.t) (db : Db) : Db :=
  mk_Db (chart_of_accounts db ++ [db_account]) (journal_entries db).

Definition save_account (db_account : ChartOfAccounts.t) (db : Db) : Db :=
  mk_Db (put ChartOfAccounts.id db_account (chart_of_accounts db)) (journal_entries db).

Definition create_account (now : datetime) (account : ChartOfAccountsCreate.t)
  : session ChartOfAccounts.t := fun db =>
  let existing_account :=
    find (fun a => String.eqb (ChartOfAccounts.account_code a)
                              (ChartOfAccountsCreate.account_code account))
         (chart_of_accounts db) in
  _ <- match existing_account with
       | Some _ => Raise (DuplicateCode (ChartOfAccountsCreate.account_code account))
       | None => Ok tt
       end ;;
  _ <- match truthy (ChartOfAccountsCreate.parent_account_id account) with
       | Some p =>
           match get_account db p with
           | None => Raise (ParentNotFound p)
           | Some _ => Ok tt
           end
       | None => Ok tt
       end ;;
  let db_account :=
    ChartOfAccounts.mk
      (next_id (map ChartOfAccounts.id (chart_of_accounts db)))
      (ChartOfAccountsCreate.account_code account)
      (ChartOfAccountsCreate.account_name account)
      (ChartOfAccountsCreate.account_type account)
      (ChartOfAccountsCreate.account_category account)
      (ChartOfAccountsCreate.parent_account_id account)
      (ChartOfAccountsCreate.description account)
      (ChartOfAccountsCreate.is_active account)
      (ChartOfAccountsCreate.is_system_account account)
      (ChartOfAccountsCreate.normal_balance account)
      now now in
  Ok (db_account, add_account db_account db).

(** The [setattr] loop over [update_data]: every field that was set is
    assigned, with no check of any kind. *)
Definition update_fields (account_update : ChartOfAccountsUpdate.t)
  (db_account : ChartOfAccounts.t) : ChartOfAccounts.t :=
  set_if_set ChartOfAccounts.set_normal_balance
    (ChartOfAccountsUpdate.normal_balance account_update)
  (set_if_set ChartOfAccounts.set_is_active
    (ChartOfAccountsUpdate.is_active account_update)
  (set_if_set ChartOfAccounts.set_description
    (ChartOfAccountsUpdate.description account_update)
  (set_if_set ChartOfAccounts.set_parent_account_id
    (ChartOfAccountsUpdate.parent_account_id account_update)
  (set_if_set ChartOfAccounts.set_account_category
    (ChartOfAccountsUpdate.account_category account_update)
  (set_if_set ChartOfAccounts.set_account_type
    (ChartOfAccountsUpdate.account_type account_update)
  (set_if_set ChartOfAccounts.set_account_name
    (ChartOfAccountsUpdate.account_name account_update)
     db_account)))))).

Definition update_account (now : datetime) (account_id : Z)
  (account_update : ChartOfAccountsUpdate.t) : session (option ChartOfAccounts.t) :=
  fun db =>
  match get_account db account_id with
  | None => Ok (None, db)
  | Some db_account =>
      let db_account := update_fields account_update db_account in
      let db_account := ChartOfAccounts.set_updated_at now db_account in
      Ok (Some db_account, save_account db_account db)
  end.

Definition delete_account (now : datetime) (account_id : Z) : session bool := fun db =>
  match get_account db account_id with
  | None => Ok (false, db)
  | Some db_account =>
      let child_accounts :=
        List.length
          (filter (fun a =>
                     match ChartOfAccounts.parent_account_id a with
                     | Some p => (p =? account_id)%Z
                     | None => false
                     end && ChartOfAccounts.is_active a)
                  (chart_of_accounts db)) in
      _ <- raise_if (Nat.ltb 0 child_accounts) (HasActiveChildren child_accounts) ;;
      let db_account :=
        ChartOfAccounts.set_updated_at now
        (ChartOfAccounts.set_is_active false db_account) in
      Ok (true, save_account db_account db)
  end.

(** The dictionary [get_account_balance] returns. *)
Record AccountBalance : Type := mk_AccountBalance {
  account_id : Z;
  account_code : string;
  account_name : string;
  as_of_date : datetime;
  debit_balance : Decimal;
  credit_balance : Decimal;
  net_balance : Decimal
}.

(** The body is the placeholder of the source: the three balances are the
    literal [Decimal("0.00")]; the journal tables are not read. *)
Definition get_account_balance (db : Db) (now : datetime) (account_id : Z)
  (as_of_date : option datetime) : result AccountBalance :=
  match get_account db account_id with
  | None => Raise (AccountNotFound account_id)
  | Some account =>
      Ok (mk_AccountBalance
            account_id
            (ChartOfAccounts.account_code account)
            (ChartOfAccounts.account_name account)
            (match as_of_date with Some d => d | None => now end)
            0 0 0)
  end.

(** One dictionary of the list [get_account_hierarchy] returns. *)
#[warnings="-register-all"]
Inductive HierarchyNode : Type :=
  | mk_node (id : Z) (account_code account_name : string)
      (account_type : AccountType) (account_category : string)
      (normal_balance : NormalBalance) (children : list HierarchyNode).

Definition node_of (account : ChartOfAccounts.t) (children : list HierarchyNode)
  : HierarchyNode :=
  mk_node (ChartOfAccounts.id account)
          (ChartOfAccounts.account_code account)
          (ChartOfAccounts.account_name account)
          (ChartOfAccounts.account_type account)
          (ChartOfAccounts.account_category account)
          (ChartOfAccounts.normal_balance account)
          children.

Definition children_of (n : HierarchyNode) : list HierarchyNode :=
  match n with
  | mk_node _ _ _ _ _ _ children => children
  end.

(** [account.parent_account_id == parent_id] *)
Definition parent_is (parent_id : option Z) (account : ChartOfAccounts.t) : bool :=
  match ChartOfAccounts.parent_account_id account, parent_id with
  | Some p, Some q => (p =? q)%Z
  | None, None => true
  | _, _ => false
  end.

(** The nested function [build_hierarchy]; [fuel] bounds the depth of the
    recursion, which Python does not bound. *)
Fixpoint build_hierarchy (fuel : nat) (account_list : list ChartOfAccounts.t)
  (parent_id : option Z) : list HierarchyNode :=
  match fuel with
  | O => []
  | S fuel' =>
      map (fun account =>
             node_of account
               (build_hierarchy fuel' account_list
                                (Some (ChartOfAccounts.id account))))
          (filter (parent_is parent_id) account_list)
  end.

Section Ordered.

(** [query.order_by(ChartOfAccounts.account_code)]: the order of strings is
    the collation of the database. *)
Variable order_by_account_code : list ChartOfAccounts.t -> list ChartOfAccounts.t.

(** The filters of [get_accounts]: [if account_type:] and
    [if active is not None:]. *)
Definition filtered_accounts (db : Db) (account_type : option string)
  (active : option bool) : list ChartOfAccounts.t :=
  let query := chart_of_accounts db in
  let query :=
    match truthy_str account_type with
    | Some t =>
        filter (fun a => String.eqb (account_type_name (ChartOfAccounts.account_type a)) t)
               query
    | None => query
    end in
  match active with
  | Some b => filter (fun a => Bool.eqb (ChartOfAccounts.is_active a) b) query
  | None => query
  end.

Definition get_accounts (db : Db) (skip limit : nat) (account_type : option string)
  (active : option bool) : list ChartOfAccounts.t :=
  page skip limit (order_by_account_code (filtered_accounts db account_type active)).

(** The account list [get_account_hierarchy] builds the tree from. *)
Definition hierarchy_accounts (db : Db) (account_id : option Z)
  : list ChartOfAccounts.t :=
  match truthy account_id with
  | Some k =>
      order_by_account_code
        (filter (fun a => ((ChartOfAccounts.id a =? k)%Z
                           || parent_is (Some k) a)
                          && ChartOfAccounts.is_active a)
                (chart_of_accounts db))
  | None =>
      order_by_account_code
        (filter (fun a => parent_is None a && ChartOfAccounts.is_active a)
                (chart_of_accounts db))
  end.

Definition get_account_hierarchy (fuel : nat) (db : Db) (account_id : option Z)
  : list HierarchyNode :=
  build_hierarchy fuel (hierarchy_accounts db account_id) None.

End Ordered.

End GeneralLedgerService.

(* ================================================================== *)
(** ** services/ar_service.py: the aging report *)

(** Modelled from the spec: the [Invoice] row.  [models/invoices.py] is not
    part of the source tree; these are the columns [generate_aging_report]
    reads, with the types of the spec's invoice-like records
    [{id, due_date, total_amount, paid_amount}]. *)
Module Invoice.
Record t : Type := mk {
  id : Z;
  customer_id : Z;
  status : string;
  due_date : date;
  total_amount : Decimal;
  paid_amount : Decimal
}.
End Invoice.

Module AccountsReceivableService.

Inductive Bucket : Type :=
  | current
  | days_1_30
  | days_31_60
  | days_61_90
  | over_90_days.

(** One value of the [aging_buckets] dictionary. *)
Record BucketTotal : Type := mk_BucketTotal {
  amount : Decimal;
  count : nat
}.

(** The [aging_buckets] dictionary: its five keys are fixed. *)
Record AgingBuckets : Type := mk_AgingBuckets {
  b_current : BucketTotal;
  b_1_30_days : BucketTotal;
  b_31_60_days : BucketTotal;
  b_61_90_days : BucketTotal;
  b_over_90_days : BucketTotal
}.

Definition get_bucket (b : Bucket) (d : AgingBuckets) : BucketTotal :=
  match b with
  | current => b_current d
  | days_1_30 => b_1_30_days d
  | days_31_60 => b_31_60_days d
  | days_61_90 => b_61_90_days d
  | over_90_days => b_over_90_days d
  end.

(** [aging_buckets[bucket]["amount"] += x; aging_buckets[bucket]["count"] += 1] *)
Definition bump (x : Decimal) (t : BucketTotal) : BucketTotal :=
  mk_BucketTotal (amount t + x) (S (count t)).

Definition add_to_bucket (b : Bucket) (x : Decimal) (d : AgingBuckets) : AgingBuckets :=
  match b with
  | current =>
      mk_AgingBuckets (bump x (b_current d)) (b_1_30_days d) (b_31_60_days d)
                      (b_61_90_days d) (b_over_90_days d)
  | days_1_30 =>
      mk_AgingBuckets (b_current d) (bump x (b_1_30_days d)) (b_31_60_days d)
                      (b_61_90_days d) (b_over_90_days d)
  | days_31_60 =>
      mk_AgingBuckets (b_current d) (b_1_30_days d) (bump x (b_31_60_days d))
                      (b_61_90_days d) (b_over_90_days d)
  | days_61_90 =>
      mk_AgingBuckets (b_current d) (b_1_30_days d) (b_31_60_days d)
                      (bump x (b_61_90_days d)) (b_over_90_days d)
  | over_90_days =>
      mk_AgingBuckets (b_current d) (b_1_30_days d) (b_31_60_days d)
                      (b_61_90_days d) (bump x (b_over_90_days d))
  end.

(** The [if]/[elif] chain on [days_overdue]. *)
Definition bucket_of_days (days_overdue : Z) : Bucket :=
  if (days_overdue <=? 0)%Z then current
  else if (days_overdue <=? 30)%Z then days_1_30
  else if (days_overdue <=? 60)%Z then days_31_60
  else if (days_overdue <=? 90)%Z then days_61_90
  else over_90_days.

(** The query: invoices that are sent, due on or before [as_of_date] and not
    fully paid; [if customer_id:] adds the customer filter unless the argument
    is [None] or [0]. *)
Definition unpaid_invoices (invoices : list Invoice.t) (as_of_date : date)
  (customer_id : option Z) : list Invoice.t :=
  let query :=
    filter (fun i => String.eqb (Invoice.status i) "Sent"
                     && (Invoice.due_date i <=? as_of_date)%Z
                     && (Invoice.paid_amount i <? Invoice.total_amount i)%Z)
           invoices in
  match truthy customer_id with
  | Some c => filter (fun i => (Invoice.customer_id i =? c)%Z) query
  | None => query
  end.

Record AgingReport : Type := mk_AgingReport {
  as_of_date : date;
  customer_id : option Z;
  aging_buckets : AgingBuckets;
  total_outstanding : Decimal;
  total_invoices : nat
}.

Definition empty_buckets : AgingBuckets :=
  let z := mk_BucketTotal 0 0 in mk_AgingBuckets z z z z z.

(** One iteration of the loop over the selected invoices. *)
Definition age_invoice (as_of_date : date) (acc : AgingBuckets * Decimal)
  (invoice : Invoice.t) : AgingBuckets * Decimal :=
  let '(aging_buckets, total_outstanding) := acc in
  let outstanding_amount := Invoice.total_amount invoice - Invoice.paid_amount invoice in
  let days_overdue := as_of_date - Invoice.due_date invoice in
  let bucket := bucket_of_days days_overdue in
  (add_to_bucket bucket outstanding_amount aging_buckets,
   total_outstanding + outstanding_amount).

Definition generate_aging_report (invoices : list Invoice.t) (as_of_date : date)
  (customer_id : option Z) : AgingReport :=
  let selected := unpaid_invoices invoices as_of_date customer_id in
  let '(aging_buckets, total_outstanding) :=
    fold_left (age_invoice as_of_date) selected (empty_buckets, 0) in
  mk_AgingReport as_of_date customer_id aging_buckets total_outstanding
                 (List.length selected).

End AccountsReceivableService.

(* ================================================================== *)
(** ** Runs of the services *)

(** One call of a service method, as an endpoint of the ledger makes it: each
    call has its own session and its own reading of the clock. *)
Inductive Call : Type :=
  | CreateAccount (now : datetime) (account : ChartOfAccountsCreate.t)
  | UpdateAccount (now : datetime) (account_id : Z) (account_update : ChartOfAccountsUpdate.t)
  | DeleteAccount (now : datetime) (account_id : Z)
  | CreateEntry (now : datetime) (entry : JournalEntryCreate.t)
  | UpdateEntry (now : datetime) (entry_id : Z) (entry_update : JournalEntryUpdate.t)
  | PostEntry (now : datetime) (entry_id : Z)
  | VoidEntry (now : datetime) (entry_id : Z) (reason : string)
  | ReverseEntry (now : datetime) (entry_id : Z) (reverse_date : date).

(** The database a call leaves behind: its commit, or the rollback. *)
Definition call (db : Db) (c : Call) : Db :=
  match c with
  | CreateAccount now account =>
      committed (GeneralLedgerService.create_account now account db) db
  | UpdateAccount now account_id account_update =>
      committed (GeneralLedgerService.update_account now account_id account_update db) db
  | DeleteAccount now account_id =>
      committed (GeneralLedgerService.delete_account now account_id db) db
  | CreateEntry now entry =>
      committed (JournalService.create_journal_entry now entry db) db
  | UpdateEntry now entry_id entry_update =>
      committed (JournalService.update_journal_entry now entry_id entry_update db) db
  | PostEntry now entry_id =>
      committed (JournalService.post_journal_entry now entry_id db) db
  | VoidEntry now entry_id reason =>
      committed (JournalService.void_journal_entry now entry_id reason db) db
  | ReverseEntry now entry_id reverse_date =>
      committed (JournalService.create_reversing_entry now entry_id reverse_date db) db
  end.

(** The database after a sequence of calls, one after the other. *)
Definition run (db : Db) (calls : list Call) : Db := fold_left call calls db.

(** Every database a sequence of calls goes through, the first one included. *)
Fixpoint states (db : Db) (calls : list Call) : list Db :=
  match calls with
  | [] => [db]
  | c :: rest => db :: states (call db c) rest
  end.

(** The status of an entry in a database, if the entry is there. *)
Definition status_in (entry_id : Z) (db : Db) : list Status :=
  match JournalService.get_journal_entry db entry_id with
  | Some e => [JournalEntry.status e]
  | None => []
  end.

(** The statuses of an entry observed over a sequence of calls. *)
Definition status_history (entry_id : Z) (db : Db) (calls : list Call) : list Status :=
  flat_map (status_in entry_id) (states db calls).

(** A sequence of observations without its immediate repetitions. *)
Fixpoint changes (l : list Status) : list Status :=
  match l with
  | [] => []
  | s :: rest =>
      match rest with
      | [] => [s]
      | s' :: _ => if Status_eqb s s' then changes rest else s :: changes rest
      end
  end.

(* ================================================================== *)
(** ** Notions of the specification *)

Import JournalService.

(** An account a journal line may reference: it exists and is active. *)
Definition usable_account (db : Db) (account_id : Z) : Prop :=
  exists a, In a (chart_of_accounts db)
            /\ ChartOfAccounts.id a = account_id
            /\ ChartOfAccounts.is_active a = true.

(** The numeric suffix of an entry number: the digits after its last hyphen. *)
Fixpoint after_last_hyphen (acc s : string) : string :=
  match s with
  | EmptyString => acc
  | String c rest =>
      if Ascii.eqb c "-" then after_last_hyphen EmptyString rest
      else after_last_hyphen (acc ++ String c EmptyString)%string rest
  end.

Definition numeric_suffix (entry_number : string) : nat :=
  match NilEmpty.uint_of_string (after_last_hyphen EmptyString entry_number) with
  | Some d => Nat.of_uint d
  | None => O
  end.

(** The entry number with sequence number [k] in year [y]. *)
Definition entry_number_of (y k : nat) : string :=
  ("JE-" ++ format_d y ++ "-" ++ format_05d k)%string.

Fixpoint hyphen_free (s : string) : bool :=
  match s with
  | EmptyString => true
  | String c rest => negb (Ascii.eqb c "-") && hyphen_free rest
  end.

(** The entries of the journal table created in a year, in table order. *)
Definition created_during (y : nat) (db : Db) : list JournalEntry.t :=
  filter (created_in y) (journal_entries db).

(** The numbering of a journal table: primary keys grow along the table, and
    the entries created in any one year carry the numbers 1, 2, 3, ... of
    that year, in table order. *)
Definition numbered (db : Db) : Prop :=
  StronglySorted Z.lt (map JournalEntry.id (journal_entries db))
  /\ forall y,
       map JournalEntry.entry_number (created_during y db)
       = map (entry_number_of y) (seq 1 (List.length (created_during y db))).

(** The lines the spec's [accountBalance] sums: those of posted entries dated
    on or before [as_of_date] (any date when it is omitted) that reference the
    account. *)
Definition posted_lines (db : Db) (account_id : Z) (as_of_date : option date)
  : list JournalLine.t :=
  flat_map
    (fun e =>
       if Status_eqb (JournalEntry.status e) Posted
          && match as_of_date with
             | Some d => (JournalEntry.entry_date e <=? d)%Z
             | None => true
             end
       then filter (fun l => (JournalLine.account_id l =? account_id)%Z)
                   (JournalEntry.journal_lines e)
       else [])
    (journal_entries db).

Definition spec_debit_balance (db : Db) (account_id : Z) (as_of_date : option date)
  : Decimal :=
  sum (map JournalLine.debit_amount (posted_lines db account_id as_of_date)).

Definition spec_credit_balance (db : Db) (account_id : Z) (as_of_date : option date)
  : Decimal :=
  sum (map JournalLine.credit_amount (posted_lines db account_id as_of_date)).

(** The ranges of days overdue the spec gives the aging buckets. *)
Definition bucket_range (b : AccountsReceivableService.Bucket) (days_overdue : Z) : bool :=
  match b with
  | AccountsReceivableService.current => (days_overdue <=? 0)%Z
  | AccountsReceivableService.days_1_30 => (1 <=? days_overdue)%Z && (days_overdue <=? 30)%Z
  | AccountsReceivableService.days_31_60 => (31 <=? days_overdue)%Z && (days_overdue <=? 60)%Z
  | AccountsReceivableService.days_61_90 => (61 <=? days_overdue)%Z && (days_overdue <=? 90)%Z
  | AccountsReceivableService.over_90_days => (91 <=? days_overdue)%Z
  end.

(** An open item: sent and not fully paid. *)
Definition open_item (i : Invoice.t) : bool :=
  String.eqb (Invoice.status i) "Sent"
  && (Invoice.paid_amount i <? Invoice.total_amount i)%Z.

Definition outstanding (i : Invoice.t) : Decimal :=
  Invoice.total_amount i - Invoice.paid_amount i.

(** The row before and after a call differ at most in the columns [status],
    [posted_at] and [updated_at]. *)
Definition same_content (e e' : JournalEntry.t) : Prop :=
  JournalEntry.id e' = JournalEntry.id e
  /\ JournalEntry.entry_number e' = JournalEntry.entry_number e
  /\ JournalEntry.entry_date e' = JournalEntry.entry_date e
  /\ JournalEntry.reference e' = JournalEntry.reference e
  /\ JournalEntry.description e' = JournalEntry.description e
  /\ JournalEntry.entry_type e' = JournalEntry.entry_type e
  /\ JournalEntry.total_debits e' = JournalEntry.total_debits e
  /\ JournalEntry.total_credits e' = JournalEntry.total_credits e
  /\ JournalEntry.is_balanced e' = JournalEntry.is_balanced e
  /\ JournalEntry.posted_by e' = JournalEntry.posted_by e
  /\ JournalEntry.created_at e' = JournalEntry.created_at e
  /\ JournalEntry.journal_lines e' = JournalEntry.journal_lines e.

(** The value of a column after an update that may have left it unset. *)
Definition supplied {A : Type} (v : option A) (old : A) : A :=
  match v with
  | Some x => x
  | None => old
  end.

(** What [update_journal_entry] does to the scalar columns of an entry: the
    supplied ones are assigned, the others, the entry number, the status and
    the posting stamps among them, keep their value. *)
Definition scalars_updated (entry_update : JournalEntryUpdate.t)
  (e e' : JournalEntry.t) : Prop :=
  JournalEntry.id e' = JournalEntry.id e
  /\ JournalEntry.entry_number e' = JournalEntry.entry_number e
  /\ JournalEntry.status e' = JournalEntry.status e
  /\ JournalEntry.posted_at e' = JournalEntry.posted_at e
  /\ JournalEntry.posted_by e' = JournalEntry.posted_by e
  /\ JournalEntry.created_at e' = JournalEntry.created_at e
  /\ JournalEntry.entry_date e'
     = supplied (JournalEntryUpdate.entry_date entry_update) (JournalEntry.entry_date e)
  /\ JournalEntry.reference e'
     = supplied (JournalEntryUpdate.reference entry_update) (JournalEntry.reference e)
  /\ JournalEntry.description e'
     = supplied (JournalEntryUpdate.description entry_update) (JournalEntry.description e)
  /\ JournalEntry.entry_type e'
     = supplied (JournalEntryUpdate.entry_type entry_update) (JournalEntry.entry_type e).

(** A reversing line: same account, the two amounts exchanged. *)
Definition reverses (l : JournalLine.t) (l' : JournalLine.t) : Prop :=
  JournalLine.account_id l' = JournalLine.account_id l
  /\ JournalLine.line_number l' = JournalLine.line_number l
  /\ JournalLine.debit_amount l' = JournalLine.credit_amount l
  /\ JournalLine.credit_amount l' = JournalLine.debit_amount l.

(** One move of the entry lifecycle: the status stays, or a draft becomes
    posted, or a draft becomes void. *)
Definition lifecycle_step (s s' : Status) : Prop :=
  s' = s \/ (s = Draft /\ s' = Posted) \/ (s = Draft /\ s' = Void).

(** A sequence of statuses that can be observed after status [s]. *)
Inductive follows : Status -> list Status -> Prop :=
  | follows_nil (s : Status) : follows s []
  | follows_cons (s s' : Status) (l : list Status) :
      lifecycle_step s s' -> follows s' l -> follows s (s' :: l).

(** The open items an aging report as of [as_of_date] covers: those due on or
    before that date, of the customer asked for if one is. *)
Definition aged_items (invoices : list Invoice.t) (as_of_date : date)
  (customer_id : option Z) : list Invoice.t :=
  filter (fun i => open_item i
                   && (Invoice.due_date i <=? as_of_date)%Z
                   && match truthy customer_id with
                      | Some c => (Invoice.customer_id i =? c)%Z
                      | None => true
                      end)
         invoices.

(** The items of a list that fall into a bucket. *)
Definition in_bucket (b : AccountsReceivableService.Bucket) (as_of_date : date)
  (items : list Invoice.t) : list Invoice.t :=
  filter (fun i => bucket_range b (as_of_date - Invoice.due_date i)) items.

(** The lines of an entry balance. *)
Definition balanced_lines (e : JournalEntry.t) : Prop :=
  sum (map JournalLine.debit_amount (JournalEntry.journal_lines e))
  = sum (map JournalLine.credit_amount (JournalEntry.journal_lines e)).

(** Every entry of the journal table has lines that balance. *)
Definition balanced_ledger (db : Db) : Prop :=
  forall e, In e (journal_entries db) -> balanced_lines e.

(** The parent of an account, read from the chart. *)
Definition parent_of (db : Db) (account_id : Z) : option Z :=
  match GeneralLedgerService.get_account db account_id with
  | Some a => ChartOfAccounts.parent_account_id a
  | None => None
  end.

(** Following parent links for at most [fuel] steps from [account_id] comes
    back to [target]. *)
Fixpoint reaches (db : Db) (fuel : nat) (account_id target : Z) : bool :=
  match fuel with
  | O => false
  | S fuel' =>
      match parent_of db account_id with
      | Some p => (p =? target)%Z || reaches db fuel' p target
      | None => false
      end
  end.

(** An account is on a cycle of the parent graph. *)
Definition on_cycle (db : Db) (account_id : Z) : bool :=
  reaches db (List.length (chart_of_accounts db)) account_id account_id.

(** The books of an entry agree: the stored totals are the sums of its lines,
    the two totals are equal, and [is_balanced] says so. *)
Definition books_agree (e : JournalEntry.t) : Prop :=
  JournalEntry.total_debits e
  = sum (map JournalLine.debit_amount (JournalEntry.journal_lines e))
  /\ JournalEntry.total_credits e
     = sum (map JournalLine.credit_amount (JournalEntry.journal_lines e))
  /\ JournalEntry.total_debits e = JournalEntry.total_credits e
  /\ JournalEntry.is_balanced e = true.

(** Debits less credits of the lines on one account. *)
Definition net_of_lines (account_id : Z) (lines : list JournalLine.t) : Decimal :=
  let on_account :=
    filter (fun l => (JournalLine.account_id l =? account_id)%Z) lines in
  sum (map JournalLine.debit_amount on_account)
  - sum (map JournalLine.credit_amount on_account).

(** Debits less credits of the posted lines of the ledger on one account. *)
Definition posted_net (db : Db) (account_id : Z) (as_of_date : option date)
  : Decimal :=
  spec_debit_balance db account_id as_of_date
  - spec_credit_balance db account_id as_of_date.

(** [e1] is listed before [e2] in the order newest first: a later entry date,
    or the same date and an id that is not smaller. *)
Definition listed_before (e1 e2 : JournalEntry.t) : Prop :=
  (JournalEntry.entry_date e2 < JournalEntry.entry_date e1)%Z
  \/ (JournalEntry.entry_date e2 = JournalEntry.entry_date e1
      /\ (JournalEntry.id e2 <= JournalEntry.id e1)%Z).

(** An entry passes the filters of a listing. *)
Definition passes_filters (start_date end_date : option date)
  (account_id : option Z) (status : option string) (e : JournalEntry.t) : Prop :=
  (forall d, start_date = Some d -> (d <= JournalEntry.entry_date e)%Z)
  /\ (forall d, end_date = Some d -> (JournalEntry.entry_date e <= d)%Z)
  /\ (forall s, truthy_str status = Some s
                -> status_name (JournalEntry.status e) = s)
  /\ (forall a, truthy account_id = Some a
                -> exists l, In l (JournalEntry.journal_lines e)
                             /\ JournalLine.account_id l = a).

(** The sums over the five buckets of an aging report. *)
Definition buckets_amount (d : AccountsReceivableService.AgingBuckets) : Decimal :=
  AccountsReceivableService.amount (AccountsReceivableService.b_current d)
  + AccountsReceivableService.amount (AccountsReceivableService.b_1_30_days d)
  + AccountsReceivableService.amount (AccountsReceivableService.b_31_60_days d)
  + AccountsReceivableService.amount (AccountsReceivableService.b_61_90_days d)
  + AccountsReceivableService.amount (AccountsReceivableService.b_over_90_days d).

Definition buckets_count (d : AccountsReceivableService.AgingBuckets) : nat :=
  (AccountsReceivableService.count (AccountsReceivableService.b_current d)
   + AccountsReceivableService.count (AccountsReceivableService.b_1_30_days d)
   + AccountsReceivableService.count (AccountsReceivableService.b_31_60_days d)
   + AccountsReceivableService.count (AccountsReceivableService.b_61_90_days d)
   + AccountsReceivableService.count (AccountsReceivableService.b_over_90_days d))%nat.

(** A node of the hierarchy without children. *)
Definition leaf (account : ChartOfAccounts.t) : GeneralLedgerService.HierarchyNode :=
  GeneralLedgerService.node_of account [].

(** The chart is keyed: primary keys grow along the table and no two accounts
    share an account code. *)
Definition keyed_chart (db : Db) : Prop :=
  StronglySorted Z.lt (map ChartOfAccounts.id (chart_of_accounts db))
  /\ NoDup (map ChartOfAccounts.account_code (chart_of_accounts db)).

(** The active accounts whose parent is [account_id]. *)
Definition active_children (db : Db) (account_id : Z) : list ChartOfAccounts.t :=
  filter (fun a =>
            match ChartOfAccounts.parent_account_id a with
            | Some p => (p =? account_id)%Z
            | None => false
            end && ChartOfAccounts.is_active a)
         (chart_of_accounts db).

(** Some account of the chart, active or not, has the account code. *)
Definition code_taken (db : Db) (account_code : string) : Prop :=
  exists a, In a (chart_of_accounts db) /\ ChartOfAccounts.account_code a = account_code.

(** All the lines of posted entries dated on or before [as_of_date] (any date
    when it is omitted). *)
Definition all_posted_lines (db : Db) (as_of_date : option date) : list JournalLine.t :=
  flat_map
    (fun e =>
       if Status_eqb (JournalEntry.status e) Posted
          && match as_of_date with
             | Some d => (JournalEntry.entry_date e <=? d)%Z
             | None => true
             end
       then JournalEntry.journal_lines e
       else [])
    (journal_entries db).

(* ================================================================== *)
(** ** Sample data *)

Module Sample.

Definition t0 : datetime := mk_datetime 2024 1 15 9 30 0 0.
Definition t1 : datetime := mk_datetime 2024 1 16 10 0 0 0.
Definition t2 : datetime := mk_datetime 2025 2 1 8 0 0 0.

(** 2024-01-01 and 2024-01-31 *)
Definition jan_1 : date := 738886.
Definition jan_31 : date := 738916.

Definition cash : ChartOfAccountsCreate.t :=
  ChartOfAccountsCreate.mk "1000" "Cash" Asset "Current Assets" None None
                           true false DebitNormal.

Definition sales : ChartOfAccountsCreate.t :=
  ChartOfAccountsCreate.mk "4000" "Sales" Revenue "Operating Revenue" None None
                           true false CreditNormal.

(** debit 1000/Cash 150.00, credit 4000/Sales 150.00 *)
Definition sale_lines : list JournalLineCreate.t :=
  [ JournalLineCreate.mk 1 1 (Some "cash received") 15000 0;
    JournalLineCreate.mk 2 2 (Some "sale") 0 15000 ].

Definition sale : JournalEntryCreate.t :=
  JournalEntryCreate.mk jan_1 (Some "INV-1") "Cash sale" Manual sale_lines.

(** debit 100.00 against credit 90.00 *)
Definition lopsided : JournalEntryCreate.t :=
  JournalEntryCreate.mk jan_1 None "Lopsided" Manual
    [ JournalLineCreate.mk 1 1 None 10000 0;
      JournalLineCreate.mk 2 2 None 0 9000 ].

(** a balanced entry on an account that does not exist *)
Definition stray : JournalEntryCreate.t :=
  JournalEntryCreate.mk jan_1 None "Stray" Manual
    [ JournalLineCreate.mk 1 1 None 500 0;
      JournalLineCreate.mk 7 2 None 0 500 ].

(** The calls that build the sample ledgers, from the empty one. *)
Definition accounts_calls : list Call :=
  [CreateAccount t0 cash; CreateAccount t0 sales].

Definition draft_calls : list Call := accounts_calls ++ [CreateEntry t0 sale].

Definition posted_calls : list Call := draft_calls ++ [PostEntry t1 1].

Definition void_calls : list Call := draft_calls ++ [VoidEntry t1 1 "entered twice"].

(** the sale is posted, then the cash account is deactivated *)
Definition cash_closed_calls : list Call := posted_calls ++ [DeleteAccount t1 1].

Definition db_accounts : Db := run empty_db accounts_calls.

Definition db_draft : Db := run empty_db draft_calls.

Definition db_posted : Db := run empty_db posted_calls.

Definition db_void : Db := run empty_db void_calls.

Definition db_cash_closed : Db := run empty_db cash_closed_calls.

(** a correction of the voided sale: new date, new lines *)
Definition correction : JournalEntryUpdate.t :=
  JournalEntryUpdate.mk (Some jan_31) None (Some "Cash sale, corrected") None
    (Some [ JournalLineCreate.mk 1 1 None 20000 0;
            JournalLineCreate.mk 2 2 None 0 20000 ]).

(** only the parent of an account is set *)
Definition reparent (p : Z) : ChartOfAccountsUpdate.t :=
  ChartOfAccountsUpdate.mk None None None (Some (Some p)) None None None.

(** a sub-account of cash *)
Definition petty_cash : ChartOfAccountsCreate.t :=
  ChartOfAccountsCreate.mk "1010" "Petty cash" Asset "Current Assets" (Some 1) None
                           true false DebitNormal.

Definition db_tree : Db :=
  run empty_db (accounts_calls ++ [CreateAccount t0 petty_cash]).

(** invoices on 2024-01-31: due the next day, due that day, 31 days late *)
Definition inv_not_due : Invoice.t := Invoice.mk 1 5 "Sent" (jan_31 + 1) 10000 0.
Definition inv_due_today : Invoice.t := Invoice.mk 2 5 "Sent" jan_31 7000 2000.
Definition inv_late : Invoice.t := Invoice.mk 3 6 "Sent" (jan_31 - 31) 4000 1000.

End Sample.

(* ================================================================== *)
(** * Properties *)

(** ** Tables: lookup after an insert or a saved row *)

Lemma next_id_above (ids : list Z) (i : Z) : In i ids -> (i < next_id ids)%Z.
Proof.
  unfold next_id. induction ids as [|j ids IH]; cbn [fold_right In]; [tauto|].
  intros [-> | Hin]; [lia|]. specialize (IH Hin). lia.
Qed.

Section Tables.

Context {R : Type} (key : R -> Z).

Lemma find_app_last (p : R -> bool) (rows : list R) (r : R) :
  find p (rows ++ [r]) =
  match find p rows with
  | Some x => Some x
  | None => if p r then Some r else None
  end.
Proof.
  induction rows as [|x rows IH]; simpl.
  - reflexivity.
  - destruct (p x); [reflexivity | exact IH].
Qed.

Lemma find_all_false (p : R -> bool) (rows : list R) :
  (forall r, In r rows -> p r = false) -> find p rows = None.
Proof.
  induction rows as [|x rows IH]; simpl; intros H; [reflexivity|].
  rewrite (H x (or_introl eq_refl)). apply IH. intros r Hr. apply H. now right.
Qed.

Lemma lookup_app_last (k : Z) (rows : list R) (r : R) :
  lookup key k (rows ++ [r]) =
  match lookup key k rows with
  | Some x => Some x
  | None => if (key r =? k)%Z then Some r else None
  end.
Proof. unfold lookup. apply find_app_last. Qed.

Lemma lookup_next_id (rows : list R) :
  lookup key (next_id (map key rows)) rows = None.
Proof.
  apply find_all_false. intros r Hr.
  apply Z.eqb_neq. pose proof (next_id_above (map key rows) (key r) (in_map key _ _ Hr)).
  lia.
Qed.

Lemma lookup_put_same (r r' : R) (rows : list R) :
  lookup key (key r') rows = Some r ->
  lookup key (key r') (put key r' rows) = Some r'.
Proof.
  unfold lookup, put. induction rows as [|x rows IH]; simpl; [discriminate|].
  destruct (key x =? key r')%Z eqn:E.
  - intros _. now rewrite Z.eqb_refl.
  - rewrite E. exact IH.
Qed.

Lemma lookup_put_other (k : Z) (r' : R) (rows : list R) :
  k <> key r' ->
  lookup key k (put key r' rows) = lookup key k rows.
Proof.
  intros Hk. unfold lookup, put.
  induction rows as [|x rows IH]; simpl; [reflexivity|].
  destruct (key x =? key r')%Z eqn:E.
  - apply Z.eqb_eq in E.
    destruct (Z.eqb_spec (key r') k); [congruence|].
    destruct (Z.eqb_spec (key x) k); [congruence | exact IH].
  - destruct (key x =? k)%Z; [reflexivity | exact IH].
Qed.

Lemma lookup_some (k : Z) (r : R) (rows : list R) :
  lookup key k rows = Some r -> key r = k /\ In r rows.
Proof.
  intros H. apply find_some in H. destruct H as [Hin Hk].
  split; [now apply Z.eqb_eq | exact Hin].
Qed.

Lemma put_keys (r' : R) (rows : list R) :
  map key (put key r' rows) = map key rows.
Proof.
  unfold put. rewrite map_map. apply map_ext. intros r.
  destruct (Z.eqb_spec (key r) (key r')); congruence.
Qed.

Lemma in_put (r r' : R) (rows : list R) :
  In r (put key r' rows) -> r = r' \/ In r rows.
Proof.
  unfold put. intros H. apply in_map_iff in H. destruct H as (x & Hx & Hin).
  destruct (key x =? key r')%Z; subst; auto.
Qed.

End Tables.

(** ** Sums *)

Lemma fold_add_shift (l : list Z) (a : Z) :
  fold_left Z.add l a = (a + fold_left Z.add l 0)%Z.
Proof.
  revert a. induction l as [|x l IH]; intros a; cbn [fold_left].
  - lia.
  - rewrite (IH (a + x)%Z), (IH (0 + x)%Z). lia.
Qed.

Lemma sum_cons (x : Z) (l : list Z) : sum (x :: l) = (x + sum l)%Z.
Proof. unfold sum. simpl. apply fold_add_shift. Qed.

Lemma sum_nil : sum [] = 0%Z.
Proof. reflexivity. Qed.

(** ** Account validation of the lines *)

Lemma active_account_usable (db : Db) (a : Z) :
  (exists acc, active_account db a = Some acc) <-> usable_account db a.
Proof.
  unfold active_account, usable_account. split.
  - intros [acc H]. apply find_some in H. destruct H as [Hin Hp].
    apply andb_true_iff in Hp. destruct Hp as [Hid Hact].
    exists acc. repeat split; [exact Hin | now apply Z.eqb_eq | exact Hact].
  - intros [acc (Hin & Hid & Hact)].
    destruct (find _ (chart_of_accounts db)) as [x|] eqn:E; [now exists x|].
    exfalso. pose proof (find_none _ _ E acc Hin) as Hn. simpl in Hn.
    rewrite Hact, andb_true_r in Hn. apply Z.eqb_neq in Hn. contradiction.
Qed.

Lemma active_account_unusable (db : Db) (a : Z) :
  active_account db a = None <-> ~ usable_account db a.
Proof.
  rewrite <- active_account_usable. split.
  - intros H [acc Hacc]. congruence.
  - intros H. destruct (active_account db a) as [acc|]; [|reflexivity].
    exfalso. apply H. now exists acc.
Qed.

Lemma create_lines_ok (db : Db) (entry_id : Z) (lines : list JournalLineCreate.t) :
  (forall l, In l lines -> usable_account db (JournalLineCreate.account_id l)) ->
  create_lines db entry_id lines = Ok (map (db_line entry_id) lines).
Proof.
  induction lines as [|l lines IH]; simpl; intros H; [reflexivity|].
  destruct (proj2 (active_account_usable db _) (H l (or_introl eq_refl))) as [acc ->].
  rewrite IH; [reflexivity|]. intros l' Hl'. apply H. now right.
Qed.

Lemma create_lines_raise (db : Db) (entry_id : Z) (lines : list JournalLineCreate.t) :
  (exists l, In l lines /\ ~ usable_account db (JournalLineCreate.account_id l)) ->
  exists a, create_lines db entry_id lines = Raise (InvalidAccount a)
            /\ In a (map JournalLineCreate.account_id lines)
            /\ ~ usable_account db a.
Proof.
  induction lines as [|l lines IH]; simpl; intros [bad [Hin Hbad]]; [contradiction|].
  destruct (active_account db (JournalLineCreate.account_id l)) as [acc|] eqn:E.
  - destruct Hin as [-> | Hin].
    + exfalso. apply Hbad. apply active_account_usable. now exists acc.
    + destruct IH as [a (Hr & Ha & Hu)]; [now exists bad|].
      exists a. rewrite Hr. simpl. auto.
  - exists (JournalLineCreate.account_id l). split; [reflexivity|].
    split; [now left | now apply active_account_unusable].
Qed.

Lemma create_lines_inv (db : Db) (entry_id : Z) (lines : list JournalLineCreate.t)
  (db_lines : list JournalLine.t) :
  create_lines db entry_id lines = Ok db_lines ->
  db_lines = map (db_line entry_id) lines
  /\ forall l, In l lines -> usable_account db (JournalLineCreate.account_id l).
Proof.
  revert db_lines. induction lines as [|l lines IH]; simpl; intros db_lines H.
  - inversion H. split; [reflexivity | intros l []].
  - destruct (active_account db (JournalLineCreate.account_id l)) as [acc|] eqn:E;
      [|discriminate].
    destruct (create_lines db entry_id lines) as [rest|] eqn:E'; simpl in H;
      [|discriminate].
    inversion H. destruct (IH rest eq_refl) as [-> Hall].
    split; [reflexivity|]. intros l' [<- | Hl']; [|now apply Hall].
    apply active_account_usable. now exists acc.
Qed.

(** ** Lookup of journal entries after a write *)

Lemma get_add_entry_old (db : Db) (e new : JournalEntry.t) (entry_id : Z) :
  get_journal_entry db entry_id = Some e ->
  get_journal_entry (add_entry new db) entry_id = Some e.
Proof.
  unfold get_journal_entry, add_entry. simpl. intros H.
  now rewrite lookup_app_last, H.
Qed.

Lemma get_add_entry_new (db : Db) (new : JournalEntry.t) :
  JournalEntry.id new = next_id (map JournalEntry.id (journal_entries db)) ->
  get_journal_entry (add_entry new db) (JournalEntry.id new) = Some new.
Proof.
  unfold get_journal_entry, add_entry. simpl. intros H.
  rewrite lookup_app_last, H, lookup_next_id.
  now rewrite Z.eqb_refl.
Qed.

Lemma get_add_entry_none (db : Db) (new : JournalEntry.t) (entry_id : Z) :
  get_journal_entry db entry_id = None ->
  get_journal_entry (add_entry new db) entry_id =
  if (JournalEntry.id new =? entry_id)%Z then Some new else None.
Proof.
  unfold get_journal_entry, add_entry. simpl. intros H.
  now rewrite lookup_app_last, H.
Qed.

Lemma get_save_entry_same (db : Db) (e e' : JournalEntry.t) (entry_id : Z) :
  get_journal_entry db entry_id = Some e ->
  JournalEntry.id e' = entry_id ->
  get_journal_entry (save_entry e' db) entry_id = Some e'.
Proof.
  unfold get_journal_entry, save_entry. simpl. intros H <-.
  exact (lookup_put_same JournalEntry.id e e' _ H).
Qed.

Lemma get_save_entry_other (db : Db) (e' : JournalEntry.t) (entry_id : Z) :
  entry_id <> JournalEntry.id e' ->
  get_journal_entry (save_entry e' db) entry_id = get_journal_entry db entry_id.
Proof.
  unfold get_journal_entry, save_entry. simpl. intros H.
  exact (lookup_put_other JournalEntry.id entry_id e' _ H).
Qed.

Lemma get_journal_entry_id (db : Db) (e : JournalEntry.t) (entry_id : Z) :
  get_journal_entry db entry_id = Some e -> JournalEntry.id e = entry_id.
Proof.
  intros H. exact (proj1 (lookup_some JournalEntry.id entry_id e _ H)).
Qed.

(* ================================================================== *)
(** ** Creating an entry *)

(** The fields of the row [create_journal_entry] stores, when it returns. *)
Lemma create_journal_entry_inv (db db' : Db) (now : datetime)
  (entry : JournalEntryCreate.t) (e : JournalEntry.t) :
  create_journal_entry now entry db = Ok (e, db') ->
  let lines := JournalEntryCreate.journal_lines entry in
  db' = add_entry e db
  /\ e = JournalEntry.mk
           (next_id (map JournalEntry.id (journal_entries db)))
           (_generate_entry_number db now)
           (JournalEntryCreate.entry_date entry)
           (JournalEntryCreate.reference entry)
           (JournalEntryCreate.description entry)
           Draft
           (JournalEntryCreate.entry_type entry)
           (sum (map JournalLineCreate.debit_amount lines))
           (sum (map JournalLineCreate.credit_amount lines))
           true None None now now
           (map (db_line (next_id (map JournalEntry.id (journal_entries db)))) lines)
  /\ sum (map JournalLineCreate.debit_amount lines)
     = sum (map JournalLineCreate.credit_amount lines)
  /\ forall l, In l lines -> usable_account db (JournalLineCreate.account_id l).
Proof.
  intros H lines. unfold create_journal_entry in H. fold lines in H.
  destruct (Z.eqb_spec (sum (map JournalLineCreate.debit_amount lines))
                       (sum (map JournalLineCreate.credit_amount lines))) as [Heq|Hne];
    simpl in H; [|discriminate].
  destruct (create_lines db _ lines) as [db_lines|] eqn:E; simpl in H; [|discriminate].
  apply create_lines_inv in E. destruct E as [-> Hall].
  inversion H. subst. auto.
Qed.



(* ================================================================== *)
(** ** Posting and voiding *)

Lemma Status_eqb_eq (a b : Status) : Status_eqb a b = true <-> a = b.
Proof. destruct a, b; simpl; split; intros H; congruence. Qed.

(** C3, as the code has it.  On an existing draft entry [post_journal_entry]
    raises the unbalanced error when [is_balanced] is false; otherwise it
    returns [True] and the stored entry has status [Posted] and [posted_at]
    set to the time of the call.  [posted_by] keeps the value it had (the
    method receives no caller identity), as does every other column but
    [updated_at]. *)
Theorem post_journal_entry_draft (db : Db) (now : datetime) (entry_id : Z)
  (e : JournalEntry.t) :
  get_journal_entry db entry_id = Some e ->
  JournalEntry.status e = Draft ->
  (JournalEntry.is_balanced e = false ->
   post_journal_entry now entry_id db = Raise (UnbalancedEntry entry_id))
  /\ (JournalEntry.is_balanced e = true ->
      exists e' db',
        post_journal_entry now entry_id db = Ok (true, db')
        /\ get_journal_entry db' entry_id = Some e'
        /\ JournalEntry.status e' = Posted
        /\ JournalEntry.posted_at e' = Some now
        /\ JournalEntry.posted_by e' = JournalEntry.posted_by e
        /\ same_content e e').
Proof.
  intros Hget Hst. unfold post_journal_entry. rewrite Hget, Hst. simpl. split.
  - intros ->. reflexivity.
  - intros ->. simpl. eexists. eexists. split; [reflexivity|]. split.
    + eapply get_save_entry_same; [exact Hget|]. simpl.
      exact (get_journal_entry_id _ _ _ Hget).
    + unfold same_content. simpl. repeat split; reflexivity.
Qed.

(** Posting the draft cash sale. *)
Lemma post_journal_entry_draft_witness :
  exists e' db',
    post_journal_entry Sample.t1 1 Sample.db_draft = Ok (true, db')
    /\ get_journal_entry db' 1 = Some e'
    /\ JournalEntry.status e' = Posted
    /\ JournalEntry.posted_at e' = Some Sample.t1
    /\ JournalEntry.posted_by e' = None.
Proof.
  destruct (get_journal_entry Sample.db_draft 1) as [e|] eqn:E; [|discriminate E].
  assert (Hby : JournalEntry.posted_by e = None)
    by (vm_compute in E; inversion E; reflexivity).
  destruct (post_journal_entry_draft Sample.db_draft Sample.t1 1 e E) as [_ H].
  - vm_compute in E. inversion E. reflexivity.
  - destruct H as (e' & db' & Hp & Hg & Hs & Hat & Hb & _).
    + vm_compute in E. inversion E. reflexivity.
    + exists e', db'. rewrite Hb, Hby. auto.
Defined.

(** C3 as stated fails: after the draft cash sale is posted, the stored entry
    is [Posted] and has its [posted_at], and its [posted_by] is still null. *)
Lemma post_journal_entry_posted_by_unset :
  post_journal_entry Sample.t1 1 Sample.db_draft = Ok (true, Sample.db_posted)
  /\ option_map JournalEntry.status (get_journal_entry Sample.db_posted 1)
     = Some Posted
  /\ option_map JournalEntry.posted_at (get_journal_entry Sample.db_posted 1)
     = Some (Some Sample.t1)
  /\ option_map JournalEntry.posted_by (get_journal_entry Sample.db_posted 1)
     = Some None.
Proof. vm_compute. repeat split. Qed.

(** C8, as the code has it.  [void_journal_entry] raises the not-found error
    for an unknown id, refuses a posted entry and an already voided one, and
    on a draft sets the status to [Void]; the row it stores differs from the
    old one in [status] and [updated_at] only, and the call as a whole does
    not depend on [reason]: the supplied reason is recorded nowhere. *)
Theorem void_journal_entry_drops_reason (db : Db) (now : datetime) (entry_id : Z)
  (reason : string) :
  (get_journal_entry db entry_id = None ->
   void_journal_entry now entry_id reason db = Raise (NotFound entry_id))
  /\ (forall e, get_journal_entry db entry_id = Some e ->
      (JournalEntry.status e = Posted ->
       void_journal_entry now entry_id reason db = Raise (CannotVoidPosted entry_id))
      /\ (JournalEntry.status e = Void ->
          void_journal_entry now entry_id reason db = Raise (AlreadyVoid entry_id))
      /\ (JournalEntry.status e = Draft ->
          exists e' db',
            void_journal_entry now entry_id reason db = Ok (true, db')
            /\ get_journal_entry db' entry_id = Some e'
            /\ JournalEntry.status e' = Void
            /\ JournalEntry.posted_at e' = JournalEntry.posted_at e
            /\ same_content e e'))
  /\ (forall other_reason,
      void_journal_entry now entry_id other_reason db
      = void_journal_entry now entry_id reason db).
Proof.
  split; [|split].
  - intros H. unfold void_journal_entry. now rewrite H.
  - intros e Hget. unfold void_journal_entry. rewrite Hget.
    split; [|split]; intros ->; simpl; try reflexivity.
    eexists. eexists. split; [reflexivity|]. split.
    + eapply get_save_entry_same; [exact Hget|]. simpl.
      exact (get_journal_entry_id _ _ _ Hget).
    + unfold same_content. simpl. repeat split; reflexivity.
  - intros other_reason. reflexivity.
Qed.

(** Voiding the draft cash sale with a reason and with the empty reason gives
    the same database, and voiding entry 9, which does not exist, is refused. *)
Lemma void_journal_entry_drops_reason_witness :
  void_journal_entry Sample.t1 9 "entered twice" Sample.db_draft = Raise (NotFound 9)
  /\ void_journal_entry Sample.t1 1 "entered twice" Sample.db_draft
     = void_journal_entry Sample.t1 1 "" Sample.db_draft.
Proof.
  split.
  - apply (proj1 (void_journal_entry_drops_reason Sample.db_draft Sample.t1 9
                    "entered twice")).
    reflexivity.
  - symmetry.
    apply (proj2 (proj2 (void_journal_entry_drops_reason Sample.db_draft Sample.t1 1
                           ""))).
Defined.

(* ================================================================== *)
(** ** Updating an entry *)

Lemma update_lines_ok (db : Db) (entry_id : Z) (lines : list JournalLineCreate.t)
  (d c : Decimal) :
  (forall l, In l lines -> usable_account db (JournalLineCreate.account_id l)) ->
  update_lines db entry_id lines d c
  = Ok (map (db_line entry_id) lines,
        (d + sum (map JournalLineCreate.debit_amount lines))%Z,
        (c + sum (map JournalLineCreate.credit_amount lines))%Z).
Proof.
  revert d c. induction lines as [|l lines IH]; intros d c H.
  - simpl. rewrite sum_nil, !Z.add_0_r. reflexivity.
  - cbn [update_lines map].
    destruct (proj2 (active_account_usable db _) (H l (or_introl eq_refl))) as [acc ->].
    rewrite IH by (intros l' Hl'; apply H; now right).
    cbn [bind]. rewrite !sum_cons, !Z.add_assoc. reflexivity.
Qed.

Lemma update_lines_raise (db : Db) (entry_id : Z) (lines : list JournalLineCreate.t)
  (d c : Decimal) :
  (exists l, In l lines /\ ~ usable_account db (JournalLineCreate.account_id l)) ->
  exists a, update_lines db entry_id lines d c = Raise (InvalidAccount a)
            /\ In a (map JournalLineCreate.account_id lines)
            /\ ~ usable_account db a.
Proof.
  revert d c. induction lines as [|l lines IH]; intros d c [bad [Hin Hbad]];
    [contradiction|].
  cbn [update_lines map].
  destruct (active_account db (JournalLineCreate.account_id l)) as [acc|] eqn:E.
  - destruct Hin as [-> | Hin].
    + exfalso. apply Hbad. apply active_account_usable. now exists acc.
    + destruct (IH (d + JournalLineCreate.debit_amount l)%Z
                   (c + JournalLineCreate.credit_amount l)%Z) as [a (Hr & Ha & Hu)];
        [now exists bad|].
      exists a. rewrite Hr. simpl. auto.
  - exists (JournalLineCreate.account_id l). split; [reflexivity|].
    split; [now left | now apply active_account_unusable].
Qed.

Lemma update_lines_raises_invalid (db : Db) (entry_id : Z)
  (lines : list JournalLineCreate.t) (d c : Decimal) (err : ValueError) :
  update_lines db entry_id lines d c = Raise err -> exists a, err = InvalidAccount a.
Proof.
  revert d c. induction lines as [|l lines IH]; intros d c; cbn [update_lines].
  - discriminate.
  - destruct (active_account db (JournalLineCreate.account_id l)).
    + destruct (update_lines db entry_id lines _ _) as [[[x d'] c']|err'] eqn:E;
        simpl; intros H; [discriminate H|].
      inversion H; subst. eapply IH. exact E.
    + intros H. inversion H. eauto.
Qed.

Lemma update_basic_fields_scalars (u : JournalEntryUpdate.t) (e : JournalEntry.t) :
  scalars_updated u e (update_basic_fields u e).
Proof.
  unfold scalars_updated, update_basic_fields.
  destruct u as [d r ds t ls]; destruct d, r, ds, t; simpl; repeat split; reflexivity.
Qed.

Lemma update_basic_fields_rest (u : JournalEntryUpdate.t) (e : JournalEntry.t) :
  JournalEntry.journal_lines (update_basic_fields u e) = JournalEntry.journal_lines e
  /\ JournalEntry.total_debits (update_basic_fields u e) = JournalEntry.total_debits e
  /\ JournalEntry.total_credits (update_basic_fields u e) = JournalEntry.total_credits e
  /\ JournalEntry.is_balanced (update_basic_fields u e) = JournalEntry.is_balanced e.
Proof.
  unfold update_basic_fields.
  destruct u as [d r ds t ls]; destruct d, r, ds, t; simpl; repeat split; reflexivity.
Qed.



(* ================================================================== *)
(** ** Reversing a posted entry *)

Lemma create_journal_entry_ok (db : Db) (now : datetime) (entry : JournalEntryCreate.t) :
  let lines := JournalEntryCreate.journal_lines entry in
  sum (map JournalLineCreate.debit_amount lines)
  = sum (map JournalLineCreate.credit_amount lines) ->
  (forall l, In l lines -> usable_account db (JournalLineCreate.account_id l)) ->
  exists e, create_journal_entry now entry db = Ok (e, add_entry e db).
Proof.
  intros lines Heq Hall. unfold create_journal_entry. fold lines.
  rewrite (proj2 (Z.eqb_eq _ _) Heq). simpl.
  rewrite (create_lines_ok db _ lines Hall). simpl. eauto.
Qed.

Lemma create_journal_entry_invalid (db : Db) (now : datetime)
  (entry : JournalEntryCreate.t) :
  let lines := JournalEntryCreate.journal_lines entry in
  sum (map JournalLineCreate.debit_amount lines)
  = sum (map JournalLineCreate.credit_amount lines) ->
  (exists l, In l lines /\ ~ usable_account db (JournalLineCreate.account_id l)) ->
  exists a, create_journal_entry now entry db = Raise (InvalidAccount a)
            /\ ~ usable_account db a.
Proof.
  intros lines Heq Hbad. unfold create_journal_entry. fold lines.
  rewrite (proj2 (Z.eqb_eq _ _) Heq). simpl.
  destruct (create_lines_raise db (next_id (map JournalEntry.id (journal_entries db)))
              lines Hbad) as [a (Hr & _ & Hu)].
  exists a. rewrite Hr. auto.
Qed.

Lemma reversing_debits (n : string) (lines : list JournalLine.t) :
  map JournalLineCreate.debit_amount (map (reversing_line n) lines)
  = map JournalLine.credit_amount lines.
Proof. rewrite map_map. reflexivity. Qed.

Lemma reversing_credits (n : string) (lines : list JournalLine.t) :
  map JournalLineCreate.credit_amount (map (reversing_line n) lines)
  = map JournalLine.debit_amount lines.
Proof. rewrite map_map. reflexivity. Qed.

Lemma reversing_lines_reverse (n : string) (entry_id : Z) (lines : list JournalLine.t) :
  Forall2 reverses lines (map (db_line entry_id) (map (reversing_line n) lines)).
Proof.
  induction lines as [|l lines IH]; simpl; constructor; [|exact IH].
  unfold reverses. simpl. auto.
Qed.

(** [create_reversing_entry] on any database: the entry it hands to
    [create_journal_entry] balances when the original lines do. *)
Lemma create_reversing_entry_general (db : Db) (now : datetime) (entry_id : Z)
  (reverse_date : date) (e : JournalEntry.t) :
  get_journal_entry db entry_id = Some e ->
  let lines := JournalEntry.journal_lines e in
  (JournalEntry.status e <> Posted ->
   create_reversing_entry now entry_id reverse_date db = Raise (NotPosted entry_id))
  /\ (JournalEntry.status e = Posted ->
      balanced_lines e ->
      ((exists l, In l lines /\ ~ usable_account db (JournalLine.account_id l)) ->
       exists a, create_reversing_entry now entry_id reverse_date db
                 = Raise (InvalidAccount a)
                 /\ ~ usable_account db a)
      /\ ((forall l, In l lines -> usable_account db (JournalLine.account_id l)) ->
          exists r db',
            create_reversing_entry now entry_id reverse_date db = Ok (r, db')
            /\ get_journal_entry db' (JournalEntry.id r) = Some r
            /\ JournalEntry.status r = Draft
            /\ JournalEntry.entry_date r = reverse_date
            /\ JournalEntry.entry_type r = System
            /\ JournalEntry.reference r
               = Some ("REV-" ++ JournalEntry.entry_number e)%string
            /\ Forall2 reverses lines (JournalEntry.journal_lines r)
            /\ get_journal_entry db' entry_id = Some e
            /\ (forall j e0, get_journal_entry db j = Some e0
                             -> get_journal_entry db' j = Some e0)
            /\ chart_of_accounts db' = chart_of_accounts db)).
Proof.
  intros Hget lines. split.
  - intros Hst. unfold create_reversing_entry. rewrite Hget.
    destruct (JournalEntry.status e); simpl; congruence.
  - intros Hst Hbal. unfold balanced_lines in Hbal.
    unfold create_reversing_entry. rewrite Hget, Hst. simpl.
    fold lines.
    set (rev_entry := JournalEntryCreate.mk _ _ _ _ _).
    assert (Hsum : sum (map JournalLineCreate.debit_amount
                          (JournalEntryCreate.journal_lines rev_entry))
                   = sum (map JournalLineCreate.credit_amount
                            (JournalEntryCreate.journal_lines rev_entry))).
    { subst rev_entry. simpl. now rewrite reversing_debits, reversing_credits. }
    split.
    + intros [bad [Hin Hbad]].
      apply (create_journal_entry_invalid db now rev_entry Hsum).
      exists (reversing_line (JournalEntry.entry_number e) bad). split.
      * subst rev_entry. simpl. now apply in_map.
      * exact Hbad.
    + intros Hall.
      destruct (create_journal_entry_ok db now rev_entry Hsum) as [r Hr].
      { subst rev_entry. simpl. intros l Hl. apply in_map_iff in Hl.
        destruct Hl as [l0 [<- Hl0]]. simpl. now apply Hall. }
      exists r, (add_entry r db). split; [exact Hr|].
      destruct (create_journal_entry_inv _ _ _ _ _ Hr) as (_ & He & _).
      split; [apply get_add_entry_new; rewrite He; reflexivity|].
      split; [rewrite He; reflexivity|].
      split; [rewrite He; reflexivity|].
      split; [rewrite He; reflexivity|].
      split; [rewrite He; reflexivity|].
      split; [rewrite He; simpl; apply reversing_lines_reverse|].
      split; [now apply get_add_entry_old|].
      split; [intros j e0 Hj; now apply get_add_entry_old | reflexivity].
Qed.

(* ================================================================== *)
(** ** The shape of a call *)

Lemma db_line_debits (entry_id : Z) (lines : list JournalLineCreate.t) :
  map JournalLine.debit_amount (map (db_line entry_id) lines)
  = map JournalLineCreate.debit_amount lines.
Proof. rewrite map_map. reflexivity. Qed.

Lemma db_line_credits (entry_id : Z) (lines : list JournalLineCreate.t) :
  map JournalLine.credit_amount (map (db_line entry_id) lines)
  = map JournalLineCreate.credit_amount lines.
Proof. rewrite map_map. reflexivity. Qed.

Lemma update_lines_inv (db : Db) (entry_id : Z) (lines : list JournalLineCreate.t) :
  forall d c db_lines d' c',
    update_lines db entry_id lines d c = Ok (db_lines, d', c') ->
    db_lines = map (db_line entry_id) lines
    /\ d' = (d + sum (map JournalLineCreate.debit_amount lines))%Z
    /\ c' = (c + sum (map JournalLineCreate.credit_amount lines))%Z.
Proof.
  induction lines as [|l lines IH]; intros d c db_lines d' c'; cbn [update_lines map].
  - intros H. inversion H. rewrite sum_nil. repeat split; lia.
  - destruct (active_account db (JournalLineCreate.account_id l)); [|discriminate].
    destruct (update_lines db entry_id lines _ _) as [[[x dx] cx]|err] eqn:E;
      simpl; intros H; [|discriminate H].
    inversion H; subst. destruct (IH _ _ _ _ _ E) as (-> & -> & ->).
    rewrite !sum_cons. repeat split; lia.
Qed.

Lemma lifecycle_step_refl (s : Status) : lifecycle_step s s.
Proof. now left. Qed.

(** A call leaves the journal table as it was, or appends one new draft with
    balancing lines, or saves one existing row whose status made a lifecycle
    move, whose entry number and creation time are the old ones, and whose
    lines balance if they did. *)
Lemma call_shape (db : Db) (c : Call) :
  journal_entries (call db c) = journal_entries db
  \/ (exists r, call db c = add_entry r db
                /\ JournalEntry.status r = Draft
                /\ JournalEntry.id r = next_id (map JournalEntry.id (journal_entries db))
                /\ JournalEntry.entry_number r
                   = _generate_entry_number db (JournalEntry.created_at r)
                /\ balanced_lines r)
  \/ (exists e0 e', call db c = save_entry e' db
                    /\ get_journal_entry db (JournalEntry.id e') = Some e0
                    /\ lifecycle_step (JournalEntry.status e0) (JournalEntry.status e')
                    /\ JournalEntry.entry_number e' = JournalEntry.entry_number e0
                    /\ JournalEntry.created_at e' = JournalEntry.created_at e0
                    /\ (balanced_lines e0 -> balanced_lines e')).
Proof.
  assert (Hcreate : forall now entry,
    let db' := committed (create_journal_entry now entry db) db in
    journal_entries db' = journal_entries db
    \/ (exists r, db' = add_entry r db
                  /\ JournalEntry.status r = Draft
                  /\ JournalEntry.id r = next_id (map JournalEntry.id (journal_entries db))
                  /\ JournalEntry.entry_number r
                     = _generate_entry_number db (JournalEntry.created_at r)
                  /\ balanced_lines r)).
  { intros now entry.
    destruct (create_journal_entry now entry db) as [[r db1]|err] eqn:E; simpl;
      [|now left].
    destruct (create_journal_entry_inv _ _ _ _ _ E) as (-> & He & Hbal & _).
    right. exists r. rewrite He. simpl. repeat split.
    unfold balanced_lines. simpl. now rewrite db_line_debits, db_line_credits. }
  destruct c as [now a | now i u | now i | now entry | now i u | now i | now i reason
                | now i rd]; simpl.
  - left. unfold GeneralLedgerService.create_account.
    destruct (find _ (chart_of_accounts db)); simpl; [reflexivity|].
    destruct (truthy _) as [p|]; simpl; [|reflexivity].
    destruct (GeneralLedgerService.get_account db p); reflexivity.
  - left. unfold GeneralLedgerService.update_account.
    destruct (GeneralLedgerService.get_account db i); reflexivity.
  - left. unfold GeneralLedgerService.delete_account.
    destruct (GeneralLedgerService.get_account db i); simpl; [|reflexivity].
    destruct (Nat.ltb 0 _); reflexivity.
  - destruct (Hcreate now entry) as [H | H]; [now left | right; now left].
  - unfold update_journal_entry.
    destruct (get_journal_entry db i) as [e0|] eqn:Hget; simpl; [|now left].
    pose proof (get_journal_entry_id _ _ _ Hget) as Hid.
    pose proof (update_basic_fields_scalars u e0) as (H1 & H2 & H3 & _ & _ & H6 & _).
    pose proof (update_basic_fields_rest u e0) as (Hl & _).
    destruct (Status_eqb (JournalEntry.status e0) Posted); simpl; [now left|].
    destruct (JournalEntryUpdate.journal_lines u) as [ls|]; simpl.
    + destruct (update_lines db i ls 0 0) as [[[x d] cr]|err] eqn:EU; simpl;
        [|now left].
      destruct (update_lines_inv _ _ _ _ _ _ _ _ EU) as (-> & -> & ->).
      rewrite !Z.add_0_l.
      destruct (Z.eqb_spec (sum (map JournalLineCreate.debit_amount ls))
                           (sum (map JournalLineCreate.credit_amount ls)))
        as [Heq|Hne]; simpl; [|now left].
      right. right. eexists e0, _. split; [reflexivity|]. simpl.
      rewrite H1, Hid, H2, H3, H6. repeat split; auto using lifecycle_step_refl.
      intros _. unfold balanced_lines. simpl.
      now rewrite db_line_debits, db_line_credits.
    + right. right. eexists e0, _. split; [reflexivity|]. simpl.
      rewrite H1, Hid, H2, H3, H6. repeat split; auto using lifecycle_step_refl.
      unfold balanced_lines. simpl. now rewrite Hl.
  - unfold post_journal_entry.
    destruct (get_journal_entry db i) as [e0|] eqn:Hget; simpl; [|now left].
    pose proof (get_journal_entry_id _ _ _ Hget) as Hid.
    destruct (JournalEntry.status e0) eqn:Hst; simpl; try now left.
    destruct (JournalEntry.is_balanced e0); simpl; [|now left].
    right. right. eexists e0, _. split; [reflexivity|]. simpl.
    rewrite Hid, Hst. repeat split; auto. right. left. auto.
  - unfold void_journal_entry.
    destruct (get_journal_entry db i) as [e0|] eqn:Hget; simpl; [|now left].
    pose proof (get_journal_entry_id _ _ _ Hget) as Hid.
    destruct (JournalEntry.status e0) eqn:Hst; simpl; try now left.
    right. right. eexists e0, _. split; [reflexivity|]. simpl.
    rewrite Hid, Hst. repeat split; auto. right. right. auto.
  - unfold create_reversing_entry.
    destruct (get_journal_entry db i) as [e0|]; simpl; [|now left].
    destruct (negb _); simpl; [now left|].
    match goal with |- context [create_journal_entry now ?x db] =>
      destruct (Hcreate now x) as [H | H] end; [now left | right; now left].
Qed.

(** Every call keeps the ledger balanced. *)
Lemma balanced_ledger_call (db : Db) (c : Call) :
  balanced_ledger db -> balanced_ledger (call db c).
Proof.
  intros Hb.
  destruct (call_shape db c)
    as [H | [(r & -> & _ & _ & _ & Hr) | (e0 & e' & -> & Hg & _ & _ & _ & He')]].
  - unfold balanced_ledger. now rewrite H.
  - intros e He. simpl in He. apply in_app_or in He.
    destruct He as [He | [<- | []]]; [now apply Hb | exact Hr].
  - intros e He. simpl in He. apply in_put in He.
    destruct He as [-> | He]; [|now apply Hb].
    apply He', Hb. exact (proj2 (lookup_some _ _ _ _ Hg)).
Qed.

Lemma balanced_ledger_run (calls : list Call) (db : Db) :
  balanced_ledger db -> balanced_ledger (run db calls).
Proof.
  revert db. induction calls as [|c calls IH]; intros db H; simpl; [exact H|].
  apply IH. now apply balanced_ledger_call.
Qed.

Lemma balanced_ledger_empty : balanced_ledger empty_db.
Proof. intros e []. Qed.

Lemma get_same_table (db db' : Db) (entry_id : Z) :
  journal_entries db' = journal_entries db ->
  get_journal_entry db' entry_id = get_journal_entry db entry_id.
Proof. unfold get_journal_entry. now intros ->. Qed.

(** An entry that exists is still there after any call, one lifecycle move on. *)
Lemma call_status_step (db : Db) (c : Call) (entry_id : Z) (e : JournalEntry.t) :
  get_journal_entry db entry_id = Some e ->
  exists e', get_journal_entry (call db c) entry_id = Some e'
             /\ lifecycle_step (JournalEntry.status e) (JournalEntry.status e').
Proof.
  intros Hget.
  destruct (call_shape db c) as [H | [(r & -> & _) | (e0 & e' & -> & Hg & Hstep & _)]].
  - exists e. rewrite (get_same_table _ _ _ H). auto using lifecycle_step_refl.
  - exists e. split; [now apply get_add_entry_old | apply lifecycle_step_refl].
  - destruct (Z.eq_dec entry_id (JournalEntry.id e')) as [-> | Hne].
    + exists e'. split; [now apply get_save_entry_same with e0|].
      rewrite Hg in Hget. inversion Hget. now subst.
    + exists e. rewrite get_save_entry_other by exact Hne.
      auto using lifecycle_step_refl.
Qed.

(** An entry that does not exist is still missing after a call, or is a draft. *)
Lemma call_status_birth (db : Db) (c : Call) (entry_id : Z) :
  get_journal_entry db entry_id = None ->
  get_journal_entry (call db c) entry_id = None
  \/ exists e', get_journal_entry (call db c) entry_id = Some e'
                /\ JournalEntry.status e' = Draft.
Proof.
  intros Hget.
  destruct (call_shape db c) as [H | [(r & -> & Hst & _) | (e0 & e' & -> & Hg & _)]].
  - left. now rewrite (get_same_table _ _ _ H).
  - rewrite (get_add_entry_none _ _ _ Hget).
    destruct (JournalEntry.id r =? entry_id)%Z; [right; eauto | now left].
  - left. destruct (Z.eq_dec entry_id (JournalEntry.id e')) as [-> | Hne].
    + congruence.
    + now rewrite get_save_entry_other.
Qed.

(** ** Status histories *)

Lemma status_history_cons (entry_id : Z) (db : Db) (c : Call) (calls : list Call) :
  status_history entry_id db (c :: calls)
  = status_in entry_id db ++ status_history entry_id (call db c) calls.
Proof. reflexivity. Qed.

Lemma status_history_head (entry_id : Z) (db : Db) (calls : list Call) :
  exists l, status_history entry_id db calls = status_in entry_id db ++ l.
Proof.
  destruct calls as [|c calls].
  - exists []. reflexivity.
  - eexists. apply status_history_cons.
Qed.

Lemma history_alive (entry_id : Z) (calls : list Call) :
  forall db e,
    get_journal_entry db entry_id = Some e ->
    exists l, status_history entry_id db calls = JournalEntry.status e :: l
              /\ follows (JournalEntry.status e) l.
Proof.
  induction calls as [|c calls IH]; intros db e Hget.
  - exists []. split; [|constructor].
    unfold status_history, status_in. simpl. now rewrite Hget.
  - destruct (call_status_step db c entry_id e Hget) as (e' & Hget' & Hstep).
    destruct (IH _ _ Hget') as (l & Hl & Hf).
    exists (JournalEntry.status e' :: l). split.
    + rewrite status_history_cons, Hl. unfold status_in. now rewrite Hget.
    + now constructor.
Qed.

Lemma history_unborn (entry_id : Z) (calls : list Call) :
  forall db,
    get_journal_entry db entry_id = None ->
    status_history entry_id db calls = []
    \/ exists l, status_history entry_id db calls = Draft :: l /\ follows Draft l.
Proof.
  induction calls as [|c calls IH]; intros db Hget.
  - left. unfold status_history, status_in. simpl. now rewrite Hget.
  - rewrite status_history_cons.
    replace (status_in entry_id db) with (@nil Status)
      by (unfold status_in; now rewrite Hget).
    cbn [app].
    destruct (call_status_birth db c entry_id Hget) as [Hnone | (e' & Hget' & Hst)].
    + now apply IH.
    + right. destruct (history_alive entry_id calls _ _ Hget') as (l & Hl & Hf).
      rewrite Hst in Hl, Hf. eauto.
Qed.

Lemma changes_follows (s : Status) (l : list Status) :
  follows s l ->
  changes (s :: l) = [s]
  \/ (s = Draft /\ (changes (s :: l) = [Draft; Posted]
                    \/ changes (s :: l) = [Draft; Void])).
Proof.
  induction 1 as [s | s s' l Hstep Hf IH].
  - now left.
  - change (changes (s :: s' :: l))
      with (if Status_eqb s s' then changes (s' :: l) else s :: changes (s' :: l)).
    destruct Hstep as [-> | [[-> ->] | [-> ->]]].
    + replace (Status_eqb s s) with true by (now destruct s). exact IH.
    + right. split; [reflexivity|]. left. simpl (Status_eqb _ _).
      destruct IH as [-> | [Habs _]]; [reflexivity | discriminate Habs].
    + right. split; [reflexivity|]. right. simpl (Status_eqb _ _).
      destruct IH as [-> | [Habs _]]; [reflexivity | discriminate Habs].
Qed.

(** C2.  Over any sequence of calls on the ledger, started empty, the
    statuses observed for an entry id, immediate repetitions dropped, are
    nothing, [Draft], [Draft, Posted] or [Draft, Void]; observed from any
    database in which the entry exists, they are its status alone or, for a
    draft, [Draft, Posted] or [Draft, Void].  No call takes a posted entry to
    another status, in particular not to [Void].  Posting or voiding an entry
    that is posted or void raises the matching error. *)
Theorem entry_lifecycle_safety :
  (forall calls entry_id,
     let h := changes (status_history entry_id empty_db calls) in
     h = [] \/ h = [Draft] \/ h = [Draft; Posted] \/ h = [Draft; Void])
  /\ (forall db calls entry_id e,
        get_journal_entry db entry_id = Some e ->
        let h := changes (status_history entry_id db calls) in
        h = [JournalEntry.status e]
        \/ (JournalEntry.status e = Draft
            /\ (h = [Draft; Posted] \/ h = [Draft; Void])))
  /\ (forall db c entry_id e,
        get_journal_entry db entry_id = Some e ->
        JournalEntry.status e = Posted ->
        exists e', get_journal_entry (call db c) entry_id = Some e'
                   /\ JournalEntry.status e' = Posted)
  /\ (forall db now entry_id reason e,
        get_journal_entry db entry_id = Some e ->
        (JournalEntry.status e = Posted ->
         post_journal_entry now entry_id db = Raise (AlreadyPosted entry_id)
         /\ void_journal_entry now entry_id reason db
            = Raise (CannotVoidPosted entry_id))
        /\ (JournalEntry.status e = Void ->
            post_journal_entry now entry_id db = Raise (CannotPostVoid entry_id)
            /\ void_journal_entry now entry_id reason db
               = Raise (AlreadyVoid entry_id))).
Proof.
  split; [|split; [|split]].
  - intros calls entry_id h. subst h.
    destruct (history_unborn entry_id calls empty_db eq_refl) as [-> | (l & -> & Hf)].
    + now left.
    + right. destruct (changes_follows _ _ Hf) as [-> | [_ [-> | ->]]]; auto.
  - intros db calls entry_id e Hget h. subst h.
    destruct (history_alive entry_id calls db e Hget) as (l & -> & Hf).
    exact (changes_follows _ _ Hf).
  - intros db c entry_id e Hget Hst.
    destruct (call_status_step db c entry_id e Hget) as (e' & Hget' & Hstep).
    exists e'. split; [exact Hget'|].
    destruct Hstep as [-> | [[Habs _] | [Habs _]]]; congruence.
  - intros db now entry_id reason e Hget.
    unfold post_journal_entry, void_journal_entry. rewrite Hget.
    split; intros ->; split; reflexivity.
Qed.

(** The cash sale is drafted, posted, and then a void and a second post are
    attempted: the history is [Draft, Posted], and both attempts are refused. *)
Lemma entry_lifecycle_safety_witness :
  changes (status_history 1 Sample.db_accounts
             [CreateEntry Sample.t0 Sample.sale; PostEntry Sample.t1 1;
              VoidEntry Sample.t2 1 "too late"; PostEntry Sample.t2 1])
  = [Draft; Posted]
  /\ post_journal_entry Sample.t2 1 Sample.db_posted = Raise (AlreadyPosted 1)
  /\ void_journal_entry Sample.t2 1 "too late" Sample.db_posted
     = Raise (CannotVoidPosted 1).
Proof.
  split; [reflexivity|].
  destruct (get_journal_entry Sample.db_posted 1) as [e|] eqn:E; [|discriminate E].
  destruct entry_lifecycle_safety as (_ & _ & _ & H).
  destruct (H Sample.db_posted Sample.t2 1 "too late" e E) as [Hp _].
  apply Hp. vm_compute in E. inversion E. reflexivity.
Defined.

(* ================================================================== *)
(** ** Reversing a posted entry of the ledger *)




(* ================================================================== *)
(** ** Entry numbers *)

Lemma string_app_assoc (a b c : string) : ((a ++ b) ++ c = a ++ (b ++ c))%string.
Proof. induction a as [|x a IH]; simpl; [reflexivity | now rewrite IH]. Qed.

Lemma hyphen_free_app (a b : string) :
  hyphen_free (a ++ b) = hyphen_free a && hyphen_free b.
Proof.
  induction a as [|x a IH]; simpl; [reflexivity|].
  now rewrite IH, andb_assoc.
Qed.

Lemma hyphen_free_zeros (k : nat) : hyphen_free (zeros k) = true.
Proof. induction k as [|k IH]; simpl; [reflexivity | exact IH]. Qed.

Lemma hyphen_free_digits (d : Decimal.uint) :
  hyphen_free (NilEmpty.string_of_uint d) = true.
Proof. induction d; simpl; auto. Qed.

Lemma after_last_hyphen_split (s t acc : string) :
  after_last_hyphen acc (s ++ String "-" t) = after_last_hyphen EmptyString t.
Proof.
  revert acc. induction s as [|c s IH]; intros acc; simpl.
  - reflexivity.
  - destruct (Ascii.eqb c "-"); apply IH.
Qed.

Lemma after_last_hyphen_free (t acc : string) :
  hyphen_free t = true -> after_last_hyphen acc t = (acc ++ t)%string.
Proof.
  revert acc. induction t as [|c t IH]; intros acc; simpl.
  - intros _. induction acc as [|x acc IHa]; simpl; [reflexivity | now rewrite <- IHa].
  - intros H. apply andb_true_iff in H. destruct H as [Hc Ht].
    apply negb_true_iff in Hc. rewrite Hc, IH by exact Ht.
    now rewrite string_app_assoc.
Qed.

Lemma uint_of_zeros (k : nat) (s : string) (d : Decimal.uint) :
  NilEmpty.uint_of_string s = Some d ->
  exists d', NilEmpty.uint_of_string (zeros k ++ s) = Some d'
             /\ Nat.of_uint d' = Nat.of_uint d.
Proof.
  intros H. induction k as [|k [d' [Hd' Hn]]]; simpl.
  - now exists d.
  - exists (D0 d'). rewrite Hd'. split; [reflexivity | exact Hn].
Qed.

(** The numeric suffix of the number formatted for [k] is [k]. *)
Lemma numeric_suffix_entry_number (y k : nat) :
  numeric_suffix (entry_number_of y k) = k.
Proof.
  unfold numeric_suffix, entry_number_of.
  change ("-" ++ format_05d k)%string with (String "-" (format_05d k)).
  rewrite <- string_app_assoc, after_last_hyphen_split.
  unfold format_05d, format_d.
  rewrite after_last_hyphen_free
    by (rewrite hyphen_free_app, hyphen_free_zeros, hyphen_free_digits; reflexivity).
  cbn [append].
  destruct (uint_of_zeros (5 - String.length (NilEmpty.string_of_uint (Nat.to_uint k)))
              _ _ (NilEmpty.usu (Nat.to_uint k))) as [d' [-> Hd']].
  rewrite Hd'. apply DecimalNat.Unsigned.of_to.
Qed.

Lemma generate_entry_number_of (db : Db) (now : datetime) :
  _generate_entry_number db now
  = entry_number_of (year now) (List.length (created_during (year now) db) + 1).
Proof. reflexivity. Qed.

(** ** The numbering is kept by every call *)

Lemma sorted_snoc (ids : list Z) (i : Z) :
  StronglySorted Z.lt ids ->
  (forall j, In j ids -> (j < i)%Z) ->
  StronglySorted Z.lt (ids ++ [i]).
Proof.
  induction 1 as [|j ids Hs IH Hall]; intros Hlt; simpl.
  - repeat constructor.
  - constructor.
    + apply IH. intros k Hk. apply Hlt. now right.
    + apply Forall_app. split; [exact Hall|].
      constructor; [|constructor]. apply Hlt. now left.
Qed.

Lemma sorted_ids_unique (rows : list JournalEntry.t) (r r' : JournalEntry.t) :
  StronglySorted Z.lt (map JournalEntry.id rows) ->
  In r rows -> In r' rows -> JournalEntry.id r = JournalEntry.id r' -> r = r'.
Proof.
  induction rows as [|x rows IH]; simpl; intros Hs Hr Hr' Hid; [contradiction|].
  inversion Hs as [|? ? Hs' Hall]; subst. rewrite Forall_forall in Hall.
  destruct Hr as [-> | Hr], Hr' as [-> | Hr'].
  - reflexivity.
  - pose proof (Hall _ (in_map JournalEntry.id _ _ Hr')). lia.
  - pose proof (Hall _ (in_map JournalEntry.id _ _ Hr)). lia.
  - now apply IH.
Qed.

(** Saving a row that agrees with the stored one on a set of columns does
    not change what a filter and a projection on those columns see. *)
Lemma save_keeps {B : Type} (p : JournalEntry.t -> bool) (g : JournalEntry.t -> B)
  (e0 e' : JournalEntry.t) (rows : list JournalEntry.t) :
  StronglySorted Z.lt (map JournalEntry.id rows) ->
  In e0 rows ->
  JournalEntry.id e0 = JournalEntry.id e' ->
  p e' = p e0 -> g e' = g e0 ->
  map g (filter p (put JournalEntry.id e' rows)) = map g (filter p rows).
Proof.
  intros Hs Hin Hid Hp Hg. unfold put.
  assert (H : forall r, In r rows ->
            let r' := if (JournalEntry.id r =? JournalEntry.id e')%Z then e' else r in
            p r' = p r /\ g r' = g r).
  { intros r Hr. simpl. destruct (Z.eqb_spec (JournalEntry.id r) (JournalEntry.id e'));
      [|auto].
    assert (r = e0) as -> by (apply (sorted_ids_unique rows); auto; congruence).
    auto. }
  clear Hs Hin. induction rows as [|x rows IH]; simpl; [reflexivity|].
  destruct (H x (or_introl eq_refl)) as [Hpx Hgx]. simpl in Hpx, Hgx.
  rewrite Hpx. destruct (p x); simpl; rewrite ?Hgx, IH; auto.
  all: intros r Hr; apply H; now right.
Qed.

Lemma numbered_empty : numbered empty_db.
Proof. split; [constructor | reflexivity]. Qed.

Lemma numbered_call (db : Db) (c : Call) : numbered db -> numbered (call db c).
Proof.
  intros [Hs Hn].
  destruct (call_shape db c)
    as [H | [(r & -> & _ & Hid & Hnum & _) | (e0 & e' & -> & Hg & _ & Hnum & Hat & _)]].
  - unfold numbered, created_during. now rewrite H.
  - split.
    + simpl. rewrite map_app. apply sorted_snoc; [exact Hs|].
      intros j Hj. simpl. rewrite Hid. now apply next_id_above.
    + intros y. unfold created_during. simpl. rewrite filter_app. simpl.
      fold (created_during y db).
      destruct (created_in y r) eqn:Hy.
      * apply Nat.eqb_eq in Hy.
        rewrite map_app, length_app, Hn. simpl.
        rewrite Nat.add_1_r, seq_S, map_app. simpl.
        rewrite Hnum, generate_entry_number_of, Hy, Nat.add_1_r. reflexivity.
      * rewrite app_nil_r. apply Hn.
  - apply lookup_some in Hg. destruct Hg as [Hk Hin].
    split.
    + simpl. now rewrite put_keys.
    + intros y. unfold created_during. simpl.
      rewrite (save_keeps (created_in y) JournalEntry.entry_number e0 e');
        auto; [|unfold created_in; now rewrite Hat].
      rewrite <- (length_map JournalEntry.entry_number).
      rewrite (save_keeps (created_in y) JournalEntry.entry_number e0 e');
        auto; [|unfold created_in; now rewrite Hat].
      rewrite length_map. apply Hn.
Qed.

Lemma numbered_run (calls : list Call) (db : Db) : numbered db -> numbered (run db calls).
Proof.
  revert db. induction calls as [|c calls IH]; intros db H; simpl; [exact H|].
  apply IH. now apply numbered_call.
Qed.

Lemma seq_sorted (n start : nat) : StronglySorted lt (seq start n).
Proof.
  revert start. induction n as [|n IH]; intros start; simpl; constructor.
  - apply IH.
  - apply Forall_forall. intros k Hk. apply in_seq in Hk. lia.
Qed.


(* ================================================================== *)
(** ** Account balance *)

(** What [get_account_balance] returns for an account that exists: three
    zero balances, whatever the journal holds. *)
Lemma get_account_balance_zero (db : Db) (now : datetime) (account_id : Z)
  (as_of_date : option datetime) (b : GeneralLedgerService.AccountBalance) :
  GeneralLedgerService.get_account_balance db now account_id as_of_date = Ok b ->
  GeneralLedgerService.debit_balance b = 0%Z
  /\ GeneralLedgerService.credit_balance b = 0%Z
  /\ GeneralLedgerService.net_balance b = 0%Z.
Proof.
  unfold GeneralLedgerService.get_account_balance.
  destruct (GeneralLedgerService.get_account db account_id); [|discriminate].
  intros H. inversion H. simpl. auto.
Qed.

(** C5 on the posted cash sale: the posted lines on 1000/Cash sum to a debit
    of 150.00 and no credit, so the spec's balance of this debit-normal
    account is 150.00; [get_account_balance] returns 0.00 three times. *)
Theorem get_account_balance_placeholder :
  spec_debit_balance Sample.db_posted 1 None = 15000%Z
  /\ spec_credit_balance Sample.db_posted 1 None = 0%Z
  /\ option_map ChartOfAccounts.normal_balance
       (GeneralLedgerService.get_account Sample.db_posted 1) = Some DebitNormal
  /\ GeneralLedgerService.get_account_balance Sample.db_posted Sample.t2 1 None
     = Ok (GeneralLedgerService.mk_AccountBalance 1 "1000" "Cash" Sample.t2 0 0 0).
Proof. vm_compute. repeat split. Qed.

(* ================================================================== *)
(** ** Account hierarchy *)

(** [update_account] never raises. *)
Lemma update_account_never_raises (db : Db) (now : datetime) (account_id : Z)
  (account_update : ChartOfAccountsUpdate.t) :
  exists r db',
    GeneralLedgerService.update_account now account_id account_update db = Ok (r, db').
Proof.
  unfold GeneralLedgerService.update_account.
  destruct (GeneralLedgerService.get_account db account_id); eauto.
Qed.

(** C6 on the chart 1000/Cash (id 1) with its sub-account 1010/Petty cash
    (id 3): the chart has no cycle; setting the parent of account 1 to its
    descendant 3 returns the updated account, and so does setting it to 1
    itself; after either call account 1 is on a cycle of parent links. *)
Theorem update_account_accepts_cycle :
  parent_of Sample.db_tree 3 = Some 1%Z
  /\ on_cycle Sample.db_tree 1 = false
  /\ on_cycle Sample.db_tree 3 = false
  /\ (exists a db',
        GeneralLedgerService.update_account Sample.t1 1 (Sample.reparent 3) Sample.db_tree
        = Ok (Some a, db')
        /\ ChartOfAccounts.parent_account_id a = Some 3%Z
        /\ parent_of db' 1 = Some 3%Z
        /\ parent_of db' 3 = Some 1%Z
        /\ on_cycle db' 1 = true)
  /\ (exists a db',
        GeneralLedgerService.update_account Sample.t1 1 (Sample.reparent 1) Sample.db_tree
        = Ok (Some a, db')
        /\ ChartOfAccounts.parent_account_id a = Some 1%Z
        /\ parent_of db' 1 = Some 1%Z
        /\ on_cycle db' 1 = true).
Proof.
  split; [reflexivity|]. split; [reflexivity|]. split; [reflexivity|]. split.
  - eexists. eexists. split; [reflexivity|]. vm_compute. auto.
  - eexists. eexists. split; [reflexivity|]. vm_compute. auto.
Qed.

(* ================================================================== *)
(** ** Aging report *)

Import AccountsReceivableService.

Lemma bucket_range_of_days (b : Bucket) (days_overdue : Z) :
  bucket_range b days_overdue = true <-> bucket_of_days days_overdue = b.
Proof.
  unfold bucket_of_days, bucket_range.
  destruct (Z.leb_spec days_overdue 0), (Z.leb_spec days_overdue 30),
    (Z.leb_spec days_overdue 60), (Z.leb_spec days_overdue 90); try lia.
  all: destruct b; split; intros Hb; try discriminate Hb; try reflexivity.
  all: rewrite ?andb_true_iff, ?Z.leb_le in *; lia.
Qed.

Lemma get_add_to_bucket_same (b : Bucket) (x : Decimal) (d : AgingBuckets) :
  get_bucket b (add_to_bucket b x d) = bump x (get_bucket b d).
Proof. destruct b; reflexivity. Qed.

Lemma get_add_to_bucket_other (b b' : Bucket) (x : Decimal) (d : AgingBuckets) :
  b' <> b -> get_bucket b (add_to_bucket b' x d) = get_bucket b d.
Proof. destruct b, b'; intros H; try reflexivity; contradiction. Qed.

(** The loop of the report, from any intermediate state of its accumulators. *)
Lemma age_invoices_fold (as_of_date : date) (items : list Invoice.t) :
  forall (buckets : AgingBuckets) (total : Decimal),
    let r := fold_left (age_invoice as_of_date) items (buckets, total) in
    (forall b,
       amount (get_bucket b (fst r))
       = (amount (get_bucket b buckets)
          + sum (map outstanding (in_bucket b as_of_date items)))%Z
       /\ count (get_bucket b (fst r))
          = (count (get_bucket b buckets)
             + List.length (in_bucket b as_of_date items))%nat)
    /\ snd r = (total + sum (map outstanding items))%Z.
Proof.
  induction items as [|i items IH]; intros buckets total.
  - simpl. split; [intros b; split|]; rewrite ?sum_nil; lia.
  - cbn [fold_left].
    change (age_invoice as_of_date (buckets, total) i)
      with (add_to_bucket (bucket_of_days (as_of_date - Invoice.due_date i))
              (Invoice.total_amount i - Invoice.paid_amount i) buckets,
            (total + (Invoice.total_amount i - Invoice.paid_amount i))%Z).
    specialize (IH (add_to_bucket (bucket_of_days (as_of_date - Invoice.due_date i))
                      (Invoice.total_amount i - Invoice.paid_amount i) buckets)
                   (total + (Invoice.total_amount i - Invoice.paid_amount i))%Z).
    cbv zeta in IH |- *. destruct IH as [IHb IHt]. split.
    + intros b. destruct (IHb b) as [Ha Hc].
      split; [etransitivity; [exact Ha|] | etransitivity; [exact Hc|]].
      all: unfold in_bucket; cbn [filter]; fold (in_bucket b as_of_date items).
      all: destruct (bucket_range b (as_of_date - Invoice.due_date i)) eqn:E;
        [ apply bucket_range_of_days in E; rewrite E, get_add_to_bucket_same;
          cbn [map List.length bump amount count]; rewrite ?sum_cons;
          unfold outstanding; lia
        | rewrite get_add_to_bucket_other;
          [ lia | intros Hb; apply bucket_range_of_days in Hb; congruence ] ].
    + etransitivity; [exact IHt|]. cbn [map]. rewrite sum_cons.
      unfold outstanding. lia.
Qed.

Lemma filter_filter {A : Type} (p q : A -> bool) (l : list A) :
  filter q (filter p l) = filter (fun x => p x && q x) l.
Proof.
  induction l as [|x l IH]; simpl; [reflexivity|].
  destruct (p x); simpl; [destruct (q x)|]; now rewrite IH.
Qed.

(** The query of the report selects the open items due on or before the date. *)
Lemma unpaid_invoices_aged_items (invoices : list Invoice.t) (as_of_date : date)
  (customer_id : option Z) :
  unpaid_invoices invoices as_of_date customer_id
  = aged_items invoices as_of_date customer_id.
Proof.
  unfold unpaid_invoices, aged_items, open_item.
  destruct (truthy customer_id) as [c|].
  - rewrite filter_filter. apply filter_ext. intros i.
    destruct (String.eqb _ _), (Invoice.due_date i <=? as_of_date)%Z,
      (Invoice.paid_amount i <? Invoice.total_amount i)%Z; reflexivity.
  - apply filter_ext. intros i.
    destruct (String.eqb _ _), (Invoice.due_date i <=? as_of_date)%Z,
      (Invoice.paid_amount i <? Invoice.total_amount i)%Z; reflexivity.
Qed.

(** C9, as the code has it.  The report covers the open items (sent, not fully
    paid, of the customer asked for) that are due on or before [as_of_date].
    Each of them is classified by [as_of_date - due_date] into [current]
    (at most 0), 1-30, 31-60, 61-90 or over 90 days, and every bucket holds
    the sum of the outstanding amounts [total_amount - paid_amount] and the
    number of its items.  An item not yet due on [as_of_date] is not covered
    at all, so the items of the [current] bucket are those due exactly on
    [as_of_date]. *)
Theorem generate_aging_report_spec (invoices : list Invoice.t) (as_of_date : date)
  (customer_id : option Z) :
  let report := generate_aging_report invoices as_of_date customer_id in
  let covered := aged_items invoices as_of_date customer_id in
  (forall b,
     get_bucket b (aging_buckets report)
     = mk_BucketTotal (sum (map outstanding (in_bucket b as_of_date covered)))
                      (List.length (in_bucket b as_of_date covered)))
  /\ total_outstanding report = sum (map outstanding covered)
  /\ total_invoices report = List.length covered
  /\ (forall i, In i invoices -> (as_of_date < Invoice.due_date i)%Z -> ~ In i covered)
  /\ (forall i, In i (in_bucket current as_of_date covered)
                -> Invoice.due_date i = as_of_date).
Proof.
  intros report covered. subst report. unfold generate_aging_report.
  rewrite unpaid_invoices_aged_items. fold covered.
  set (r := fold_left (age_invoice as_of_date) covered _).
  assert (H : (forall b,
                 amount (get_bucket b (fst r))
                 = sum (map outstanding (in_bucket b as_of_date covered))
                 /\ count (get_bucket b (fst r))
                    = List.length (in_bucket b as_of_date covered))
              /\ snd r = sum (map outstanding covered)).
  { destruct (age_invoices_fold as_of_date covered empty_buckets 0) as [Hb Ht].
    split; [|etransitivity; [exact Ht | apply Z.add_0_l]].
    intros b. destruct (Hb b) as [Ha Hc].
    split; [etransitivity; [exact Ha|] | etransitivity; [exact Hc|]];
      now destruct b. }
  clearbody r. destruct r as [buckets total].
  destruct H as [Hb Ht]. cbn [fst snd] in Hb, Ht.
  cbn [aging_buckets total_outstanding total_invoices].
  split; [|split; [|split; [|split]]].
  - intros b. destruct (Hb b) as [Ha Hc].
    destruct (get_bucket b buckets) as [a n]. cbn [amount count] in Ha, Hc.
    now rewrite Ha, Hc.
  - exact Ht.
  - reflexivity.
  - intros i _ Hlate Hin. unfold covered, aged_items in Hin.
    apply filter_In in Hin. destruct Hin as [_ Hp].
    rewrite !andb_true_iff in Hp. destruct Hp as [[_ Hdue] _].
    apply Z.leb_le in Hdue. lia.
  - intros i Hin. unfold in_bucket in Hin. apply filter_In in Hin.
    destruct Hin as [Hin Hcur]. unfold covered, aged_items in Hin.
    apply filter_In in Hin. destruct Hin as [_ Hp].
    rewrite !andb_true_iff in Hp. destruct Hp as [[_ Hdue] _].
    apply Z.leb_le in Hdue. simpl in Hcur. apply Z.leb_le in Hcur. lia.
Qed.

(** Three open invoices on 2024-01-31: the one due the next day is not
    covered by the report. *)
Lemma generate_aging_report_spec_witness :
  ~ In Sample.inv_not_due
       (aged_items [Sample.inv_not_due; Sample.inv_due_today; Sample.inv_late]
                   Sample.jan_31 None).
Proof.
  apply (proj1 (proj2 (proj2 (proj2
           (generate_aging_report_spec
              [Sample.inv_not_due; Sample.inv_due_today; Sample.inv_late]
              Sample.jan_31 None))))).
  - simpl. auto.
  - vm_compute. reflexivity.
Defined.

(** C9 as stated fails: of three open invoices on 2024-01-31, the one that is
    not yet due is counted in no bucket; the [current] bucket holds only the
    invoice due that day, and the report counts two invoices. *)
Lemma generate_aging_report_skips_not_due :
  open_item Sample.inv_not_due = true
  /\ (Sample.jan_31 - Invoice.due_date Sample.inv_not_due <= 0)%Z
  /\ let report :=
       generate_aging_report
         [Sample.inv_not_due; Sample.inv_due_today; Sample.inv_late]
         Sample.jan_31 None in
     b_current (aging_buckets report) = mk_BucketTotal 5000 1
     /\ b_1_30_days (aging_buckets report) = mk_BucketTotal 0 0
     /\ b_31_60_days (aging_buckets report) = mk_BucketTotal 3000 1
     /\ b_61_90_days (aging_buckets report) = mk_BucketTotal 0 0
     /\ b_over_90_days (aging_buckets report) = mk_BucketTotal 0 0
     /\ total_invoices report = 2%nat.
Proof. vm_compute. repeat split; discriminate. Qed.

(* ================================================================== *)
(** * Further properties of the services *)

(** ** What a call does to the journal table *)

(** A call leaves the journal table as it was, or appends one new draft whose
    books agree, or saves one existing row that was not posted and whose
    books agree if they did. *)
Lemma call_effect (db : Db) (c : Call) :
  journal_entries (call db c) = journal_entries db
  \/ (exists r, call db c = add_entry r db
                /\ JournalEntry.id r = next_id (map JournalEntry.id (journal_entries db))
                /\ JournalEntry.status r = Draft
                /\ books_agree r)
  \/ (exists e0 e', call db c = save_entry e' db
                    /\ get_journal_entry db (JournalEntry.id e') = Some e0
                    /\ JournalEntry.status e0 <> Posted
                    /\ (books_agree e0 -> books_agree e')).
Proof.
  assert (Hcreate : forall now entry,
    let db' := committed (create_journal_entry now entry db) db in
    journal_entries db' = journal_entries db
    \/ (exists r, db' = add_entry r db
                  /\ JournalEntry.id r = next_id (map JournalEntry.id (journal_entries db))
                  /\ JournalEntry.status r = Draft
                  /\ books_agree r)).
  { intros now entry.
    destruct (create_journal_entry now entry db) as [[r db1]|err] eqn:E; simpl;
      [|now left].
    destruct (create_journal_entry_inv _ _ _ _ _ E) as (-> & He & Hbal & _).
    right. exists r. rewrite He. unfold books_agree. simpl.
    rewrite db_line_debits, db_line_credits. repeat split; auto. }
  destruct c as [now a | now i u | now i | now entry | now i u | now i | now i reason
                | now i rd]; simpl.
  - left. unfold GeneralLedgerService.create_account.
    destruct (find _ (chart_of_accounts db)); simpl; [reflexivity|].
    destruct (truthy _) as [p|]; simpl; [|reflexivity].
    destruct (GeneralLedgerService.get_account db p); reflexivity.
  - left. unfold GeneralLedgerService.update_account.
    destruct (GeneralLedgerService.get_account db i); reflexivity.
  - left. unfold GeneralLedgerService.delete_account.
    destruct (GeneralLedgerService.get_account db i); simpl; [|reflexivity].
    destruct (Nat.ltb 0 _); reflexivity.
  - destruct (Hcreate now entry) as [H | H]; [now left | right; now left].
  - unfold update_journal_entry.
    destruct (get_journal_entry db i) as [e0|] eqn:Hget; simpl; [|now left].
    pose proof (get_journal_entry_id _ _ _ Hget) as Hid.
    pose proof (update_basic_fields_scalars u e0) as (H1 & _).
    pose proof (update_basic_fields_rest u e0) as (Hl & Hd & Hc & Hb).
    destruct (Status_eqb (JournalEntry.status e0) Posted) eqn:Hp; simpl; [now left|].
    assert (Hst : JournalEntry.status e0 <> Posted).
    { intros Hs. rewrite Hs in Hp. discriminate Hp. }
    destruct (JournalEntryUpdate.journal_lines u) as [ls|]; simpl.
    + destruct (update_lines db i ls 0 0) as [[[x d] cr]|err] eqn:EU; simpl;
        [|now left].
      destruct (update_lines_inv _ _ _ _ _ _ _ _ EU) as (-> & -> & ->).
      rewrite !Z.add_0_l.
      destruct (Z.eqb_spec (sum (map JournalLineCreate.debit_amount ls))
                           (sum (map JournalLineCreate.credit_amount ls)))
        as [Heq|Hne]; simpl; [|now left].
      right. right. eexists e0, _. split; [reflexivity|]. simpl.
      rewrite H1, Hid. split; [exact Hget|]. split; [exact Hst|].
      intros _. unfold books_agree. simpl.
      rewrite db_line_debits, db_line_credits.
      repeat split; auto.
    + right. right. eexists e0, _. split; [reflexivity|]. simpl.
      rewrite H1, Hid. split; [exact Hget|]. split; [exact Hst|].
      unfold books_agree. simpl. rewrite Hl, Hd, Hc, Hb. tauto.
  - unfold post_journal_entry.
    destruct (get_journal_entry db i) as [e0|] eqn:Hget; simpl; [|now left].
    pose proof (get_journal_entry_id _ _ _ Hget) as Hid.
    destruct (JournalEntry.status e0) eqn:Hst; simpl; try now left.
    destruct (JournalEntry.is_balanced e0); simpl; [|now left].
    right. right. eexists e0, _. split; [reflexivity|]. simpl.
    rewrite Hid, Hst. split; [exact Hget|]. split; [discriminate|].
    unfold books_agree. simpl. tauto.
  - unfold void_journal_entry.
    destruct (get_journal_entry db i) as [e0|] eqn:Hget; simpl; [|now left].
    pose proof (get_journal_entry_id _ _ _ Hget) as Hid.
    destruct (JournalEntry.status e0) eqn:Hst; simpl; try now left.
    right. right. eexists e0, _. split; [reflexivity|]. simpl.
    rewrite Hid, Hst. split; [exact Hget|]. split; [discriminate|].
    unfold books_agree. simpl. tauto.
  - unfold create_reversing_entry.
    destruct (get_journal_entry db i) as [e0|]; simpl; [|now left].
    destruct (negb _); simpl; [now left|].
    match goal with |- context [create_journal_entry now ?x db] =>
      destruct (Hcreate now x) as [H | H] end; [now left | right; now left].
Qed.

(** ** The books of every entry agree *)

Lemma books_agree_call (db : Db) (c : Call) :
  Forall books_agree (journal_entries db) ->
  Forall books_agree (journal_entries (call db c)).
Proof.
  intros Hb. rewrite Forall_forall in Hb.
  destruct (call_effect db c)
    as [H | [(r & -> & _ & _ & Hr) | (e0 & e' & -> & Hg & _ & He')]].
  - rewrite H. now apply Forall_forall.
  - simpl. apply Forall_app. split; [now apply Forall_forall | now constructor].
  - apply Forall_forall. intros e He. simpl in He. apply in_put in He.
    destruct He as [-> | He]; [|now apply Hb].
    apply He', Hb. exact (proj2 (lookup_some _ _ _ _ Hg)).
Qed.

Lemma books_agree_run (calls : list Call) (db : Db) :
  Forall books_agree (journal_entries db) ->
  Forall books_agree (journal_entries (run db calls)).
Proof.
  revert db. induction calls as [|c calls IH]; intros db H; simpl; [exact H|].
  apply IH. now apply books_agree_call.
Qed.


(** X2.  In the ledger reached from the empty one by any sequence of calls,
    posting an existing draft always succeeds and leaves it posted: the
    unbalanced check of [post_journal_entry] never fires there. *)
Theorem post_draft_succeeds (calls : list Call) (now : datetime) (entry_id : Z)
  (e : JournalEntry.t) :
  let db := run empty_db calls in
  get_journal_entry db entry_id = Some e ->
  JournalEntry.status e = Draft ->
  exists e' db',
    post_journal_entry now entry_id db = Ok (true, db')
    /\ get_journal_entry db' entry_id = Some e'
    /\ JournalEntry.status e' = Posted
    /\ JournalEntry.posted_at e' = Some now.
Proof.
  intros db Hget Hst.
  assert (Hb : books_agree e).
  { pose proof (books_agree_run calls empty_db (Forall_nil _)) as H.
    rewrite Forall_forall in H. apply H.
    exact (proj2 (lookup_some _ _ _ _ Hget)). }
  destruct Hb as (_ & _ & _ & Hbal).
  unfold post_journal_entry. rewrite Hget, Hst, Hbal. simpl.
  eexists. eexists. split; [reflexivity|]. split.
  - eapply get_save_entry_same; [exact Hget|]. simpl.
    exact (get_journal_entry_id _ _ _ Hget).
  - split; reflexivity.
Qed.

(** The draft cash sale can be posted. *)
Lemma post_draft_succeeds_witness :
  exists e' db',
    post_journal_entry Sample.t2 1 Sample.db_draft = Ok (true, db')
    /\ get_journal_entry db' 1 = Some e'
    /\ JournalEntry.status e' = Posted
    /\ JournalEntry.posted_at e' = Some Sample.t2.
Proof.
  destruct (get_journal_entry Sample.db_draft 1) as [e|] eqn:E; [|discriminate E].
  apply (post_draft_succeeds Sample.draft_calls Sample.t2 1 e E).
  vm_compute in E. inversion E. reflexivity.
Defined.

(** ** Posted entries are frozen *)

Lemma posted_entry_kept (db : Db) (c : Call) (entry_id : Z) (e : JournalEntry.t) :
  get_journal_entry db entry_id = Some e ->
  JournalEntry.status e = Posted ->
  get_journal_entry (call db c) entry_id = Some e.
Proof.
  intros Hget Hst.
  destruct (call_effect db c) as [H | [(r & -> & _) | (e0 & e' & -> & Hg & Hnp & _)]].
  - now rewrite (get_same_table _ _ _ H).
  - now apply get_add_entry_old.
  - destruct (Z.eq_dec entry_id (JournalEntry.id e')) as [-> | Hne].
    + rewrite Hg in Hget. inversion Hget. subst. contradiction.
    + now rewrite get_save_entry_other.
Qed.

(** X3.  Once an entry is posted, no sequence of calls changes anything of
    it: after the calls the entry stored under its id is the same row, with
    the same lines, totals, dates, texts and stamps. *)
Theorem posted_entry_frozen (db : Db) (calls : list Call) (entry_id : Z)
  (e : JournalEntry.t) :
  get_journal_entry db entry_id = Some e ->
  JournalEntry.status e = Posted ->
  get_journal_entry (run db calls) entry_id = Some e.
Proof.
  revert db. induction calls as [|c calls IH]; intros db Hget Hst; simpl.
  - exact Hget.
  - apply IH; [|exact Hst]. now apply posted_entry_kept.
Qed.

(** The posted cash sale after an update, a void, a second post and a
    reversal were tried on it. *)
Lemma posted_entry_frozen_witness :
  get_journal_entry
    (run Sample.db_posted
         [UpdateEntry Sample.t2 1 Sample.correction;
          VoidEntry Sample.t2 1 "too late";
          PostEntry Sample.t2 1;
          ReverseEntry Sample.t2 1 Sample.jan_31])
    1
  = get_journal_entry Sample.db_posted 1.
Proof.
  destruct (get_journal_entry Sample.db_posted 1) as [e|] eqn:E; [|discriminate E].
  apply (posted_entry_frozen Sample.db_posted _ 1 e E).
  vm_compute in E. inversion E. reflexivity.
Defined.

(** ** Entries are never removed or renumbered *)

Lemma entry_identity_call (db : Db) (c : Call) (entry_id : Z) (e : JournalEntry.t) :
  get_journal_entry db entry_id = Some e ->
  exists e', get_journal_entry (call db c) entry_id = Some e'
             /\ JournalEntry.entry_number e' = JournalEntry.entry_number e
             /\ JournalEntry.created_at e' = JournalEntry.created_at e.
Proof.
  intros Hget.
  destruct (call_shape db c)
    as [H | [(r & -> & _) | (e0 & e' & -> & Hg & _ & Hn & Hc & _)]].
  - exists e. now rewrite (get_same_table _ _ _ H).
  - exists e. split; [now apply get_add_entry_old | auto].
  - destruct (Z.eq_dec entry_id (JournalEntry.id e')) as [-> | Hne].
    + exists e'. split; [now apply get_save_entry_same with e0|].
      rewrite Hg in Hget. inversion Hget. subst. auto.
    + exists e. now rewrite get_save_entry_other.
Qed.

Lemma entries_grow_call (db : Db) (c : Call) :
  (List.length (journal_entries db) <= List.length (journal_entries (call db c)))%nat.
Proof.
  destruct (call_shape db c) as [H | [(r & -> & _) | (e0 & e' & -> & _)]].
  - now rewrite H.
  - simpl. rewrite length_app. lia.
  - simpl. unfold put. now rewrite length_map.
Qed.

(** X4.  No sequence of calls removes or renumbers a journal entry: an entry
    that exists is still stored under its id afterwards, with the entry
    number and the creation time it had, and the journal table never gets
    shorter. *)
Theorem entries_keep_identity (db : Db) (calls : list Call) (entry_id : Z)
  (e : JournalEntry.t) :
  get_journal_entry db entry_id = Some e ->
  (exists e', get_journal_entry (run db calls) entry_id = Some e'
              /\ JournalEntry.id e' = entry_id
              /\ JournalEntry.entry_number e' = JournalEntry.entry_number e
              /\ JournalEntry.created_at e' = JournalEntry.created_at e)
  /\ (List.length (journal_entries db)
      <= List.length (journal_entries (run db calls)))%nat.
Proof.
  revert db e. induction calls as [|c calls IH]; intros db e Hget; simpl.
  - split; [|lia]. exists e. repeat split; auto.
    exact (get_journal_entry_id _ _ _ Hget).
  - destruct (entry_identity_call db c entry_id e Hget) as (e1 & Hget1 & Hn1 & Hc1).
    destruct (IH _ _ Hget1) as [(e' & Hget' & Hid & Hn & Hc) Hlen].
    split.
    + exists e'. repeat split; auto; congruence.
    + pose proof (entries_grow_call db c). lia.
Qed.

(** The voided cash sale keeps its number through a correction. *)
Lemma entries_keep_identity_witness :
  exists e', get_journal_entry
               (run Sample.db_void [UpdateEntry Sample.t2 1 Sample.correction]) 1
             = Some e'
             /\ JournalEntry.entry_number e' = "JE-2024-00001".
Proof.
  destruct (get_journal_entry Sample.db_void 1) as [e|] eqn:E; [|discriminate E].
  destruct (entries_keep_identity Sample.db_void
              [UpdateEntry Sample.t2 1 Sample.correction] 1 e E)
    as [(e' & Hget & _ & Hn & _) _].
  exists e'. split; [exact Hget|]. rewrite Hn.
  vm_compute in E. inversion E. reflexivity.
Defined.

(** ** A posted reversal cancels the original *)

Lemma sum_app (l1 l2 : list Z) : sum (l1 ++ l2) = (sum l1 + sum l2)%Z.
Proof.
  unfold sum. rewrite fold_left_app. apply fold_add_shift.
Qed.

Lemma put_fresh_last (r r' : JournalEntry.t) (rows : list JournalEntry.t) :
  JournalEntry.id r = JournalEntry.id r' ->
  (forall x, In x rows -> JournalEntry.id x <> JournalEntry.id r') ->
  put JournalEntry.id r' (rows ++ [r]) = rows ++ [r'].
Proof.
  intros Hid Hfresh. unfold put. rewrite map_app. simpl.
  rewrite Hid, Z.eqb_refl. f_equal.
  rewrite <- (map_id rows) at 2. apply map_ext_in. intros x Hx.
  destruct (Z.eqb_spec (JournalEntry.id x) (JournalEntry.id r')); [|reflexivity].
  exfalso. now apply (Hfresh x Hx).
Qed.

Lemma filter_reversed_lines (a entry_id : Z) (n : string) (lines : list JournalLine.t) :
  filter (fun l => (JournalLine.account_id l =? a)%Z)
         (map (db_line entry_id) (map (reversing_line n) lines))
  = map (db_line entry_id)
        (map (reversing_line n)
             (filter (fun l => (JournalLine.account_id l =? a)%Z) lines)).
Proof.
  induction lines as [|l lines IH]; simpl; [reflexivity|].
  destruct (JournalLine.account_id l =? a)%Z; simpl; now rewrite IH.
Qed.

Lemma db_line_debits_of (entry_id : Z) (n : string) (lines : list JournalLine.t) :
  map JournalLine.debit_amount
      (map (db_line entry_id) (map (reversing_line n) lines))
  = map JournalLine.credit_amount lines.
Proof. rewrite !map_map. reflexivity. Qed.

Lemma db_line_credits_of (entry_id : Z) (n : string) (lines : list JournalLine.t) :
  map JournalLine.credit_amount
      (map (db_line entry_id) (map (reversing_line n) lines))
  = map JournalLine.debit_amount lines.
Proof. rewrite !map_map. reflexivity. Qed.



(* ================================================================== *)
(** ** The chart of accounts *)

Section PutLemmas.

Context {R : Type} (key : R -> Z).

Lemma in_put_key (r r' : R) (rows : list R) :
  In r (put key r' rows) -> key r = key r' -> r = r'.
Proof.
  unfold put. intros H Hk. apply in_map_iff in H. destruct H as (x & Hx & _).
  destruct (Z.eqb_spec (key x) (key r')); congruence.
Qed.

Lemma sorted_keys_unique (rows : list R) (r r' : R) :
  StronglySorted Z.lt (map key rows) ->
  In r rows -> In r' rows -> key r = key r' -> r = r'.
Proof.
  induction rows as [|x rows IH]; simpl; intros Hs Hr Hr' Hid; [contradiction|].
  inversion Hs as [|? ? Hs' Hall]; subst. rewrite Forall_forall in Hall.
  destruct Hr as [-> | Hr], Hr' as [-> | Hr'].
  - reflexivity.
  - pose proof (Hall _ (in_map key _ _ Hr')). lia.
  - pose proof (Hall _ (in_map key _ _ Hr)). lia.
  - now apply IH.
Qed.

(** Saving a row that agrees with the stored one on a column leaves the
    column of the table as it was. *)
Lemma put_column {B : Type} (g : R -> B) (r0 r' : R) (rows : list R) :
  StronglySorted Z.lt (map key rows) ->
  In r0 rows -> key r0 = key r' -> g r' = g r0 ->
  map g (put key r' rows) = map g rows.
Proof.
  intros Hs Hin Hk Hg. unfold put. rewrite map_map. apply map_ext_in.
  intros x Hx. destruct (Z.eqb_spec (key x) (key r')) as [E|]; [|reflexivity].
  assert (x = r0) as -> by (apply (sorted_keys_unique rows); auto; congruence).
  exact Hg.
Qed.

End PutLemmas.

Lemma get_account_id (db : Db) (a : ChartOfAccounts.t) (account_id : Z) :
  GeneralLedgerService.get_account db account_id = Some a ->
  ChartOfAccounts.id a = account_id /\ In a (chart_of_accounts db).
Proof. apply lookup_some. Qed.

Lemma code_taken_find (db : Db) (code : string) :
  code_taken db code
  <-> exists a, find (fun a => String.eqb (ChartOfAccounts.account_code a) code)
                     (chart_of_accounts db) = Some a.
Proof.
  unfold code_taken. split.
  - intros (a & Hin & Hc).
    destruct (find _ (chart_of_accounts db)) as [x|] eqn:E; [now exists x|].
    pose proof (find_none _ _ E a Hin) as Hn. simpl in Hn.
    rewrite Hc, String.eqb_refl in Hn. discriminate Hn.
  - intros (a & H). apply find_some in H. destruct H as [Hin Hc].
    exists a. split; [exact Hin | now apply String.eqb_eq].
Qed.

Lemma update_fields_identity (u : ChartOfAccountsUpdate.t) (a : ChartOfAccounts.t) :
  ChartOfAccounts.id (GeneralLedgerService.update_fields u a) = ChartOfAccounts.id a
  /\ ChartOfAccounts.account_code (GeneralLedgerService.update_fields u a)
     = ChartOfAccounts.account_code a
  /\ ChartOfAccounts.is_system_account (GeneralLedgerService.update_fields u a)
     = ChartOfAccounts.is_system_account a
  /\ ChartOfAccounts.created_at (GeneralLedgerService.update_fields u a)
     = ChartOfAccounts.created_at a.
Proof.
  unfold GeneralLedgerService.update_fields.
  destruct u as [n t c p d act nb]; destruct n, t, c, p, d, act, nb; simpl;
    repeat split; reflexivity.
Qed.

(** A call leaves the chart as it was, or appends one account with a new
    code, or saves one existing account with its id, code, system flag and
    creation time. *)
Lemma call_chart_effect (db : Db) (c : Call) :
  chart_of_accounts (call db c) = chart_of_accounts db
  \/ (exists a, chart_of_accounts (call db c) = chart_of_accounts db ++ [a]
                /\ ChartOfAccounts.id a
                   = next_id (map ChartOfAccounts.id (chart_of_accounts db))
                /\ ~ code_taken db (ChartOfAccounts.account_code a))
  \/ (exists a0 a', chart_of_accounts (call db c)
                    = put ChartOfAccounts.id a' (chart_of_accounts db)
                    /\ GeneralLedgerService.get_account db (ChartOfAccounts.id a')
                       = Some a0
                    /\ ChartOfAccounts.account_code a' = ChartOfAccounts.account_code a0
                    /\ ChartOfAccounts.is_system_account a'
                       = ChartOfAccounts.is_system_account a0
                    /\ ChartOfAccounts.created_at a' = ChartOfAccounts.created_at a0).
Proof.
  destruct c as [now a | now i u | now i | now entry | now i u | now i | now i reason
                | now i rd].
  - simpl. unfold GeneralLedgerService.create_account.
    destruct (find _ (chart_of_accounts db)) as [x|] eqn:E; simpl; [now left|].
    assert (Hfree : ~ code_taken db (ChartOfAccountsCreate.account_code a)).
    { intros H. apply code_taken_find in H. destruct H as [x Hx]. congruence. }
    destruct (truthy _) as [p|]; simpl.
    + destruct (GeneralLedgerService.get_account db p); simpl; [|now left].
      right. left. eexists. split; [reflexivity|]. simpl. auto.
    + right. left. eexists. split; [reflexivity|]. simpl. auto.
  - simpl. unfold GeneralLedgerService.update_account.
    destruct (GeneralLedgerService.get_account db i) as [a0|] eqn:Hget; simpl;
      [|now left].
    destruct (get_account_id _ _ _ Hget) as [Hid _].
    destruct (update_fields_identity u a0) as (H1 & H2 & H3 & H4).
    right. right. eexists a0, _. split; [reflexivity|]. simpl.
    rewrite H1, Hid. auto.
  - simpl. unfold GeneralLedgerService.delete_account.
    destruct (GeneralLedgerService.get_account db i) as [a0|] eqn:Hget; simpl;
      [|now left].
    destruct (get_account_id _ _ _ Hget) as [Hid _].
    destruct (Nat.ltb 0 _); simpl; [now left|].
    right. right. eexists a0, _. split; [reflexivity|]. simpl.
    rewrite Hid. auto.
  - left. destruct (call_effect db (CreateEntry now entry))
      as [H | [(r & -> & _) | (e0 & e' & -> & _)]]; try reflexivity.
    simpl in *. destruct (create_journal_entry now entry db) as [[r db1]|err] eqn:E;
      simpl; [|reflexivity].
    now destruct (create_journal_entry_inv _ _ _ _ _ E) as (-> & _).
  - left. simpl. unfold update_journal_entry.
    destruct (get_journal_entry db i); simpl; [|reflexivity].
    destruct (Status_eqb _ _); simpl; [reflexivity|].
    destruct (JournalEntryUpdate.journal_lines u) as [ls|]; simpl; [|reflexivity].
    destruct (update_lines db i ls 0 0) as [[[x d] cr]|err]; simpl; [|reflexivity].
    destruct (d =? cr)%Z; reflexivity.
  - left. simpl. unfold post_journal_entry.
    destruct (get_journal_entry db i) as [e0|]; simpl; [|reflexivity].
    destruct (JournalEntry.status e0); simpl; try reflexivity.
    destruct (JournalEntry.is_balanced e0); reflexivity.
  - left. simpl. unfold void_journal_entry.
    destruct (get_journal_entry db i) as [e0|]; simpl; [|reflexivity].
    destruct (JournalEntry.status e0); reflexivity.
  - left. simpl. unfold create_reversing_entry.
    destruct (get_journal_entry db i) as [e0|]; simpl; [|reflexivity].
    destruct (negb _); simpl; [reflexivity|].
    match goal with |- context [create_journal_entry now ?x db] =>
      destruct (create_journal_entry now x db) as [[r db1]|err] eqn:E end;
      simpl; [|reflexivity].
    now destruct (create_journal_entry_inv _ _ _ _ _ E) as (-> & _).
Qed.

Lemma keyed_chart_call (db : Db) (c : Call) : keyed_chart db -> keyed_chart (call db c).
Proof.
  intros [Hs Hc].
  destruct (call_chart_effect db c)
    as [H | [(a & H & Hid & Hfree) | (a0 & a' & H & Hg & Hcode & _)]];
    unfold keyed_chart; rewrite H.
  - auto.
  - rewrite !map_app. simpl. split.
    + apply sorted_snoc; [exact Hs|]. intros j Hj. rewrite Hid.
      now apply next_id_above.
    + apply NoDup_app; [exact Hc | repeat constructor; intros [] |].
      intros code Hin [<- | []]. apply Hfree. apply in_map_iff in Hin.
      destruct Hin as (x & Hx & Hin). now exists x.
  - destruct (get_account_id _ _ _ Hg) as [Hk Hin]. split.
    + now rewrite put_keys.
    + now rewrite (put_column ChartOfAccounts.id ChartOfAccounts.account_code a0 a').
Qed.

(** X6.  In the ledger reached from the empty one by any sequence of calls,
    the primary keys of the chart of accounts grow along the table and no
    two accounts, active or not, share an account code. *)
Theorem chart_stays_keyed (calls : list Call) : keyed_chart (run empty_db calls).
Proof.
  assert (H : forall db, keyed_chart db -> keyed_chart (run db calls)).
  { induction calls as [|c calls IH]; intros db Hk; simpl; [exact Hk|].
    apply IH. now apply keyed_chart_call. }
  apply H. split; constructor.
Qed.

Lemma account_identity_call (db : Db) (c : Call) (account_id : Z)
  (a : ChartOfAccounts.t) :
  GeneralLedgerService.get_account db account_id = Some a ->
  exists a', GeneralLedgerService.get_account (call db c) account_id = Some a'
             /\ ChartOfAccounts.account_code a' = ChartOfAccounts.account_code a
             /\ ChartOfAccounts.is_system_account a'
                = ChartOfAccounts.is_system_account a
             /\ ChartOfAccounts.created_at a' = ChartOfAccounts.created_at a.
Proof.
  intros Hget. unfold GeneralLedgerService.get_account in *.
  destruct (call_chart_effect db c)
    as [H | [(x & H & _) | (a0 & a' & H & Hg & Hcode & Hsys & Hat)]]; rewrite H.
  - exists a. auto.
  - exists a. rewrite lookup_app_last, Hget. auto.
  - unfold GeneralLedgerService.get_account in Hg.
    destruct (Z.eq_dec account_id (ChartOfAccounts.id a')) as [-> | Hne].
    + exists a'. rewrite (lookup_put_same _ a0 a' _ Hg).
      rewrite Hg in Hget. inversion Hget. subst. auto.
    + exists a. rewrite lookup_put_other by exact Hne. auto.
Qed.

(** X7.  No sequence of calls removes an account or changes its identity: an
    account that exists is still stored under its id afterwards, with the
    account code, the system flag and the creation time it had (deleting
    only clears [is_active], updating cannot reach these columns). *)
Theorem accounts_keep_identity (db : Db) (calls : list Call) (account_id : Z)
  (a : ChartOfAccounts.t) :
  GeneralLedgerService.get_account db account_id = Some a ->
  exists a', GeneralLedgerService.get_account (run db calls) account_id = Some a'
             /\ ChartOfAccounts.id a' = account_id
             /\ ChartOfAccounts.account_code a' = ChartOfAccounts.account_code a
             /\ ChartOfAccounts.is_system_account a'
                = ChartOfAccounts.is_system_account a
             /\ ChartOfAccounts.created_at a' = ChartOfAccounts.created_at a.
Proof.
  revert db a. induction calls as [|c calls IH]; intros db a Hget; simpl.
  - exists a. repeat split; auto. exact (proj1 (get_account_id _ _ _ Hget)).
  - destruct (account_identity_call db c account_id a Hget)
      as (a1 & Hget1 & Hc1 & Hs1 & Ht1).
    destruct (IH _ _ Hget1) as (a' & Hget' & Hid & Hc & Hs & Ht).
    exists a'. repeat split; auto; congruence.
Qed.

(** The cash account after it was deleted and an update tried to rename it. *)
Lemma accounts_keep_identity_witness :
  exists a',
    GeneralLedgerService.get_account
      (run Sample.db_accounts
           [DeleteAccount Sample.t1 1;
            UpdateAccount Sample.t2 1
              (ChartOfAccountsUpdate.mk (Some "Till") None None None None None None)])
      1 = Some a'
    /\ ChartOfAccounts.account_code a' = "1000".
Proof.
  destruct (GeneralLedgerService.get_account Sample.db_accounts 1) as [a|] eqn:E;
    [|discriminate E].
  destruct (accounts_keep_identity Sample.db_accounts
              [DeleteAccount Sample.t1 1;
               UpdateAccount Sample.t2 1
                 (ChartOfAccountsUpdate.mk (Some "Till") None None None None None None)]
              1 a E) as (a' & Hget & _ & Hc & _).
  exists a'. split; [exact Hget|]. rewrite Hc.
  vm_compute in E. inversion E. reflexivity.
Defined.

(** ** Creating an account *)

(** X8.  [create_account] raises the duplicate-code error exactly when some
    account, active or not, already has the code.  Otherwise a parent id
    that is neither null nor 0 must be the id of an existing account, active
    or not, or the parent-not-found error is raised; a parent id of 0 is not
    looked up.  When neither error is raised the new account is stored as
    given and is what a lookup of its id returns, every other account is
    found as before and the journal is untouched. *)
Theorem create_account_spec (db : Db) (now : datetime)
  (account : ChartOfAccountsCreate.t) :
  let code := ChartOfAccountsCreate.account_code account in
  let parent := ChartOfAccountsCreate.parent_account_id account in
  (code_taken db code <->
   GeneralLedgerService.create_account now account db = Raise (DuplicateCode code))
  /\ (~ code_taken db code ->
      forall p, parent = Some p -> p <> 0%Z ->
      GeneralLedgerService.get_account db p = None ->
      GeneralLedgerService.create_account now account db = Raise (ParentNotFound p))
  /\ (~ code_taken db code ->
      (forall p, parent = Some p -> p <> 0%Z ->
                 GeneralLedgerService.get_account db p <> None) ->
      exists a db',
        GeneralLedgerService.create_account now account db = Ok (a, db')
        /\ GeneralLedgerService.get_account db' (ChartOfAccounts.id a) = Some a
        /\ ChartOfAccounts.account_code a = code
        /\ ChartOfAccounts.parent_account_id a = parent
        /\ ChartOfAccounts.is_active a = ChartOfAccountsCreate.is_active account
        /\ ChartOfAccounts.normal_balance a
           = ChartOfAccountsCreate.normal_balance account
        /\ (forall j a0, GeneralLedgerService.get_account db j = Some a0
                         -> GeneralLedgerService.get_account db' j = Some a0)
        /\ journal_entries db' = journal_entries db).
Proof.
  intros code parent. unfold GeneralLedgerService.create_account.
  fold code parent. split; [|split].
  - rewrite code_taken_find. split.
    + intros [a ->]. reflexivity.
    + destruct (find _ (chart_of_accounts db)) as [x|]; [eauto|]. simpl.
      destruct (truthy parent) as [p|]; simpl; [|discriminate].
      destruct (GeneralLedgerService.get_account db p); discriminate.
  - intros Hfree p Hp Hp0 Hnone.
    destruct (find _ (chart_of_accounts db)) as [x|] eqn:E.
    { exfalso. apply Hfree. apply code_taken_find. eauto. }
    simpl. rewrite Hp. simpl.
    destruct (Z.eqb_spec p 0); [contradiction|]. now rewrite Hnone.
  - intros Hfree Hparent.
    destruct (find _ (chart_of_accounts db)) as [x|] eqn:E.
    { exfalso. apply Hfree. apply code_taken_find. eauto. }
    simpl.
    assert (Hok : match truthy parent with
                  | Some p =>
                      match GeneralLedgerService.get_account db p with
                      | Some _ => Ok tt
                      | None => Raise (ParentNotFound p)
                      end
                  | None => Ok tt
                  end = Ok tt).
    { destruct parent as [p|]; simpl; [|reflexivity].
      destruct (Z.eqb_spec p 0); [reflexivity|].
      specialize (Hparent p eq_refl n).
      destruct (GeneralLedgerService.get_account db p); [reflexivity|contradiction]. }
    rewrite Hok. simpl. eexists. eexists. split; [reflexivity|].
    unfold GeneralLedgerService.get_account, GeneralLedgerService.add_account. simpl.
    split.
    + rewrite lookup_app_last, lookup_next_id. simpl. now rewrite Z.eqb_refl.
    + repeat split. intros j a0 Hj. now rewrite lookup_app_last, Hj.
Qed.

(** A second account with the code 1000 is refused, and so is a sub-account
    of account 9, which does not exist. *)
Lemma create_account_spec_witness :
  GeneralLedgerService.create_account Sample.t1 Sample.cash Sample.db_accounts
  = Raise (DuplicateCode "1000")
  /\ GeneralLedgerService.create_account Sample.t1
       (ChartOfAccountsCreate.mk "1020" "Safe" Asset "Current Assets" (Some 9%Z) None
                                 true false DebitNormal)
       Sample.db_accounts
     = Raise (ParentNotFound 9).
Proof.
  split.
  - apply (proj1 (create_account_spec Sample.db_accounts Sample.t1 Sample.cash)).
    apply code_taken_find. vm_compute. eauto.
  - apply (proj1 (proj2 (create_account_spec Sample.db_accounts Sample.t1
             (ChartOfAccountsCreate.mk "1020" "Safe" Asset "Current Assets" (Some 9%Z)
                                       None true false DebitNormal)))).
    + intros H. apply code_taken_find in H. destruct H as [a Ha].
      vm_compute in Ha. discriminate Ha.
    + reflexivity.
    + discriminate.
    + reflexivity.
Defined.

(** ** Deleting an account *)

Lemma delete_account_inv (db db' : Db) (now : datetime) (account_id : Z) :
  GeneralLedgerService.delete_account now account_id db = Ok (true, db') ->
  exists a,
    GeneralLedgerService.get_account db account_id = Some a
    /\ active_children db account_id = []
    /\ db' = GeneralLedgerService.save_account
               (ChartOfAccounts.set_updated_at now
                  (ChartOfAccounts.set_is_active false a)) db.
Proof.
  unfold GeneralLedgerService.delete_account.
  destruct (GeneralLedgerService.get_account db account_id) as [a|]; simpl;
    [|discriminate].
  fold (active_children db account_id).
  destruct (active_children db account_id) as [|x l]; simpl; [|discriminate].
  intros H. inversion H. exists a. auto.
Qed.

Lemma closed_account_unusable (db : Db) (a' : ChartOfAccounts.t) :
  ChartOfAccounts.is_active a' = false ->
  ~ usable_account (GeneralLedgerService.save_account a' db) (ChartOfAccounts.id a').
Proof.
  intros Hoff (x & Hin & Hid & Hact). simpl in Hin.
  apply in_put_key in Hin; [|exact Hid]. subst x. congruence.
Qed.

(** X9.  [delete_account] returns [False] and changes nothing for an unknown
    id.  For an existing account it raises the active-children error,
    carrying their number, when at least one active account has it as
    parent; otherwise, whether or not the account is a system account, is
    already inactive or is referenced by journal lines, it returns [True],
    the stored account has [is_active] false and its code, parent and system
    flag as before, the account is no longer usable for journal lines, and
    the journal is untouched. *)
Theorem delete_account_spec (db : Db) (now : datetime) (account_id : Z) :
  (GeneralLedgerService.get_account db account_id = None ->
   GeneralLedgerService.delete_account now account_id db = Ok (false, db))
  /\ (forall a,
      GeneralLedgerService.get_account db account_id = Some a ->
      let n := List.length (active_children db account_id) in
      ((0 < n)%nat ->
       GeneralLedgerService.delete_account now account_id db
       = Raise (HasActiveChildren n))
      /\ (n = 0%nat ->
          exists a' db',
            GeneralLedgerService.delete_account now account_id db = Ok (true, db')
            /\ GeneralLedgerService.get_account db' account_id = Some a'
            /\ ChartOfAccounts.is_active a' = false
            /\ ChartOfAccounts.account_code a' = ChartOfAccounts.account_code a
            /\ ChartOfAccounts.parent_account_id a'
               = ChartOfAccounts.parent_account_id a
            /\ ChartOfAccounts.is_system_account a'
               = ChartOfAccounts.is_system_account a
            /\ ~ usable_account db' account_id
            /\ journal_entries db' = journal_entries db)).
Proof.
  split.
  - intros H. unfold GeneralLedgerService.delete_account. now rewrite H.
  - intros a Hget n. destruct (get_account_id _ _ _ Hget) as [Hid _].
    unfold GeneralLedgerService.delete_account. rewrite Hget.
    fold (active_children db account_id). fold n. split.
    + intros Hn. apply Nat.ltb_lt in Hn. rewrite Hn. reflexivity.
    + intros ->. simpl. eexists. eexists. split; [reflexivity|]. split.
      * unfold GeneralLedgerService.get_account, GeneralLedgerService.save_account.
        simpl. rewrite <- Hid at 1.
        exact (lookup_put_same ChartOfAccounts.id a
                 (ChartOfAccounts.set_updated_at now
                    (ChartOfAccounts.set_is_active false a)) _
                 ltac:(simpl; rewrite Hid; exact Hget)).
      * repeat split. rewrite <- Hid.
        exact (closed_account_unusable db
                 (ChartOfAccounts.set_updated_at now
                    (ChartOfAccounts.set_is_active false a)) eq_refl).
Qed.

(** Account 1 of the chart with a sub-account cannot be deleted; account 9
    is not there. *)
Lemma delete_account_spec_witness :
  GeneralLedgerService.delete_account Sample.t1 9 Sample.db_tree
  = Ok (false, Sample.db_tree)
  /\ GeneralLedgerService.delete_account Sample.t1 1 Sample.db_tree
     = Raise (HasActiveChildren 1).
Proof.
  split.
  - apply (proj1 (delete_account_spec Sample.db_tree Sample.t1 9)). reflexivity.
  - destruct (GeneralLedgerService.get_account Sample.db_tree 1) as [a|] eqn:E;
      [|discriminate E].
    apply (proj1 (proj2 (delete_account_spec Sample.db_tree Sample.t1 1) a E)).
    vm_compute. lia.
Defined.

Lemma create_journal_entry_bad_line (db : Db) (now : datetime)
  (entry : JournalEntryCreate.t) :
  (exists l, In l (JournalEntryCreate.journal_lines entry)
             /\ ~ usable_account db (JournalLineCreate.account_id l)) ->
  exists err, create_journal_entry now entry db = Raise err.
Proof.
  intros Hbad. unfold create_journal_entry.
  destruct (Z.eqb _ _); simpl; [|eauto].
  destruct (create_lines_raise db (next_id (map JournalEntry.id (journal_entries db)))
              _ Hbad) as [a (Hr & _)].
  rewrite Hr. simpl. eauto.
Qed.

(** X10.  After [delete_account] has returned [True] for an account, the
    account is closed for new business but keeps its place: creating an
    entry with a line on it fails, replacing the lines of an entry that is
    not posted by lines with one on it raises the invalid-account error,
    creating an account with its code raises the duplicate-code error, and
    every entry that already references it is stored as before. *)
Theorem deleted_account_is_closed (db db' : Db) (now : datetime) (account_id : Z) :
  GeneralLedgerService.delete_account now account_id db = Ok (true, db') ->
  (forall later entry,
     (exists l, In l (JournalEntryCreate.journal_lines entry)
                /\ JournalLineCreate.account_id l = account_id) ->
     exists err, create_journal_entry later entry db' = Raise err)
  /\ (forall later entry_id e entry_update lines,
        get_journal_entry db' entry_id = Some e ->
        JournalEntry.status e <> Posted ->
        JournalEntryUpdate.journal_lines entry_update = Some lines ->
        (exists l, In l lines /\ JournalLineCreate.account_id l = account_id) ->
        exists a, update_journal_entry later entry_id entry_update db'
                  = Raise (InvalidAccount a))
  /\ (forall later a account,
        GeneralLedgerService.get_account db account_id = Some a ->
        ChartOfAccountsCreate.account_code account = ChartOfAccounts.account_code a ->
        GeneralLedgerService.create_account later account db'
        = Raise (DuplicateCode (ChartOfAccounts.account_code a)))
  /\ journal_entries db' = journal_entries db.
Proof.
  intros Hdel. destruct (delete_account_inv _ _ _ _ Hdel) as (a & Hget & _ & ->).
  destruct (get_account_id _ _ _ Hget) as [Hid Hin].
  set (a' := ChartOfAccounts.set_updated_at now (ChartOfAccounts.set_is_active false a)).
  assert (Hclosed : ~ usable_account (GeneralLedgerService.save_account a' db) account_id).
  { rewrite <- Hid. exact (closed_account_unusable db a' eq_refl). }
  split; [|split; [|split]].
  - intros later entry (l & Hl & Hacc).
    apply create_journal_entry_bad_line. exists l. split; [exact Hl|]. now rewrite Hacc.
  - intros later entry_id e u lines Hg Hst Hlines (l & Hl & Hacc).
    unfold update_journal_entry. rewrite Hg.
    destruct (Status_eqb (JournalEntry.status e) Posted) eqn:Hp.
    { apply Status_eqb_eq in Hp. contradiction. }
    simpl. rewrite Hlines. simpl.
    destruct (update_lines_raise (GeneralLedgerService.save_account a' db) entry_id
                lines 0 0) as [b (Hr & _)].
    { exists l. split; [exact Hl|]. now rewrite Hacc. }
    exists b. now rewrite Hr.
  - intros later a0 account Hget0 Hcode. rewrite Hget in Hget0. inversion Hget0. subst a0.
    unfold GeneralLedgerService.create_account.
    destruct (find _ (chart_of_accounts (GeneralLedgerService.save_account a' db)))
      as [x|] eqn:E; [now rewrite Hcode|].
    exfalso. simpl in E.
    assert (Hin' : In a' (put ChartOfAccounts.id a' (chart_of_accounts db))).
    { unfold put. apply in_map_iff. exists a. split; [|exact Hin].
      simpl. rewrite Z.eqb_refl. reflexivity. }
    pose proof (find_none _ _ E a' Hin') as Hn. simpl in Hn.
    rewrite Hcode, String.eqb_refl in Hn. discriminate Hn.
  - reflexivity.
Qed.

(** The cash account is deleted while the sale is a draft: a new sale on it
    is refused and its code stays taken. *)
Lemma deleted_account_is_closed_witness :
  (exists err,
     create_journal_entry Sample.t2 Sample.sale
       (committed (GeneralLedgerService.delete_account Sample.t1 1 Sample.db_draft)
                  Sample.db_draft)
     = Raise err)
  /\ journal_entries
       (committed (GeneralLedgerService.delete_account Sample.t1 1 Sample.db_draft)
                  Sample.db_draft)
     = journal_entries Sample.db_draft.
Proof.
  destruct (GeneralLedgerService.delete_account Sample.t1 1 Sample.db_draft)
    as [[[|] db']|err] eqn:E; try discriminate E.
  destruct (deleted_account_is_closed Sample.db_draft db' Sample.t1 1 E)
    as (Hc & _ & _ & Hj).
  split; [|exact Hj]. apply Hc.
  exists (JournalLineCreate.mk 1 1 (Some "cash received") 15000 0).
  split; [simpl; auto | reflexivity].
Defined.

(* ================================================================== *)
(** ** The buckets of the aging report *)

Lemma add_to_bucket_amount (b : Bucket) (x : Decimal) (d : AgingBuckets) :
  buckets_amount (add_to_bucket b x d) = (buckets_amount d + x)%Z.
Proof. destruct b; unfold buckets_amount; simpl; lia. Qed.

Lemma add_to_bucket_count (b : Bucket) (x : Decimal) (d : AgingBuckets) :
  buckets_count (add_to_bucket b x d) = S (buckets_count d).
Proof. destruct b; unfold buckets_count; simpl; lia. Qed.

Lemma age_invoices_totals (as_of_date : date) (items : list Invoice.t) :
  forall (buckets : AgingBuckets) (total : Decimal),
    let r := fold_left (age_invoice as_of_date) items (buckets, total) in
    (buckets_amount (fst r) - buckets_amount buckets = snd r - total)%Z
    /\ buckets_count (fst r) = (buckets_count buckets + List.length items)%nat.
Proof.
  induction items as [|i items IH]; intros buckets total.
  - simpl. split; lia.
  - cbn [fold_left].
    change (age_invoice as_of_date (buckets, total) i)
      with (add_to_bucket (bucket_of_days (as_of_date - Invoice.due_date i))
              (Invoice.total_amount i - Invoice.paid_amount i) buckets,
            (total + (Invoice.total_amount i - Invoice.paid_amount i))%Z).
    specialize (IH (add_to_bucket (bucket_of_days (as_of_date - Invoice.due_date i))
                      (Invoice.total_amount i - Invoice.paid_amount i) buckets)
                   (total + (Invoice.total_amount i - Invoice.paid_amount i))%Z).
    cbv zeta in IH |- *.
    match goal with |- context [fst ?x] => set (r := x) end.
    assert (IH' : (buckets_amount (fst r)
                   - buckets_amount
                       (add_to_bucket (bucket_of_days (as_of_date - Invoice.due_date i))
                          (Invoice.total_amount i - Invoice.paid_amount i) buckets)
                   = snd r - (total + (Invoice.total_amount i - Invoice.paid_amount i)))%Z
                  /\ buckets_count (fst r)
                     = (buckets_count
                          (add_to_bucket
                             (bucket_of_days (as_of_date - Invoice.due_date i)%Z)
                             (Invoice.total_amount i - Invoice.paid_amount i)%Z buckets)
                        + List.length items)%nat) by exact IH.
    clearbody r. destruct IH' as [IHa IHc].
    rewrite add_to_bucket_amount in IHa. rewrite add_to_bucket_count in IHc.
    cbn [List.length]. split; lia.
Qed.

Lemma sum_at_least_length (items : list Invoice.t) :
  (forall i, In i items -> (1 <= outstanding i)%Z) ->
  (Z.of_nat (List.length items) <= sum (map outstanding items))%Z.
Proof.
  induction items as [|i items IH]; intros H.
  - simpl. rewrite sum_nil. lia.
  - cbn [map List.length]. rewrite sum_cons.
    pose proof (H i (or_introl eq_refl)).
    assert (Z.of_nat (List.length items) <= sum (map outstanding items))%Z
      by (apply IH; intros j Hj; apply H; now right).
    lia.
Qed.

(** X11.  In every aging report the five buckets partition the invoices it
    covers: their amounts add up to [total_outstanding] and their counts to
    [total_invoices].  Every invoice counted is outstanding by at least one
    hundredth, so a bucket's amount is at least its count (in hundredths),
    and an empty bucket has amount zero. *)
Theorem aging_buckets_partition (invoices : list Invoice.t) (as_of_date : date)
  (customer_id : option Z) :
  let report := generate_aging_report invoices as_of_date customer_id in
  buckets_amount (aging_buckets report) = total_outstanding report
  /\ buckets_count (aging_buckets report) = total_invoices report
  /\ forall b,
       (Z.of_nat (count (get_bucket b (aging_buckets report)))
        <= amount (get_bucket b (aging_buckets report)))%Z
       /\ (count (get_bucket b (aging_buckets report)) = 0%nat
           -> amount (get_bucket b (aging_buckets report)) = 0%Z).
Proof.
  intros report. subst report. unfold generate_aging_report.
  rewrite unpaid_invoices_aged_items.
  set (covered := aged_items invoices as_of_date customer_id).
  set (r := fold_left (age_invoice as_of_date) covered _).
  assert (Ht : (buckets_amount (fst r) = snd r)%Z
               /\ buckets_count (fst r) = List.length covered).
  { destruct (age_invoices_totals as_of_date covered empty_buckets 0) as [Ha Hc].
    split.
    - assert (buckets_amount (fst r) - 0 = snd r - 0)%Z by exact Ha. lia.
    - etransitivity; [exact Hc | reflexivity]. }
  assert (Hb : forall b,
             amount (get_bucket b (fst r))
             = sum (map outstanding (in_bucket b as_of_date covered))
             /\ count (get_bucket b (fst r))
                = List.length (in_bucket b as_of_date covered)).
  { destruct (age_invoices_fold as_of_date covered empty_buckets 0) as [Hb _].
    intros b. destruct (Hb b) as [Ha Hc].
    split; [etransitivity; [exact Ha|] | etransitivity; [exact Hc|]];
      now destruct b. }
  clearbody r. destruct r as [buckets total]. cbn [fst snd] in Ht, Hb.
  cbn [aging_buckets total_outstanding total_invoices].
  destruct Ht as [Hta Htc]. split; [exact Hta|]. split; [exact Htc|].
  intros b. destruct (Hb b) as [-> ->]. split.
  - apply sum_at_least_length. intros i Hi. unfold in_bucket in Hi.
    apply filter_In in Hi. destruct Hi as [Hi _]. unfold covered, aged_items in Hi.
    apply filter_In in Hi. destruct Hi as [_ Hp].
    rewrite !andb_true_iff in Hp. destruct Hp as [[Hopen _] _].
    unfold open_item in Hopen. apply andb_true_iff in Hopen.
    destruct Hopen as [_ Hlt]. apply Z.ltb_lt in Hlt. unfold outstanding. lia.
  - intros H0. apply length_zero_iff_nil in H0. rewrite H0. reflexivity.
Qed.

(** The report on the three sample invoices. *)
Lemma aging_buckets_partition_witness :
  amount (b_1_30_days
            (aging_buckets
               (generate_aging_report
                  [Sample.inv_not_due; Sample.inv_due_today; Sample.inv_late]
                  Sample.jan_31 None)))
  = 0%Z.
Proof.
  apply (proj2 (proj2 (proj2 (aging_buckets_partition
                  [Sample.inv_not_due; Sample.inv_due_today; Sample.inv_late]
                  Sample.jan_31 None)) days_1_30)).
  reflexivity.
Defined.

(* ================================================================== *)
(** ** Listing journal entries *)

Lemma newest_first_listed (e1 e2 : JournalEntry.t) :
  newest_first e1 e2 = true <-> listed_before e1 e2.
Proof.
  unfold newest_first, listed_before.
  rewrite orb_true_iff, andb_true_iff, Z.ltb_lt, Z.eqb_eq, Z.leb_le. tauto.
Qed.

Lemma newest_first_total (e1 e2 : JournalEntry.t) :
  newest_first e1 e2 = false -> listed_before e2 e1.
Proof.
  unfold newest_first, listed_before.
  rewrite orb_false_iff, andb_false_iff, Z.ltb_ge, Z.eqb_neq, Z.leb_gt. lia.
Qed.

Lemma listed_before_trans (e1 e2 e3 : JournalEntry.t) :
  listed_before e1 e2 -> listed_before e2 e3 -> listed_before e1 e3.
Proof. unfold listed_before. lia. Qed.

Lemma insert_newest_first_perm (e : JournalEntry.t) (l : list JournalEntry.t) :
  Permutation (insert_newest_first e l) (e :: l).
Proof.
  induction l as [|x l IH]; simpl; [reflexivity|].
  destruct (newest_first e x); [reflexivity|].
  rewrite IH. apply perm_swap.
Qed.

Lemma order_by_newest_perm (l : list JournalEntry.t) :
  Permutation (order_by_newest l) l.
Proof.
  induction l as [|x l IH]; simpl; [reflexivity|].
  rewrite insert_newest_first_perm. now constructor.
Qed.

Lemma insert_newest_first_sorted (e : JournalEntry.t) (l : list JournalEntry.t) :
  StronglySorted listed_before l ->
  StronglySorted listed_before (insert_newest_first e l).
Proof.
  induction 1 as [|x l Hs IH Hall]; simpl.
  - repeat constructor.
  - destruct (newest_first e x) eqn:E.
    + apply newest_first_listed in E. constructor; [now constructor|].
      constructor; [exact E|]. eapply Forall_impl; [|exact Hall].
      intros y Hy. eapply listed_before_trans; eauto.
    + apply newest_first_total in E. constructor; [exact IH|].
      apply Forall_forall. intros y Hy.
      apply (Permutation_in _ (insert_newest_first_perm e l)) in Hy.
      destruct Hy as [<- | Hy]; [exact E|].
      rewrite Forall_forall in Hall. now apply Hall.
Qed.

Lemma order_by_newest_sorted (l : list JournalEntry.t) :
  StronglySorted listed_before (order_by_newest l).
Proof.
  induction l as [|x l IH]; simpl; [constructor|].
  now apply insert_newest_first_sorted.
Qed.

Section Sublists.

Context {A : Type}.

Lemma sorted_skipn (R : A -> A -> Prop) (n : nat) (l : list A) :
  StronglySorted R l -> StronglySorted R (skipn n l).
Proof.
  revert l. induction n as [|n IH]; intros l Hs; simpl; [exact Hs|].
  destruct l as [|x l]; [constructor|]. apply IH. now inversion Hs.
Qed.

Lemma sorted_firstn (R : A -> A -> Prop) (n : nat) (l : list A) :
  StronglySorted R l -> StronglySorted R (firstn n l).
Proof.
  revert l. induction n as [|n IH]; intros l Hs; simpl; [constructor|].
  destruct l as [|x l]; [constructor|]. inversion Hs as [|? ? Hs' Hall]; subst.
  constructor; [now apply IH|].
  rewrite Forall_forall in *. intros y Hy. apply Hall.
  rewrite <- (firstn_skipn n l). apply in_or_app. now left.
Qed.

Lemma in_page (skip limit : nat) (l : list A) (x : A) :
  In x (page skip limit l) -> In x l.
Proof.
  unfold page. intros H.
  rewrite <- (firstn_skipn skip l). apply in_or_app. right.
  rewrite <- (firstn_skipn limit (skipn skip l)). apply in_or_app. now left.
Qed.

Lemma page_length (skip limit : nat) (l : list A) :
  (List.length (page skip limit l) <= limit)%nat.
Proof. unfold page. apply firstn_le_length. Qed.

Lemma page_sorted (R : A -> A -> Prop) (skip limit : nat) (l : list A) :
  StronglySorted R l -> StronglySorted R (page skip limit l).
Proof. intros H. unfold page. now apply sorted_firstn, sorted_skipn. Qed.

Lemma firstn_then (n m : nat) (l : list A) :
  firstn n l ++ firstn m (skipn n l) = firstn (n + m) l.
Proof.
  revert l. induction n as [|n IH]; intros l; simpl; [reflexivity|].
  destruct l as [|x l]; simpl; [now rewrite firstn_nil|]. now rewrite IH.
Qed.

(** Consecutive pages make up the longer page. *)
Lemma page_then (skip n m : nat) (l : list A) :
  page skip n l ++ page (skip + n) m l = page skip (n + m) l.
Proof.
  unfold page. rewrite (Nat.add_comm skip n), <- skipn_skipn. apply firstn_then.
Qed.

Lemma page_all (limit : nat) (l : list A) :
  (List.length l <= limit)%nat -> page 0 limit l = l.
Proof. intros H. unfold page. simpl. now apply firstn_all2. Qed.

Lemma nodup_map_sublist {B : Type} (f : A -> B) (n : nat) (l : list A) :
  NoDup (map f l) -> NoDup (map f (firstn n l)) /\ NoDup (map f (skipn n l)).
Proof.
  intros H. rewrite <- (firstn_skipn n l), map_app in H.
  split; [exact (NoDup_app_remove_r _ _ H) | exact (NoDup_app_remove_l _ _ H)].
Qed.

Lemma nodup_map_filter {B : Type} (key : A -> B) (keep : A -> bool)
  (rows : list A) (Hkeys : NoDup (map key rows)) :
  NoDup (map key (filter keep rows)).
Proof.
  induction rows as [|x rows IH]; simpl; [constructor|].
  inversion Hkeys as [|? ? Hn Hd]; subst. destruct (keep x); [|now apply IH].
  simpl. constructor; [|now apply IH].
  intros Hin. apply Hn. apply in_map_iff in Hin. destruct Hin as (y & Hy & Hin).
  apply filter_In in Hin. apply in_map_iff. exists y. tauto.
Qed.

End Sublists.

Lemma unique_entities_in (seen : list Z) (rows : list JournalEntry.t)
  (e : JournalEntry.t) :
  In e (unique_entities seen rows) ->
  In e rows /\ ~ In (JournalEntry.id e) seen.
Proof.
  revert seen. induction rows as [|x rows IH]; intros seen; simpl; [tauto|].
  destruct (existsb (Z.eqb (JournalEntry.id x)) seen) eqn:E.
  - intros H. destruct (IH _ H). auto.
  - intros [<- | H].
    + split; [now left|]. intros Hin.
      assert (existsb (Z.eqb (JournalEntry.id x)) seen = true).
      { apply existsb_exists. exists (JournalEntry.id x). split; [exact Hin|].
        apply Z.eqb_refl. }
      congruence.
    + destruct (IH _ H) as [Hin Hn]. split; [now right|].
      intros Hs. apply Hn. now right.
Qed.

Lemma unique_entities_nodup (seen : list Z) (rows : list JournalEntry.t) :
  NoDup (map JournalEntry.id (unique_entities seen rows)).
Proof.
  revert seen. induction rows as [|x rows IH]; intros seen; simpl; [constructor|].
  destruct (existsb (Z.eqb (JournalEntry.id x)) seen); [apply IH|].
  simpl. constructor; [|apply IH].
  intros Hin. apply in_map_iff in Hin. destruct Hin as (y & Hy & Hin).
  apply unique_entities_in in Hin. destruct Hin as [_ Hn]. apply Hn. left. auto.
Qed.

Lemma unique_entities_sorted (seen : list Z) (rows : list JournalEntry.t) :
  StronglySorted listed_before rows ->
  StronglySorted listed_before (unique_entities seen rows).
Proof.
  intros Hs. revert seen. induction Hs as [|x rows Hs IH Hall]; intros seen; simpl.
  - constructor.
  - destruct (existsb (Z.eqb (JournalEntry.id x)) seen); [apply IH|].
    constructor; [apply IH|]. rewrite Forall_forall in *. intros y Hy.
    apply Hall. now apply unique_entities_in in Hy.
Qed.

Lemma unique_entities_length (seen : list Z) (rows : list JournalEntry.t) :
  (List.length (unique_entities seen rows) <= List.length rows)%nat.
Proof.
  revert seen. induction rows as [|x rows IH]; intros seen; simpl; [lia|].
  destruct (existsb (Z.eqb (JournalEntry.id x)) seen); simpl.
  - specialize (IH seen). lia.
  - specialize (IH (JournalEntry.id x :: seen)). lia.
Qed.

(** Rows with distinct keys, none of them seen, are all kept. *)
Lemma unique_entities_id (seen : list Z) (rows : list JournalEntry.t) :
  NoDup (map JournalEntry.id rows) ->
  (forall e, In e rows -> ~ In (JournalEntry.id e) seen) ->
  unique_entities seen rows = rows.
Proof.
  revert seen. induction rows as [|x rows IH]; intros seen Hnd Hseen; simpl;
    [reflexivity|].
  inversion Hnd as [|? ? Hn Hd]; subst.
  destruct (existsb (Z.eqb (JournalEntry.id x)) seen) eqn:E.
  - exfalso. apply existsb_exists in E. destruct E as (k & Hk & Hx).
    apply Z.eqb_eq in Hx. subst k. exact (Hseen x (or_introl eq_refl) Hk).
  - f_equal. apply IH; [exact Hd|]. intros e He [Hx | Hs].
    + apply Hn. rewrite Hx. now apply in_map.
    + exact (Hseen e (or_intror He) Hs).
Qed.

(** Every key among the rows is the key of a row that is kept. *)
Lemma unique_entities_covers (seen : list Z) (rows : list JournalEntry.t)
  (e : JournalEntry.t) :
  In e rows -> ~ In (JournalEntry.id e) seen ->
  exists e', In e' (unique_entities seen rows)
             /\ JournalEntry.id e' = JournalEntry.id e.
Proof.
  revert seen. induction rows as [|x rows IH]; intros seen Hin Hseen; simpl;
    [contradiction|].
  destruct (existsb (Z.eqb (JournalEntry.id x)) seen) eqn:E.
  - destruct Hin as [-> | Hin]; [|now apply IH].
    exfalso. apply existsb_exists in E. destruct E as (k & Hk & Hx).
    apply Z.eqb_eq in Hx. subst k. contradiction.
  - destruct Hin as [-> | Hin]; [exists e; split; [now left | reflexivity]|].
    destruct (Z.eq_dec (JournalEntry.id e) (JournalEntry.id x)) as [Heq | Hne].
    + exists x. split; [now left | auto].
    + destruct (IH (JournalEntry.id x :: seen) Hin) as (e' & He' & Hid).
      * intros [Hx | Hs]; [congruence | contradiction].
      * exists e'. split; [now right | exact Hid].
Qed.

Lemma in_join_lines_on (a : Z) (rows : list JournalEntry.t) (e : JournalEntry.t) :
  In e (join_lines_on a rows)
  <-> In e rows /\ exists l, In l (JournalEntry.journal_lines e)
                             /\ JournalLine.account_id l = a.
Proof.
  unfold join_lines_on. rewrite in_flat_map. split.
  - intros (x & Hx & Hin). apply in_map_iff in Hin. destruct Hin as (l & <- & Hl).
    apply filter_In in Hl. destruct Hl as [Hl Ha]. apply Z.eqb_eq in Ha.
    split; [exact Hx | now exists l].
  - intros (Hin & l & Hl & Ha). exists e. split; [exact Hin|].
    apply in_map_iff. exists l. split; [reflexivity|].
    apply filter_In. split; [exact Hl | now apply Z.eqb_eq].
Qed.

Lemma in_optional_filter {A V : Type} (v : option V) (p : V -> A -> bool)
  (P : V -> A -> Prop) (l : list A) (x : A) :
  (forall w y, p w y = true <-> P w y) ->
  In x (match v with Some w => filter (p w) l | None => l end)
  <-> In x l /\ forall w, v = Some w -> P w x.
Proof.
  intros Hp. destruct v as [w|].
  - rewrite filter_In, Hp. split.
    + intros [Hin Hw]. split; [exact Hin|]. intros w' [= <-]. exact Hw.
    + intros [Hin Hw]. split; [exact Hin | now apply Hw].
  - split; [intros H; split; [exact H | discriminate] | tauto].
Qed.

(** The rows the filters of a listing yield are the entries of the table that
    pass them. *)
Lemma in_filtered_entries (db : Db) (start_date end_date : option date)
  (account_id : option Z) (status : option string) (e : JournalEntry.t) :
  In e (filtered_entries db start_date end_date account_id status)
  <-> In e (journal_entries db)
      /\ passes_filters start_date end_date account_id status e.
Proof.
  unfold filtered_entries, passes_filters.
  set (q1 := match start_date with Some d => _ | None => _ end).
  set (q2 := match end_date with Some d => _ | None => _ end).
  set (q3 := match truthy_str status with Some s => _ | None => _ end).
  assert (H1 : In e q1 <-> In e (journal_entries db)
                           /\ forall d, start_date = Some d
                                        -> (d <= JournalEntry.entry_date e)%Z).
  { apply (in_optional_filter start_date
             (fun d e => (d <=? JournalEntry.entry_date e)%Z)
             (fun d e => (d <= JournalEntry.entry_date e)%Z)).
    intros w y. apply Z.leb_le. }
  assert (H2 : In e q2 <-> In e q1
                           /\ forall d, end_date = Some d
                                        -> (JournalEntry.entry_date e <= d)%Z).
  { apply (in_optional_filter end_date
             (fun d e => (JournalEntry.entry_date e <=? d)%Z)
             (fun d e => (JournalEntry.entry_date e <= d)%Z)).
    intros w y. apply Z.leb_le. }
  assert (H3 : In e q3 <-> In e q2
                           /\ forall s, truthy_str status = Some s
                                        -> status_name (JournalEntry.status e) = s).
  { apply (in_optional_filter (truthy_str status)
             (fun s e => String.eqb (status_name (JournalEntry.status e)) s)
             (fun s e => status_name (JournalEntry.status e) = s)).
    intros w y. apply String.eqb_eq. }
  destruct (truthy account_id) as [a|].
  - rewrite in_join_lines_on, H3, H2, H1. split.
    + intros ((((Hin & Hs) & He) & Hst) & Hl). repeat split; auto.
      intros a' [= <-]. exact Hl.
    + intros (Hin & Hs & He & Hst & Hl). repeat split; auto.
  - rewrite H3, H2, H1. split.
    + intros (((Hin & Hs) & He) & Hst). repeat split; auto. discriminate.
    + intros (Hin & Hs & He & Hst & _). repeat split; auto.
Qed.

(** X12.  Whatever the table, the filters and the page, every entry
    [get_journal_entries] returns is an entry of the journal table that
    passes each filter in force (entry date not before [start_date], not
    after [end_date], the status named, at least one line on the account);
    the list is ordered newest first (entry date descending, then id
    descending), holds no id twice, and is not longer than [limit]. *)
Theorem get_journal_entries_sound (db : Db) (skip limit : nat)
  (start_date end_date : option date) (account_id : option Z)
  (status : option string) :
  let listing :=
    get_journal_entries db skip limit start_date end_date account_id status in
  Forall (fun e => In e (journal_entries db)
                   /\ passes_filters start_date end_date account_id status e)
         listing
  /\ StronglySorted listed_before listing
  /\ NoDup (map JournalEntry.id listing)
  /\ (List.length listing <= limit)%nat.
Proof.
  intros listing. subst listing. unfold get_journal_entries.
  split; [|split; [|split]].
  - apply Forall_forall. intros e He.
    apply unique_entities_in in He. destruct He as [He _].
    apply in_page in He.
    apply (Permutation_in _ (order_by_newest_perm _)) in He.
    now apply in_filtered_entries.
  - apply unique_entities_sorted, page_sorted, order_by_newest_sorted.
  - apply unique_entities_nodup.
  - etransitivity; [apply unique_entities_length | apply page_length].
Qed.

(** X13.  In the ledger reached from the empty one by any sequence of calls:
    a listing without an account filter is paged consistently, the page of
    [n] entries after [skip] followed by the page of [m] entries after
    [skip + n] being the page of [n + m] entries after [skip]; and a
    listing from the start with a limit not below the number of rows the
    filters yield returns every entry of the table that passes them. *)
Theorem get_journal_entries_pages (calls : list Call)
  (start_date end_date : option date) (account_id : option Z)
  (status : option string) :
  let db := run empty_db calls in
  (truthy account_id = None ->
   forall skip n m,
     get_journal_entries db skip n start_date end_date account_id status
     ++ get_journal_entries db (skip + n) m start_date end_date account_id status
     = get_journal_entries db skip (n + m) start_date end_date account_id status)
  /\ (forall limit e,
        (List.length (filtered_entries db start_date end_date account_id status)
         <= limit)%nat ->
        In e (journal_entries db) ->
        passes_filters start_date end_date account_id status e ->
        In e (get_journal_entries db 0 limit start_date end_date account_id status)).
Proof.
  intros db.
  destruct (numbered_run calls empty_db numbered_empty) as [Hs _]. fold db in Hs.
  assert (Hnd : NoDup (map JournalEntry.id (journal_entries db))).
  { clear -Hs. induction (journal_entries db) as [|x l IH]; simpl; [constructor|].
    simpl in Hs. inversion Hs as [|? ? Hs' Hall]; subst. constructor; [|now apply IH].
    intros Hin. rewrite Forall_forall in Hall. specialize (Hall _ Hin). lia. }
  split.
  - intros Hacc skip n m. unfold get_journal_entries.
    set (rows := order_by_newest _).
    assert (Hrows : NoDup (map JournalEntry.id rows)).
    { subst rows. eapply Permutation_NoDup.
      - apply Permutation_map. symmetry. apply order_by_newest_perm.
      - unfold filtered_entries. rewrite Hacc.
        destruct (truthy_str status), end_date, start_date;
          repeat apply nodup_map_filter; exact Hnd. }
    assert (Hpage : forall s k, unique_entities [] (page s k rows) = page s k rows).
    { intros s k. apply unique_entities_id; [|intros ? _ []].
      unfold page.
      apply (nodup_map_sublist JournalEntry.id k (skipn s rows)).
      apply (nodup_map_sublist JournalEntry.id s rows). exact Hrows. }
    rewrite !Hpage. apply page_then.
  - intros limit e Hlen Hin Hpass. unfold get_journal_entries.
    assert (He : In e (filtered_entries db start_date end_date account_id status))
      by now apply in_filtered_entries.
    rewrite page_all
      by (rewrite (Permutation_length (order_by_newest_perm _)); exact Hlen).
    apply (Permutation_in _ (Permutation_sym (order_by_newest_perm _))) in He.
    destruct (unique_entities_covers [] _ e He (fun H => H)) as (e' & He' & Hid).
    assert (e' = e) as ->; [|exact He'].
    apply (sorted_ids_unique (journal_entries db)); auto.
    apply unique_entities_in in He'. destruct He' as [He' _].
    apply (Permutation_in _ (order_by_newest_perm _)) in He'.
    now apply in_filtered_entries in He'.
Qed.

(** The posted cash sale is found by its status and by its cash account. *)
Lemma get_journal_entries_pages_witness :
  List.length
    (get_journal_entries Sample.db_posted 0 100 None None (Some 1%Z) (Some "Posted"))
  = 1%nat
  /\ forall e, get_journal_entry Sample.db_posted 1 = Some e ->
               In e (get_journal_entries Sample.db_posted 0 100 None None (Some 1%Z)
                                         (Some "Posted")).
Proof.
  split; [reflexivity|]. intros e E.
  apply (proj2 (get_journal_entries_pages Sample.posted_calls None None (Some 1%Z)
                  (Some "Posted"))).
  - vm_compute. lia.
  - exact (proj2 (lookup_some _ _ _ _ E)).
  - vm_compute in E. inversion E. subst e. unfold passes_filters.
    repeat split; try discriminate.
    + intros s [= <-]. reflexivity.
    + intros a [= <-]. eexists. split; [left; reflexivity | reflexivity].
Defined.

(* ================================================================== *)
(** ** The account hierarchy and the account listing *)

Lemma parent_is_some (q : Z) (a : ChartOfAccounts.t) :
  GeneralLedgerService.parent_is (Some q) a = true
  <-> ChartOfAccounts.parent_account_id a = Some q.
Proof.
  unfold GeneralLedgerService.parent_is.
  destruct (ChartOfAccounts.parent_account_id a) as [p|].
  - rewrite Z.eqb_eq. split; congruence.
  - split; discriminate.
Qed.

Lemma parent_is_none (a : ChartOfAccounts.t) :
  GeneralLedgerService.parent_is None a = true
  <-> ChartOfAccounts.parent_account_id a = None.
Proof.
  unfold GeneralLedgerService.parent_is.
  destruct (ChartOfAccounts.parent_account_id a); split; congruence.
Qed.

Lemma filter_all {A : Type} (p : A -> bool) (l : list A) :
  (forall x, In x l -> p x = true) -> filter p l = l.
Proof.
  induction l as [|x l IH]; simpl; intros H; [reflexivity|].
  rewrite (H x (or_introl eq_refl)). f_equal. apply IH. intros y Hy. apply H. now right.
Qed.

Lemma filter_none {A : Type} (p : A -> bool) (l : list A) :
  (forall x, In x l -> p x = false) -> filter p l = [].
Proof.
  induction l as [|x l IH]; simpl; intros H; [reflexivity|].
  rewrite (H x (or_introl eq_refl)). apply IH. intros y Hy. apply H. now right.
Qed.

Lemma filter_single {A : Type} (p : A -> bool) (a : A) (l : list A) :
  NoDup l -> In a l -> p a = true ->
  (forall x, In x l -> p x = true -> x = a) ->
  filter p l = [a].
Proof.
  induction l as [|x l IH]; simpl; intros Hnd Hin Hpa Honly; [contradiction|].
  inversion Hnd as [|? ? Hn Hd]; subst.
  destruct (p x) eqn:E.
  - assert (x = a) as -> by (apply Honly; auto).
    f_equal. apply filter_none. intros y Hy.
    destruct (p y) eqn:Ey; [|reflexivity].
    assert (y = a) as -> by (apply Honly; auto). contradiction.
  - destruct Hin as [-> | Hin]; [congruence|].
    apply IH; auto.
Qed.

Lemma build_hierarchy_leaves (fuel : nat) (account_list : list ChartOfAccounts.t)
  (q : Z) :
  (forall x, In x account_list -> ChartOfAccounts.parent_account_id x <> Some q) ->
  GeneralLedgerService.build_hierarchy fuel account_list (Some q) = [].
Proof.
  intros H. destruct fuel as [|fuel]; simpl; [reflexivity|].
  rewrite filter_none; [reflexivity|]. intros x Hx.
  destruct (GeneralLedgerService.parent_is (Some q) x) eqn:E; [|reflexivity].
  apply parent_is_some in E. exfalso. exact (H x Hx E).
Qed.

Section OrderedChart.

Variable order_by_account_code : list ChartOfAccounts.t -> list ChartOfAccounts.t.

Hypothesis order_perm : forall l, Permutation (order_by_account_code l) l.

Lemma in_ordered (l : list ChartOfAccounts.t) (x : ChartOfAccounts.t) :
  In x (order_by_account_code l) <-> In x l.
Proof.
  split; apply Permutation_in; [apply order_perm | symmetry; apply order_perm].
Qed.

(** X14.  What [get_account_hierarchy] shows, for any ordering of the account
    codes, once the recursion is given depth enough.  Without an account id
    (null or 0) the result lists the active accounts that have no parent,
    each with an empty list of children: sub-accounts never appear.  With
    the id of an active account that has no parent, in a chart with distinct
    ids, the result is that one account with its active direct children,
    each of them with an empty list of children.  With any other id, of an
    account that has a parent or is inactive, or of no account, the result
    is empty. *)
Theorem get_account_hierarchy_flat (db : Db) (fuel : nat) (account_id : option Z) :
  (truthy account_id = None -> (1 <= fuel)%nat ->
   let roots := GeneralLedgerService.hierarchy_accounts order_by_account_code db
                  account_id in
   GeneralLedgerService.get_account_hierarchy order_by_account_code fuel db account_id
   = map leaf roots
   /\ forall x, In x roots <-> In x (chart_of_accounts db)
                               /\ ChartOfAccounts.parent_account_id x = None
                               /\ ChartOfAccounts.is_active x = true)
  /\ (forall k, truthy account_id = Some k -> keyed_chart db ->
      (forall a,
         GeneralLedgerService.get_account db k = Some a ->
         ChartOfAccounts.parent_account_id a = None ->
         ChartOfAccounts.is_active a = true ->
         (2 <= fuel)%nat ->
         exists children,
           GeneralLedgerService.get_account_hierarchy order_by_account_code fuel db
             account_id
           = [GeneralLedgerService.node_of a (map leaf children)]
           /\ forall c, In c children <-> In c (active_children db k))
      /\ ((forall a,
             GeneralLedgerService.get_account db k = Some a ->
             ChartOfAccounts.parent_account_id a <> None
             \/ ChartOfAccounts.is_active a = false) ->
          GeneralLedgerService.get_account_hierarchy order_by_account_code fuel db
            account_id
          = [])).
Proof.
  split.
  - intros Ht Hfuel roots. subst roots.
    unfold GeneralLedgerService.get_account_hierarchy,
      GeneralLedgerService.hierarchy_accounts. rewrite Ht.
    set (roots := order_by_account_code _).
    assert (Hroots : forall x, In x roots <-> In x (chart_of_accounts db)
                                   /\ ChartOfAccounts.parent_account_id x = None
                                   /\ ChartOfAccounts.is_active x = true).
    { intros x. unfold roots. rewrite in_ordered, filter_In, andb_true_iff,
        parent_is_none. tauto. }
    split; [|exact Hroots].
    destruct fuel as [|fuel]; [lia|]. simpl.
    rewrite filter_all
      by (intros x Hx; apply parent_is_none; now apply Hroots in Hx).
    apply map_ext_in. intros x Hx. unfold leaf. f_equal.
    apply build_hierarchy_leaves. intros y Hy. apply Hroots in Hy.
    destruct Hy as (_ & -> & _). discriminate.
  - intros k Ht [Hsorted _].
    unfold GeneralLedgerService.get_account_hierarchy,
      GeneralLedgerService.hierarchy_accounts. rewrite Ht.
    set (accounts := order_by_account_code _).
    assert (Hacc : forall x, In x accounts
                             <-> In x (chart_of_accounts db)
                                 /\ (ChartOfAccounts.id x = k
                                     \/ ChartOfAccounts.parent_account_id x = Some k)
                                 /\ ChartOfAccounts.is_active x = true).
    { intros x. unfold accounts.
      rewrite in_ordered, filter_In, andb_true_iff, orb_true_iff, Z.eqb_eq,
        parent_is_some. tauto. }
    assert (Hnd : NoDup accounts).
    { unfold accounts. eapply Permutation_NoDup; [symmetry; apply order_perm|].
      apply NoDup_filter. apply (NoDup_map_inv ChartOfAccounts.id).
      clear -Hsorted. induction (chart_of_accounts db) as [|x l IH]; simpl;
        [constructor|].
      simpl in Hsorted. inversion Hsorted as [|? ? Hs' Hall]; subst.
      constructor; [|now apply IH].
      intros Hin. rewrite Forall_forall in Hall. specialize (Hall _ Hin). lia. }
    split.
    + intros a Hget Hroot Hact Hfuel.
      destruct (get_account_id _ _ _ Hget) as [Hid Hin].
      exists (filter (GeneralLedgerService.parent_is (Some k)) accounts). split.
      * destruct fuel as [|[|fuel]]; try lia.
        cbn [GeneralLedgerService.build_hierarchy].
        rewrite (filter_single (GeneralLedgerService.parent_is None) a accounts Hnd).
        -- cbn [map]. rewrite Hid. f_equal. f_equal.
           apply map_ext_in. intros c Hc. unfold leaf. f_equal.
           apply filter_In in Hc. destruct Hc as [Hc Hpc].
           apply parent_is_some in Hpc. apply Hacc in Hc.
           apply build_hierarchy_leaves. intros y Hy Hpy. apply Hacc in Hy.
           destruct Hy as (Hyin & [Hyk | Hyp] & _).
           ++ assert (y = a) as ->
                by (apply (sorted_keys_unique ChartOfAccounts.id (chart_of_accounts db));
                    auto; congruence).
              congruence.
           ++ assert (c = a) as ->
                by (apply (sorted_keys_unique ChartOfAccounts.id (chart_of_accounts db));
                    try tauto; congruence).
              congruence.
        -- apply Hacc. auto.
        -- now apply parent_is_none.
        -- intros x Hx Hpx. apply parent_is_none in Hpx. apply Hacc in Hx.
           destruct Hx as (Hxin & [Hxk | Hxp] & _); [|congruence].
           apply (sorted_keys_unique ChartOfAccounts.id (chart_of_accounts db));
             auto; congruence.
      * intros c. rewrite filter_In, Hacc, parent_is_some.
        unfold active_children. rewrite filter_In, andb_true_iff. split.
        -- intros ((Hc & _ & Hact') & Hp). rewrite Hp, Z.eqb_refl. auto.
        -- intros (Hc & Hp & Hact').
           destruct (ChartOfAccounts.parent_account_id c) as [p|]; [|discriminate].
           apply Z.eqb_eq in Hp. subst p. auto.
    + intros Hnot. destruct fuel as [|fuel]; [reflexivity|].
      cbn [GeneralLedgerService.build_hierarchy].
      rewrite filter_none; [reflexivity|]. intros x Hx.
      destruct (GeneralLedgerService.parent_is None x) eqn:E; [|reflexivity].
      apply parent_is_none in E. apply Hacc in Hx.
      destruct Hx as (Hxin & [Hxk | Hxp] & Hxact); [|congruence].
      assert (Hget : GeneralLedgerService.get_account db k = Some x).
      { unfold GeneralLedgerService.get_account, lookup.
        destruct (find _ (chart_of_accounts db)) as [y|] eqn:Ey.
        - apply find_some in Ey. destruct Ey as [Hyin Hyk]. apply Z.eqb_eq in Hyk.
          f_equal.
          apply (sorted_keys_unique ChartOfAccounts.id (chart_of_accounts db));
            auto; congruence.
        - pose proof (find_none _ _ Ey x Hxin) as Hn. simpl in Hn.
          rewrite Hxk, Z.eqb_refl in Hn. discriminate Hn. }
      destruct (Hnot x Hget); congruence.
Qed.

(** X15.  [get_accounts], for any ordering of the account codes, returns at
    most [limit] accounts, each of them an account of the chart that passes
    the filters in force: the account type named, unless the name is null
    or empty, and the activity asked for, [False] included.  Consecutive
    pages make up the longer page, and a listing from the start with a limit
    not below the size of the chart returns every account that passes the
    filters. *)
Theorem get_accounts_spec (db : Db) (account_type : option string)
  (active : option bool) :
  let passes (a : ChartOfAccounts.t) :=
    (forall t, truthy_str account_type = Some t
               -> account_type_name (ChartOfAccounts.account_type a) = t)
    /\ (forall b, active = Some b -> ChartOfAccounts.is_active a = b) in
  (forall skip limit,
     Forall (fun a => In a (chart_of_accounts db) /\ passes a)
            (GeneralLedgerService.get_accounts order_by_account_code db skip limit
               account_type active)
     /\ (List.length (GeneralLedgerService.get_accounts order_by_account_code db skip
                        limit account_type active) <= limit)%nat)
  /\ (forall skip n m,
        GeneralLedgerService.get_accounts order_by_account_code db skip n
          account_type active
        ++ GeneralLedgerService.get_accounts order_by_account_code db (skip + n) m
             account_type active
        = GeneralLedgerService.get_accounts order_by_account_code db skip (n + m)
            account_type active)
  /\ (forall limit a,
        (List.length (chart_of_accounts db) <= limit)%nat ->
        In a (chart_of_accounts db) -> passes a ->
        In a (GeneralLedgerService.get_accounts order_by_account_code db 0 limit
                account_type active)).
Proof.
  intros passes.
  assert (Hin : forall a,
            In a (GeneralLedgerService.filtered_accounts db account_type active)
            <-> In a (chart_of_accounts db) /\ passes a).
  { intros a. unfold GeneralLedgerService.filtered_accounts, passes.
    set (q1 := match truthy_str account_type with Some t => _ | None => _ end).
    assert (H1 : In a q1
                 <-> In a (chart_of_accounts db)
                     /\ forall t, truthy_str account_type = Some t
                                  -> account_type_name (ChartOfAccounts.account_type a)
                                     = t).
    { apply (in_optional_filter (truthy_str account_type)
               (fun t a => String.eqb
                             (account_type_name (ChartOfAccounts.account_type a)) t)
               (fun t a => account_type_name (ChartOfAccounts.account_type a) = t)).
      intros w y. apply String.eqb_eq. }
    rewrite (in_optional_filter active
               (fun b a => Bool.eqb (ChartOfAccounts.is_active a) b)
               (fun b a => ChartOfAccounts.is_active a = b))
      by (intros w y; apply Bool.eqb_true_iff).
    rewrite H1. tauto. }
  unfold GeneralLedgerService.get_accounts. split; [|split].
  - intros skip limit. split; [|apply page_length].
    apply Forall_forall. intros a Ha. apply in_page in Ha.
    apply (proj1 (in_ordered _ _)) in Ha. simpl. now apply Hin.
  - intros skip n m. apply page_then.
  - intros limit a Hlen Ha Hp. rewrite page_all.
    + apply (proj2 (in_ordered _ _)). apply Hin. auto.
    + rewrite (Permutation_length (order_perm _)).
      etransitivity; [|exact Hlen].
      unfold GeneralLedgerService.filtered_accounts.
      destruct (truthy_str account_type), active;
        repeat (etransitivity; [apply filter_length_le|]); auto.
Qed.

End OrderedChart.

(** The chart with a sub-account, in table order: without an account id the
    two parentless accounts are listed, each without children. *)
Lemma get_account_hierarchy_flat_witness :
  GeneralLedgerService.get_account_hierarchy (fun l => l) 5 Sample.db_tree None
  = map leaf (GeneralLedgerService.hierarchy_accounts (fun l => l) Sample.db_tree None)
  /\ List.length
       (GeneralLedgerService.get_account_hierarchy (fun l => l) 5 Sample.db_tree None)
     = 2%nat.
Proof.
  split; [|reflexivity].
  apply (proj1 (get_account_hierarchy_flat (fun l => l)
                  (fun l => Permutation_refl l) Sample.db_tree 5 None)).
  - reflexivity.
  - lia.
Defined.

(** The cash account is found among the active asset accounts. *)
Lemma get_accounts_spec_witness :
  exists a,
    GeneralLedgerService.get_account Sample.db_accounts 1 = Some a
    /\ In a (GeneralLedgerService.get_accounts (fun l => l) Sample.db_accounts 0 10
               (Some "Asset") (Some true)).
Proof.
  destruct (GeneralLedgerService.get_account Sample.db_accounts 1) as [a|] eqn:E;
    [|discriminate E].
  exists a. split; [reflexivity|].
  apply (proj2 (proj2 (get_accounts_spec (fun l => l) (fun l => Permutation_refl l)
                         Sample.db_accounts (Some "Asset") (Some true)))).
  - vm_compute. lia.
  - exact (proj2 (get_account_id _ _ _ E)).
  - vm_compute in E. inversion E. subst a. split.
    + intros t [= <-]. reflexivity.
    + intros b [= <-]. reflexivity.
Defined.

(* ================================================================== *)
(** ** Order of the checks, and the posted books as a whole *)

(** X16.  The two writers of lines check in opposite order.  For lines whose
    sums differ and of which one is on an unusable account,
    [create_journal_entry] raises the unbalanced error, while
    [update_journal_entry], on an existing entry that is not posted, raises
    the invalid-account error. *)
Theorem checks_in_opposite_order (db : Db) (now : datetime)
  (entry : JournalEntryCreate.t) (entry_id : Z) (e : JournalEntry.t)
  (entry_update : JournalEntryUpdate.t) :
  let lines := JournalEntryCreate.journal_lines entry in
  let debits := sum (map JournalLineCreate.debit_amount lines) in
  let credits := sum (map JournalLineCreate.credit_amount lines) in
  debits <> credits ->
  (exists l, In l lines /\ ~ usable_account db (JournalLineCreate.account_id l)) ->
  get_journal_entry db entry_id = Some e ->
  JournalEntry.status e <> Posted ->
  JournalEntryUpdate.journal_lines entry_update = Some lines ->
  create_journal_entry now entry db = Raise (Unbalanced debits credits)
  /\ exists a, update_journal_entry now entry_id entry_update db
               = Raise (InvalidAccount a)
               /\ ~ usable_account db a.
Proof.
  intros lines debits credits Hne Hbad Hget Hst Hlines. split.
  - unfold create_journal_entry. fold lines debits credits.
    destruct (Z.eqb_spec debits credits); [contradiction | reflexivity].
  - unfold update_journal_entry. rewrite Hget.
    destruct (Status_eqb (JournalEntry.status e) Posted) eqn:Hp.
    { apply Status_eqb_eq in Hp. contradiction. }
    simpl. rewrite Hlines. simpl.
    destruct (update_lines_raise db entry_id lines 0 0 Hbad) as [a (Hr & _ & Hu)].
    exists a. rewrite Hr. auto.
Qed.

(** Lines of 5.00 against 7.00 with one on account 7, which does not exist. *)
Lemma checks_in_opposite_order_witness :
  create_journal_entry Sample.t2
    (JournalEntryCreate.mk Sample.jan_1 None "Both wrong" Manual
       [ JournalLineCreate.mk 1 1 None 500 0; JournalLineCreate.mk 7 2 None 0 700 ])
    Sample.db_draft
  = Raise (Unbalanced 500 700)
  /\ exists a,
       update_journal_entry Sample.t2 1
         (JournalEntryUpdate.mk None None None None
            (Some [ JournalLineCreate.mk 1 1 None 500 0;
                    JournalLineCreate.mk 7 2 None 0 700 ]))
         Sample.db_draft
       = Raise (InvalidAccount a)
       /\ ~ usable_account Sample.db_draft a.
Proof.
  destruct (get_journal_entry Sample.db_draft 1) as [e|] eqn:E; [|discriminate E].
  apply (checks_in_opposite_order Sample.db_draft Sample.t2
           (JournalEntryCreate.mk Sample.jan_1 None "Both wrong" Manual
              [ JournalLineCreate.mk 1 1 None 500 0;
                JournalLineCreate.mk 7 2 None 0 700 ])
           1 e
           (JournalEntryUpdate.mk None None None None
              (Some [ JournalLineCreate.mk 1 1 None 500 0;
                      JournalLineCreate.mk 7 2 None 0 700 ]))).
  - vm_compute. discriminate.
  - exists (JournalLineCreate.mk 7 2 None 0 700). split; [simpl; auto|].
    intros [a (Hin & Hid & _)]. vm_compute in Hin, Hid.
    destruct Hin as [<- | [<- | []]]; discriminate Hid.
  - exact E.
  - vm_compute in E. inversion E. discriminate.
  - reflexivity.
Defined.

Lemma all_posted_lines_balance (entries : list JournalEntry.t) (as_of_date : option date) :
  (forall e, In e entries -> balanced_lines e) ->
  sum (map JournalLine.debit_amount
         (all_posted_lines (mk_Db [] entries) as_of_date))
  = sum (map JournalLine.credit_amount
           (all_posted_lines (mk_Db [] entries) as_of_date)).
Proof.
  unfold all_posted_lines. simpl.
  induction entries as [|e entries IH]; intros Hb; [reflexivity|].
  cbn [flat_map]. rewrite !map_app, !sum_app.
  rewrite IH by (intros x Hx; apply Hb; now right).
  f_equal. destruct (_ && _); [|reflexivity].
  exact (Hb e (or_introl eq_refl)).
Qed.

